(** * videowall: a shallow embedding of the grid controller, the tag
      registry and the navbar auto-hide, with the properties of the
      specification stated over it.

    Source files modelled: [js/TagManager.js], [js/VideoGrid.js],
    [js/Navbar.js].  The DOM is modelled by records: a grid is the list of
    its [.video-cell] children, a cell is identified by its position in that
    list, and every attribute, class or style property the code reads or
    writes is a field.  Code that can throw returns a [Completion]. *)

From Stdlib Require Import ZArith QArith Qround String Ascii List Bool Lia DecimalString Lqa Qfield.
From stdpp Require Import base tactics option list strings.

Local Open Scope string_scope.
Local Open Scope nat_scope.

(** ** JavaScript prelude *)

(** Truthiness of a JavaScript string: only the empty string is falsy. *)
Definition truthy (s : string) : bool :=
  negb (String.eqb s "").

(** Truthiness of a value that is either [null] or a string. *)
Definition truthyAttr (a : option string) : bool :=
  match a with
  | Some s => truthy s
  | None => false
  end.

(** [Math.ceil(a / b)] on non-negative integers.  For [b = 0] JavaScript
    computes [Infinity] or [NaN]; multiplied by [b] this is [NaN], every
    comparison with it is false, and the callers then add no cell: the value
    [0] stands for that case. *)
Definition ceilDiv (a b : nat) : nat :=
  if Nat.eqb b 0 then 0 else (a + b - 1) / b.

(** Decimal rendering of an integer inside a template literal. *)
Definition showZ (z : Z) : string :=
  NilZero.string_of_int (Z.to_int z).

Definition showNat (n : nat) : string :=
  showZ (Z.of_nat n).

Inductive JSError : Type :=
  | Error (msg : string)
  | TypeError (msg : string)
  | SyntaxError (msg : string).

(** How a call ends.  The state reached is returned next to it: mutations
    made before a [throw] stay. *)
Inductive Completion : Type :=
  | Normal
  | Throw (e : JSError).

Definition errorMessage (e : JSError) : string :=
  match e with
  | Error m | TypeError m | SyntaxError m => m
  end.

(** [Math.random]: the successive draws are an input of the model. *)
Record Rng : Type := mkRng {
  draws : nat -> Q;
  drawn : nat
}.

Definition Math_random (r : Rng) : Q * Rng :=
  (draws r (drawn r), {| draws := draws r; drawn := S (drawn r) |}).

(** ** Binary64 arithmetic

    JavaScript numbers are binary64 floating point numbers.  A finite one
    is a rational, and the product of two of them is the exact product
    rounded to the nearest binary64 number, ties to the even significand. *)

Module Binary64.

Local Open Scope Q_scope.

(** Two to the power [e]. *)
Definition pow2 (e : Z) : Q :=
  match e with
  | Z0 => 1
  | Zpos p => inject_Z (2 ^ Zpos p)
  | Zneg p => 1 # (2 ^ p)
  end.

(** For [x > 0], the exponent [e] with [2^e <= x < 2^(e+1)]. *)
Definition binade (x : Q) : Z :=
  if Qle_bool 1 x then Z.log2 (Qfloor x)
  else (- Z.log2_up (Qceiling (/ x)))%Z.

(** The nearest integer, the even one of two that are equally near. *)
Definition roundHalfEven (s : Q) : Z :=
  let f := Qfloor s in
  match Qcompare (s - inject_Z f) (1 # 2) with
  | Lt => f
  | Gt => (f + 1)%Z
  | Eq => if Z.even f then f else (f + 1)%Z
  end.

(** The nearest binary64 number to [x > 0]: a multiple of the unit in the
    last place of the binade of [x], which is [2^(e-52)], and [2^(-1074)]
    for the subnormal numbers.  Overflow does not occur for the numbers at
    hand and is not modelled. *)
Definition roundBinary64Pos (x : Q) : Q :=
  let q := Z.max (binade x - 52) (-1074) in
  inject_Z (roundHalfEven (x / pow2 q)) * pow2 q.

Definition roundBinary64 (x : Q) : Q :=
  match Qcompare x 0 with
  | Eq => 0
  | Gt => roundBinary64Pos x
  | Lt => - roundBinary64Pos (- x)
  end.

(** The product of two binary64 numbers as JavaScript computes it. *)
Definition mul (x y : Q) : Q :=
  roundBinary64 (x * y).

(** The greatest binary64 number below one: the values of [Math.random]
    are binary64 numbers from zero up to this one. *)
Definition belowOne : Q :=
  1 - (1 # 9007199254740992).

End Binary64.

(** ** The DOM of one video cell *)

(** The [<video>] element.  [vsrc] is what the [src] property reads, the
    empty string when no source was ever assigned. *)
Record Video : Type := mkVideo {
  vsrc : string;
  currentTime : Q;
  paused : bool;
  videoDisplay : string
}.

(** The [.tag-display] badge of a cell. *)
Record TagDisplay : Type := mkTagDisplay {
  textContent : string;
  backgroundColor : string;
  addMode : bool
}.

Record VideoCell : Type := mkVideoCell {
  dataIndex : nat;
  classEmpty : bool;
  classDragging : bool;
  classDragover : bool;
  dataTag : option string;
  cellDisplay : string;
  video : Video;
  containerDisplay : string;
  buttonDisplay : string;
  tagDisplay : option TagDisplay
}.

(** What the [src] property reads once a URL was assigned to it: the [src]
    attribute resolved against the URL of the document.  An absolute URL (a
    blob URL, or a value read from [src] before) reads as itself; the empty
    string reads as the URL of the document.  The code assigns nothing
    else. *)
Definition reflectURL (documentURL s : string) : string :=
  if String.eqb s "" then documentURL else s.

(** Assigning [video.src] sets the attribute and runs the media element
    load algorithm of HTML: playback is paused and the position goes back
    to the start. *)
Definition set_src (documentURL s : string) (v : Video) : Video :=
  {| vsrc := reflectURL documentURL s; currentTime := 0; paused := true;
     videoDisplay := videoDisplay v |}.

Definition set_currentTime (t : Q) (v : Video) : Video :=
  {| vsrc := vsrc v; currentTime := t; paused := paused v;
     videoDisplay := videoDisplay v |}.

Definition play (v : Video) : Video :=
  {| vsrc := vsrc v; currentTime := currentTime v; paused := false;
     videoDisplay := videoDisplay v |}.

Definition set_videoDisplay (d : string) (v : Video) : Video :=
  {| vsrc := vsrc v; currentTime := currentTime v; paused := paused v;
     videoDisplay := d |}.

Definition with_video (f : Video -> Video) (c : VideoCell) : VideoCell :=
  {| dataIndex := dataIndex c; classEmpty := classEmpty c;
     classDragging := classDragging c; classDragover := classDragover c;
     dataTag := dataTag c; cellDisplay := cellDisplay c;
     video := f (video c);
     containerDisplay := containerDisplay c;
     buttonDisplay := buttonDisplay c; tagDisplay := tagDisplay c |}.

Definition set_classEmpty (b : bool) (c : VideoCell) : VideoCell :=
  {| dataIndex := dataIndex c; classEmpty := b;
     classDragging := classDragging c; classDragover := classDragover c;
     dataTag := dataTag c; cellDisplay := cellDisplay c; video := video c;
     containerDisplay := containerDisplay c;
     buttonDisplay := buttonDisplay c; tagDisplay := tagDisplay c |}.

Definition set_dragClasses (dragging dragover : bool) (c : VideoCell) : VideoCell :=
  {| dataIndex := dataIndex c; classEmpty := classEmpty c;
     classDragging := dragging; classDragover := dragover;
     dataTag := dataTag c; cellDisplay := cellDisplay c; video := video c;
     containerDisplay := containerDisplay c;
     buttonDisplay := buttonDisplay c; tagDisplay := tagDisplay c |}.

Definition set_dataTag (t : option string) (c : VideoCell) : VideoCell :=
  {| dataIndex := dataIndex c; classEmpty := classEmpty c;
     classDragging := classDragging c; classDragover := classDragover c;
     dataTag := t; cellDisplay := cellDisplay c; video := video c;
     containerDisplay := containerDisplay c;
     buttonDisplay := buttonDisplay c; tagDisplay := tagDisplay c |}.

Definition set_cellDisplay (d : string) (c : VideoCell) : VideoCell :=
  {| dataIndex := dataIndex c; classEmpty := classEmpty c;
     classDragging := classDragging c; classDragover := classDragover c;
     dataTag := dataTag c; cellDisplay := d; video := video c;
     containerDisplay := containerDisplay c;
     buttonDisplay := buttonDisplay c; tagDisplay := tagDisplay c |}.

Definition set_containerDisplay (d : string) (c : VideoCell) : VideoCell :=
  {| dataIndex := dataIndex c; classEmpty := classEmpty c;
     classDragging := classDragging c; classDragover := classDragover c;
     dataTag := dataTag c; cellDisplay := cellDisplay c; video := video c;
     containerDisplay := d;
     buttonDisplay := buttonDisplay c; tagDisplay := tagDisplay c |}.

Definition set_buttonDisplay (d : string) (c : VideoCell) : VideoCell :=
  {| dataIndex := dataIndex c; classEmpty := classEmpty c;
     classDragging := classDragging c; classDragover := classDragover c;
     dataTag := dataTag c; cellDisplay := cellDisplay c; video := video c;
     containerDisplay := containerDisplay c;
     buttonDisplay := d; tagDisplay := tagDisplay c |}.

Definition set_tagDisplay (t : option TagDisplay) (c : VideoCell) : VideoCell :=
  {| dataIndex := dataIndex c; classEmpty := classEmpty c;
     classDragging := classDragging c; classDragover := classDragover c;
     dataTag := dataTag c; cellDisplay := cellDisplay c; video := video c;
     containerDisplay := containerDisplay c;
     buttonDisplay := buttonDisplay c; tagDisplay := t |}.

(** A cell is visible when its inline [display] does not hide it. *)
Definition visible (c : VideoCell) : bool :=
  negb (String.eqb (cellDisplay c) "none").

(** ** js/TagManager.js *)

Module TagManager.

(** *** The tag registry: a JavaScript [Map] from tag name to color

    A [Map] iterates in insertion order, and the dropdown is built in that
    order, so the registry is an association list. *)

Definition TagMap : Type := list (string * string).

Fixpoint mapGet (k : string) (m : TagMap) : option string :=
  match m with
  | [] => None
  | (k', v) :: m' => if String.eqb k k' then Some v else mapGet k m'
  end.

Definition mapHas (k : string) (m : TagMap) : bool :=
  match mapGet k m with
  | Some _ => true
  | None => false
  end.

(** [Map.prototype.set]: an existing key keeps its place, a new key goes to
    the end. *)
Fixpoint mapSet (k v : string) (m : TagMap) : TagMap :=
  match m with
  | [] => [(k, v)]
  | (k', v') :: m' =>
      if String.eqb k k' then (k', v) :: m' else (k', v') :: mapSet k v m'
  end.

Fixpoint mapDelete (k : string) (m : TagMap) : TagMap :=
  match m with
  | [] => []
  | (k', v') :: m' =>
      if String.eqb k k' then mapDelete k m' else (k', v') :: mapDelete k m'
  end.

(** What a click handler of the dropdown does: it calls the method of that
    name on [this] with one argument. *)
Inductive Handler : Type :=
  | CallThis (method : string) (arg : string).

Record DropdownOption : Type := mkOption {
  colorMark : string;
  optionText : string;
  onClick : Handler
}.

Record t : Type := mkTagManager {
  tags : TagMap;
  dropdown : list DropdownOption
}.

(** The methods the class body defines. *)
Definition methods : list string :=
  [ "constructor"; "generatePastelColor"; "initializeFilterButton";
    "updateDropdown"; "addTag"; "deleteTag"; "filterVideos";
    "setupEventListeners"; "addTagToCell"; "showTagMenu"; "createNewTag";
    "applyTag" ].

Definition hasMethod (name : string) : bool :=
  existsb (String.eqb name) methods.

(** [generatePastelColor]: hue [Math.floor(Math.random() * 360)], the
    product a binary64 product. *)
Definition hueOf (r : Q) : Z :=
  Qfloor (Binary64.mul r 360).

Definition pastel (r : Q) : string :=
  "hsl(" ++ showZ (hueOf r) ++ ", 70%, 80%)".

Definition generatePastelColor (rng : Rng) : string * Rng :=
  let '(r, rng') := Math_random rng in (pastel r, rng').

(** [updateDropdown]: the menu is emptied and rebuilt, one option per tag,
    each with a click handler calling [this.filterByTag(tagName)]. *)
Definition updateDropdown (tm : t) : t :=
  {| tags := tags tm;
     dropdown :=
       map (fun '(tagName, color) =>
              {| colorMark := color; optionText := tagName;
                 onClick := CallThis "filterByTag" tagName |})
           (tags tm) |}.

(** The constructor: an empty [Map], then [initializeFilterButton], which
    ends with [updateDropdown]. *)
Definition new : t :=
  updateDropdown {| tags := []; dropdown := [] |}.

(** [addTag]: returns [this.tags.get(tag)]. *)
Definition addTag (tag : string) (tm : t) (rng : Rng) : option string * t * Rng :=
  if negb (mapHas tag (tags tm)) then
    let '(color, rng') := generatePastelColor rng in
    let tm' := updateDropdown {| tags := mapSet tag color (tags tm);
                                dropdown := dropdown tm |} in
    (mapGet tag (tags tm'), tm', rng')
  else
    (mapGet tag (tags tm), tm, rng).

(** *** The selector of [deleteTag]

    [deleteTag] builds an attribute selector on [data-tag] by pasting the
    tag between two double quotes.  How a CSS parser reads that text
    depends on the characters of the tag. *)

Definition dquote : ascii := ascii_of_nat 34.
Definition backslash : ascii := ascii_of_nat 92.

Definition isNewline (a : ascii) : bool :=
  let n := nat_of_ascii a in
  Nat.eqb n 10 || Nat.eqb n 12 || Nat.eqb n 13.

Definition isWhitespace (a : ascii) : bool :=
  let n := nat_of_ascii a in
  isNewline a || Nat.eqb n 9 || Nat.eqb n 32.

(** Characters that do not stand for themselves inside a CSS string. *)
Definition cssSpecial (a : ascii) : bool :=
  Ascii.eqb a dquote || Ascii.eqb a backslash || isNewline a
  || Nat.eqb (nat_of_ascii a) 0.

Fixpoint scanPlain (s : string) : string * option (ascii * string) :=
  match s with
  | EmptyString => (EmptyString, None)
  | String a r =>
      if cssSpecial a then (EmptyString, Some (a, r))
      else let '(p, k) := scanPlain r in (String a p, k)
  end.

Fixpoint skipWhitespace (s : string) : string :=
  match s with
  | EmptyString => EmptyString
  | String a r => if isWhitespace a then skipWhitespace r else s
  end.

(** A letter other than [i] and [s] (the two attribute-selector modifiers),
    or a digit. *)
Definition startsForeignToken (a : ascii) : bool :=
  let n := nat_of_ascii a in
  let lower := (Nat.leb 97 n && Nat.leb n 122) in
  let upper := (Nat.leb 65 n && Nat.leb n 90) in
  let digit := (Nat.leb 48 n && Nat.leb n 57) in
  let modifier := Nat.eqb n 105 || Nat.eqb n 115 || Nat.eqb n 73 || Nat.eqb n 83 in
  ((lower || upper) && negb modifier) || digit.

(** A tag every character of which stands for itself. *)
Fixpoint plain (s : string) : bool :=
  match s with
  | EmptyString => true
  | String a r => negb (cssSpecial a) && plain r
  end.

Inductive SelectorReading : Type :=
  | AttrEquals (v : string)
  | InvalidSelector
  | OtherSelector.

(** - No special character: the string token is the tag, the selector asks
      for [data-tag] equal to it.
    - A newline first: the string token is a bad string, the selector is
      refused.
    - A double quote first: it closes the string.  After the value only an
      optional modifier and the closing bracket may come, so when the tag
      goes on with another letter or a digit, or ends there (the quote of
      the template then opens a second string), the selector is refused.
    - Everything else (an escape, a tag that closes the bracket itself and
      goes on with more selector text) is outside this model. *)
Definition readDataTagSelector (tag : string) : SelectorReading :=
  match scanPlain tag with
  | (_, None) => AttrEquals tag
  | (_, Some (a, r)) =>
      if isNewline a then InvalidSelector
      else if Ascii.eqb a dquote then
        match skipWhitespace r with
        | EmptyString => InvalidSelector
        | String b _ =>
            if startsForeignToken b then InvalidSelector else OtherSelector
        end
      else OtherSelector
  end.

Definition hasDataTag (v : string) (c : VideoCell) : bool :=
  match dataTag c with
  | Some s => String.eqb s v
  | None => false
  end.

(** [cell.removeAttribute('data-tag')], then the badge is removed. *)
Definition stripTag (c : VideoCell) : VideoCell :=
  set_tagDisplay None (set_dataTag None c).

(** The first two statements of [deleteTag], which run for every tag: the
    tag leaves the registry and the dropdown is rebuilt. *)
Definition deleteTagRegistry (tag : string) (tm : t) : t :=
  updateDropdown {| tags := mapDelete tag (tags tm);
                    dropdown := dropdown tm |}.

(** The [forEach] of [deleteTag], over the cells its selector matches. *)
Definition stripMatching (matches : VideoCell -> bool) (cells : list VideoCell)
  : list VideoCell :=
  map (fun c => if matches c then stripTag c else c) cells.

(** [deleteTag].  [cells] are the [.video-cell] elements of the document.
    The registry is that of [deleteTagRegistry] for every tag; the result
    as a whole is [None] where the selector, and with it the cells that
    are stripped, is outside the model. *)
Definition deleteTag (tag : string) (tm : t) (cells : list VideoCell)
  : option (Completion * t * list VideoCell) :=
  let tm1 := deleteTagRegistry tag tm in
  match readDataTagSelector tag with
  | AttrEquals v =>
      Some (Normal, tm1, stripMatching (hasDataTag v) cells)
  | InvalidSelector =>
      Some (Throw (SyntaxError "not a valid selector"), tm1, cells)
  | OtherSelector => None
  end.

(** [filterVideos]. *)
Definition filterVideos (tag : string) (cells : list VideoCell) : list VideoCell :=
  map (fun c =>
         if String.eqb tag "all" || hasDataTag tag c
         then set_cellDisplay "" c
         else set_cellDisplay "none" c)
      cells.

(** [addTagToCell]: a badge in add mode, showing a plus sign.  A cell is
    given one badge, when it is created; [querySelector] finds the first. *)
Definition addTagToCell (c : VideoCell) : VideoCell :=
  match tagDisplay c with
  | Some _ => c
  | None =>
      set_tagDisplay
        (Some {| textContent := "+"; backgroundColor := ""; addMode := true |}) c
  end.

(** [applyTag].  The color is [undefined] for a tag that is not in the
    registry, and assigning [undefined] to a style property leaves it as it
    was.  A cell whose badge was removed makes [tagDisplay.textContent]
    throw, after the attribute was set.  The click handler of the badge and
    the tag menu are not part of the model. *)
Definition applyTag (tm : t) (tag : string) (c : VideoCell) : Completion * VideoCell :=
  let color := mapGet tag (tags tm) in
  let c1 := set_dataTag (Some tag) c in
  match tagDisplay c1 with
  | None => (Throw (TypeError "tagDisplay is null"), c1)
  | Some td =>
      (Normal,
       set_tagDisplay
         (Some {| textContent := tag;
                  backgroundColor := default (backgroundColor td) color;
                  addMode := false |}) c1)
  end.

(** A method called by name on the tag manager with one string argument,
    as a click handler does.  A name that is no method of the class is
    [undefined], and calling it throws.  The result is [None] for the
    methods that are not modelled as a call by name. *)
Definition callThis (method arg : string) (tm : t) (cells : list VideoCell) (rng : Rng)
  : option (Completion * t * list VideoCell * Rng) :=
  if negb (hasMethod method) then
    Some (Throw (TypeError ("this." ++ method ++ " is not a function")),
          tm, cells, rng)
  else if String.eqb method "filterVideos" then
    Some (Normal, tm, filterVideos arg cells, rng)
  else if String.eqb method "addTag" then
    let '(_, tm', rng') := addTag arg tm rng in Some (Normal, tm', cells, rng')
  else if String.eqb method "deleteTag" then
    match deleteTag arg tm cells with
    | Some (k, tm', cells') => Some (k, tm', cells', rng)
    | None => None
    end
  else None.

Definition runHandler (h : Handler) (tm : t) (cells : list VideoCell) (rng : Rng)
  : option (Completion * t * list VideoCell * Rng) :=
  match h with
  | CallThis method arg => callThis method arg tm cells rng
  end.

(** A click on an option of the filter dropdown. *)
Definition clickOption (o : DropdownOption) (tm : t) (cells : list VideoCell) (rng : Rng)
  : option (Completion * t * list VideoCell * Rng) :=
  runHandler (onClick o) tm cells rng.

End TagManager.

(** ** js/VideoGrid.js *)

Module VideoGrid.

(** *** CONFIG and the page

    The configuration object is defined outside the files modelled here; it
    is a parameter of every function that reads it.  [layouts cfg l a] is
    [CONFIG.layouts[l][a]].  The page that loads the scripts is not among
    the files either: [pageURL] is the URL of its document. *)

Record LayoutConfig : Type := mkLayoutConfig {
  layoutCells : nat;
  columns : nat
}.

Record Config : Type := mkConfig {
  defaultLayout : string;
  defaultAspectRatio : string;
  aspectRatios : string -> string;
  layouts : string -> string -> LayoutConfig;
  supportedFormats : list string;
  pageURL : string
}.

(** A [File] of the File API, as far as the code looks at it. *)
Record File : Type := mkFile {
  ftype : string;
  fsize : N
}.

Record t : Type := mkVideoGrid {
  currentLayout : string;
  currentAspectRatio : string;
  gridClassName : string;
  cells : list VideoCell;
  isPlaying : bool;
  isExtended : bool;
  overflowY : string;
  tagManager : TagManager.t;
  (** the variable [dragSource] of [setupVideoSwap] *)
  dragSource : option nat;
  (** the messages [showErrorMessage] was called with, oldest first *)
  shownErrors : list string;
  (** how many object URLs [URL.createObjectURL] has handed out *)
  objectURLs : nat;
  (** the URL of the document the grid lives in *)
  documentURL : string
}.

Definition set_cells (cs : list VideoCell) (g : t) : t :=
  {| currentLayout := currentLayout g;
     currentAspectRatio := currentAspectRatio g;
     gridClassName := gridClassName g; cells := cs;
     isPlaying := isPlaying g; isExtended := isExtended g;
     overflowY := overflowY g; tagManager := tagManager g;
     dragSource := dragSource g; shownErrors := shownErrors g;
     objectURLs := objectURLs g;
     documentURL := documentURL g |}.

Definition set_layout (l a : string) (g : t) : t :=
  {| currentLayout := l; currentAspectRatio := a;
     gridClassName := gridClassName g; cells := cells g;
     isPlaying := isPlaying g; isExtended := isExtended g;
     overflowY := overflowY g; tagManager := tagManager g;
     dragSource := dragSource g; shownErrors := shownErrors g;
     objectURLs := objectURLs g;
     documentURL := documentURL g |}.

Definition set_isExtended (b : bool) (g : t) : t :=
  {| currentLayout := currentLayout g;
     currentAspectRatio := currentAspectRatio g;
     gridClassName := gridClassName g; cells := cells g;
     isPlaying := isPlaying g; isExtended := b;
     overflowY := overflowY g; tagManager := tagManager g;
     dragSource := dragSource g; shownErrors := shownErrors g;
     objectURLs := objectURLs g;
     documentURL := documentURL g |}.

Definition set_dragSource (d : option nat) (g : t) : t :=
  {| currentLayout := currentLayout g;
     currentAspectRatio := currentAspectRatio g;
     gridClassName := gridClassName g; cells := cells g;
     isPlaying := isPlaying g; isExtended := isExtended g;
     overflowY := overflowY g; tagManager := tagManager g;
     dragSource := d; shownErrors := shownErrors g;
     objectURLs := objectURLs g;
     documentURL := documentURL g |}.

(** [updateGridClass]. *)
Definition updateGridClass (cfg : Config) (g : t) : t :=
  {| currentLayout := currentLayout g;
     currentAspectRatio := currentAspectRatio g;
     gridClassName :=
       "video-grid layout-" ++ currentLayout g ++ " "
       ++ aspectRatios cfg (currentAspectRatio g);
     cells := cells g;
     isPlaying := isPlaying g; isExtended := isExtended g;
     overflowY := overflowY g; tagManager := tagManager g;
     dragSource := dragSource g; shownErrors := shownErrors g;
     objectURLs := objectURLs g;
     documentURL := documentURL g |}.

(** [setupScrollHandler]. *)
Definition setupScrollHandler (g : t) : t :=
  {| currentLayout := currentLayout g;
     currentAspectRatio := currentAspectRatio g;
     gridClassName := gridClassName g; cells := cells g;
     isPlaying := isPlaying g; isExtended := isExtended g;
     overflowY := if isExtended g then "scroll" else "hidden";
     tagManager := tagManager g;
     dragSource := dragSource g; shownErrors := shownErrors g;
     objectURLs := objectURLs g;
     documentURL := documentURL g |}.

(** [showErrorMessage] has an empty body; the model records the call. *)
Definition showErrorMessage (message : string) (g : t) : t :=
  {| currentLayout := currentLayout g;
     currentAspectRatio := currentAspectRatio g;
     gridClassName := gridClassName g; cells := cells g;
     isPlaying := isPlaying g; isExtended := isExtended g;
     overflowY := overflowY g; tagManager := tagManager g;
     dragSource := dragSource g;
     shownErrors := shownErrors g ++ [message];
     objectURLs := objectURLs g;
     documentURL := documentURL g |}.

(** [URL.createObjectURL]: a URL no earlier call returned. *)
Definition createObjectURL (g : t) : string * t :=
  ("blob:" ++ showNat (objectURLs g),
   {| currentLayout := currentLayout g;
      currentAspectRatio := currentAspectRatio g;
      gridClassName := gridClassName g; cells := cells g;
      isPlaying := isPlaying g; isExtended := isExtended g;
      overflowY := overflowY g; tagManager := tagManager g;
      dragSource := dragSource g; shownErrors := shownErrors g;
      objectURLs := S (objectURLs g);
      documentURL := documentURL g |}).

(** [createVideoCell]. *)
Definition createVideoCell (index : nat) : VideoCell :=
  TagManager.addTagToCell
    {| dataIndex := index; classEmpty := true;
       classDragging := false; classDragover := false;
       dataTag := None; cellDisplay := "";
       video := {| vsrc := ""; currentTime := 0; paused := true;
                   videoDisplay := "none" |};
       containerDisplay := "none"; buttonDisplay := "flex";
       tagDisplay := None |}.

Definition layoutConfigOf (cfg : Config) (g : t) : LayoutConfig :=
  layouts cfg (currentLayout g) (aspectRatios cfg (currentAspectRatio g)).

(** [initGrid]. *)
Definition initGrid (cfg : Config) (g : t) : t :=
  let cellCount := layoutCells (layoutConfigOf cfg g) in
  set_cells (map createVideoCell (seq 0 cellCount)) g.

(** [extendGrid]. *)
Definition extendGrid (cfg : Config) (additionalVideos : nat) (g : t) : t :=
  let cellsPerRow := columns (layoutConfigOf cfg g) in
  let currentCells := length (cells g) in
  let neededCells := ceilDiv additionalVideos cellsPerRow * cellsPerRow in
  set_cells (cells g ++ map createVideoCell (seq currentCells neededCells)) g.

(** The constructor followed by [initialize]. *)
Definition new (cfg : Config) : t :=
  setupScrollHandler
    (initGrid cfg
       (updateGridClass cfg
          {| currentLayout := defaultLayout cfg;
             currentAspectRatio := defaultAspectRatio cfg;
             gridClassName := ""; cells := [];
             isPlaying := false; isExtended := false; overflowY := "";
             tagManager := TagManager.new;
             dragSource := None; shownErrors := []; objectURLs := 0;
             documentURL := pageURL cfg |})).

(** *** Loading files *)

Definition safeVideoTypes : list string :=
  [ "video/mp4"; "video/webm"; "video/ogg" ].

Definition includes (s : string) (l : list string) : bool :=
  existsb (String.eqb s) l.

Definition MAX_FILE_SIZE : N := 100 * 1024 * 1024.

(** The statements of [addVideoToCell] that load the file into the cell. *)
Definition loadIntoCell (documentURL url : string) (c : VideoCell) : VideoCell :=
  set_classEmpty false
    (set_buttonDisplay "none"
       (set_containerDisplay "block"
          (with_video
             (fun v => set_videoDisplay "block" (set_src documentURL url v)) c))).

(** [addVideoToCell].  The white-list test stands before the [try]: its
    error leaves the function.  The errors thrown inside the [try] are
    caught and handed to [showErrorMessage]. *)
Definition addVideoToCell (cfg : Config) (cell : nat) (file : File) (g : t)
  : Completion * t :=
  if negb (includes (ftype file) safeVideoTypes) then
    (Throw (Error "不支持的视频格式"), g)
  else if negb (includes (ftype file) (supportedFormats cfg)) then
    (Normal, showErrorMessage ("不支持的视频格式: " ++ ftype file) g)
  else if (MAX_FILE_SIZE <? fsize file)%N then
    (Normal, showErrorMessage "文件大小超过限制" g)
  else
    let '(url, g1) := createObjectURL g in
    (Normal,
     set_cells (alter (loadIntoCell (documentURL g1) url) cell (cells g1)) g1).

(** The positions of the cells matched by [.video-cell.empty]. *)
Fixpoint emptyCellsFrom (index : nat) (cs : list VideoCell) : list nat :=
  match cs with
  | [] => []
  | c :: cs' =>
      if classEmpty c then index :: emptyCellsFrom (S index) cs'
      else emptyCellsFrom (S index) cs'
  end.

Definition emptyCells (g : t) : list nat :=
  emptyCellsFrom 0 (cells g).

(** [Array.prototype.indexOf]. *)
Fixpoint indexOfFrom (x : nat) (l : list nat) (i : Z) : Z :=
  match l with
  | [] => (-1)%Z
  | y :: l' => if Nat.eqb x y then i else indexOfFrom x l' (i + 1)%Z
  end.

Definition indexOf (x : nat) (l : list nat) : Z :=
  indexOfFrom x l 0%Z.

(** The [files.forEach] of [addMultipleVideos]; an error thrown by
    [addVideoToCell] ends the loop and leaves [addMultipleVideos]. *)
Fixpoint addEachFile (cfg : Config) (empties : list nat) (files : list File)
    (currentCellIndex : Z) (g : t) : Completion * t :=
  match files with
  | [] => (Normal, g)
  | file :: rest =>
      if String.prefix "video/" (ftype file) then
        if (0 <=? currentCellIndex)%Z
           && (currentCellIndex <? Z.of_nat (length empties))%Z then
          match empties !! Z.to_nat currentCellIndex with
          | Some cell =>
              match addVideoToCell cfg cell file g with
              | (Normal, g') =>
                  addEachFile cfg empties rest (currentCellIndex + 1)%Z g'
              | (Throw e, g') => (Throw e, g')
              end
          | None => addEachFile cfg empties rest currentCellIndex g
          end
        else addEachFile cfg empties rest currentCellIndex g
      else addEachFile cfg empties rest currentCellIndex g
  end.

(** [addMultipleVideos]; [startCell] is the position of the cell. *)
Definition addMultipleVideos (cfg : Config) (files : list File) (startCell : nat)
    (g : t) : Completion * t :=
  let empties := emptyCells g in
  let currentCellIndex := indexOf startCell empties in
  let totalNeededCells := (currentCellIndex + Z.of_nat (length files))%Z in
  if (Z.of_nat (length empties) <? totalNeededCells)%Z then
    let g1 := setupScrollHandler
                (set_isExtended true (extendGrid cfg (length files) g)) in
    addEachFile cfg (emptyCells g1) files currentCellIndex g1
  else
    addEachFile cfg empties files currentCellIndex g.

(** *** Snapshot and restore *)

(** One entry of the array [saveVideoStates] returns. *)
Record SavedState : Type := mkSavedState {
  savedSrc : string;
  savedIsEmpty : bool;
  savedTag : option string;
  savedIsPlaying : bool
}.

Definition saveVideoStates (g : t) : list SavedState :=
  map (fun cell =>
         {| savedSrc := vsrc (video cell);
            savedIsEmpty := classEmpty cell;
            savedTag := dataTag cell;
            savedIsPlaying := negb (paused (video cell)) |})
      (cells g).

(** The body of the [forEach] of [restoreVideoStates] for one cell. *)
Definition restoreCell (tm : TagManager.t) (documentURL : string)
    (state : SavedState) (cell : VideoCell) : Completion * VideoCell :=
  if truthy (savedSrc state) then
    let cell1 :=
      set_classEmpty false
        (set_buttonDisplay "none"
           (set_containerDisplay "block"
              (with_video
                 (fun v => set_videoDisplay "block"
                             (set_src documentURL (savedSrc state) v))
                 cell))) in
    match savedTag state with
    | Some tag =>
        if truthy tag then TagManager.applyTag tm tag cell1 else (Normal, cell1)
    | None => (Normal, cell1)
    end
  else
    (Normal,
     set_classEmpty true
       (set_buttonDisplay "flex"
          (set_containerDisplay "none"
             (with_video (set_videoDisplay "none") cell)))).

(** [videoStates.forEach((state, index) => ...)]: a state whose index has
    no cell in the new grid is passed over. *)
Fixpoint restoreFrom (tm : TagManager.t) (documentURL : string)
    (states : list SavedState) (index : nat) (newCells : list VideoCell)
  : Completion * list VideoCell :=
  match states with
  | [] => (Normal, newCells)
  | state :: rest =>
      match newCells !! index with
      | Some cell =>
          match restoreCell tm documentURL state cell with
          | (Normal, cell') =>
              restoreFrom tm documentURL rest (S index)
                (<[index := cell']> newCells)
          | (Throw e, cell') => (Throw e, <[index := cell']> newCells)
          end
      | None => restoreFrom tm documentURL rest (S index) newCells
      end
  end.

Definition restoreVideoStates (videoStates : list SavedState) (g : t)
  : Completion * t :=
  let '(k, cs) :=
    restoreFrom (tagManager g) (documentURL g) videoStates 0 (cells g) in
  (k, set_cells cs g).

(** The number of cells matched by [.video-cell:not(.empty)]. *)
Definition filledCells (g : t) : nat :=
  length (filter (fun c => classEmpty c = false) (cells g)).

(** [toggleLayout]. *)
Definition toggleLayout (cfg : Config) (g : t) : Completion * t :=
  let videoStates := saveVideoStates g in
  let g1 :=
    set_layout (if String.eqb (currentLayout g) "2x2" then "3x3" else "2x2")
               (currentAspectRatio g) g in
  let filled := filledCells g1 in
  let layoutConfig := layoutConfigOf cfg g1 in
  let neededRows := ceilDiv filled (columns layoutConfig) in
  let totalNeededCells := neededRows * columns layoutConfig in
  let g2 := initGrid cfg (updateGridClass cfg g1) in
  let g3 :=
    if layoutCells layoutConfig <? totalNeededCells then
      setupScrollHandler
        (set_isExtended true
           (extendGrid cfg (totalNeededCells - layoutCells layoutConfig) g2))
    else g2 in
  restoreVideoStates videoStates g3.

(** [toggleAspectRatio]. *)
Definition toggleAspectRatio (cfg : Config) (g : t) : Completion * t :=
  let videoStates := saveVideoStates g in
  let g1 :=
    set_layout (currentLayout g)
               (if String.eqb (currentAspectRatio g) "16:9" then "9:16" else "16:9")
               g in
  let filled := filledCells g1 in
  let layoutConfig := layoutConfigOf cfg g1 in
  let neededRows := ceilDiv filled (columns layoutConfig) in
  let totalNeededCells := neededRows * columns layoutConfig in
  let g2 := initGrid cfg (updateGridClass cfg g1) in
  let g3 :=
    if layoutCells layoutConfig <? totalNeededCells then
      setupScrollHandler
        (set_isExtended true
           (extendGrid cfg (totalNeededCells - layoutCells layoutConfig) g2))
    else g2 in
  restoreVideoStates videoStates g3.

(** *** Swapping two cells by drag and drop *)

(** The object [getCellState] returns. *)
Record CellState : Type := mkCellState {
  stateSrc : string;
  stateCurrentTime : Q;
  stateIsPlaying : bool;
  stateIsEmpty : bool;
  stateButtonDisplay : string;
  stateVideoDisplay : string;
  stateContainerDisplay : string
}.

Definition getCellState (cell : VideoCell) : CellState :=
  {| stateSrc := vsrc (video cell);
     stateCurrentTime := currentTime (video cell);
     stateIsPlaying := negb (paused (video cell));
     stateIsEmpty := classEmpty cell;
     stateButtonDisplay := buttonDisplay cell;
     stateVideoDisplay := videoDisplay (video cell);
     stateContainerDisplay := containerDisplay cell |}.

Definition applyCellState (documentURL : string) (state : CellState)
    (cell : VideoCell) : VideoCell :=
  let cell1 :=
    set_buttonDisplay (stateButtonDisplay state)
      (set_containerDisplay (stateContainerDisplay state)
         (with_video
            (fun v =>
               set_videoDisplay (stateVideoDisplay state)
                 (set_currentTime (stateCurrentTime state)
                    (set_src documentURL (stateSrc state) v)))
            cell)) in
  if stateIsEmpty state then
    set_buttonDisplay "flex"
      (set_containerDisplay "none"
         (with_video (set_videoDisplay "none") (set_classEmpty true cell1)))
  else
    let cell2 :=
      set_buttonDisplay "none"
        (set_containerDisplay "block"
           (with_video (set_videoDisplay "block") (set_classEmpty false cell1))) in
    if stateIsPlaying state then with_video play cell2 else cell2.

(** The [dragstart] listener; [target] is the position of
    [e.target.closest('.video-cell')], if there is one. *)
Definition dragstart (target : option nat) (g : t) : t :=
  match target with
  | None => g
  | Some i =>
      match cells g !! i with
      | None => g
      | Some cell =>
          if negb (truthy (vsrc (video cell))) then g
          else
            set_dragSource (Some i)
              (set_cells
                 (<[i := set_dragClasses true (classDragover cell) cell]> (cells g))
                 g)
      end
  end.

Definition set_textContent (s : string) (d : TagDisplay) : TagDisplay :=
  {| textContent := s; backgroundColor := backgroundColor d;
     addMode := addMode d |}.

(** The [drop] listener of the grid. *)
Definition drop (target : option nat) (g : t) : t :=
  match target, dragSource g with
  | Some ti, Some si =>
      if Nat.eqb ti si then g
      else
        match cells g !! si, cells g !! ti with
        | Some source, Some targetCell =>
            let sourceTag := dataTag source in
            let targetTag := dataTag targetCell in
            let sourceState := getCellState source in
            let targetState := getCellState targetCell in
            let source1 := applyCellState (documentURL g) targetState source in
            let target1 := applyCellState (documentURL g) sourceState targetCell in
            let target2 :=
              if truthyAttr sourceTag then set_dataTag sourceTag target1
              else target1 in
            let source2 :=
              if truthyAttr targetTag then set_dataTag targetTag source1
              else source1 in
            let '(source3, target3) :=
              match tagDisplay source2, tagDisplay target2 with
              | Some sd, Some td =>
                  (set_tagDisplay
                     (Some (set_textContent (textContent td) sd)) source2,
                   set_tagDisplay
                     (Some (set_textContent (textContent sd) td)) target2)
              | _, _ => (source2, target2)
              end in
            let target4 := set_dragClasses (classDragging target3) false target3 in
            let source4 := set_dragClasses false (classDragover source3) source3 in
            set_cells (<[ti := target4]> (<[si := source4]> (cells g))) g
        | _, _ => g
        end
  | _, _ => g
  end.

End VideoGrid.

(** ** js/Navbar.js *)

Module Navbar.

(** Times are milliseconds since the navbar was constructed.  A pending
    timer is the time from which it may fire. *)
Record t : Type := mkNavbar {
  (** the class [hidden] of the navbar element *)
  hidden : bool;
  (** the timer whose id the variable [timeout] holds, while it is pending *)
  timeout : option N;
  (** the timer set at the end of [setupAutoHide], kept in no variable *)
  initialTimer : option N
}.

Definition threshold : Z := 100.
Definition hideDelay : N := 2000.

(** [setupAutoHide], run at time [now].  Whether the element starts with
    the class [hidden] is decided by the page. *)
Definition setupAutoHide (now : N) (initiallyHidden : bool) : t :=
  {| hidden := initiallyHidden; timeout := None;
     initialTimer := Some (now + hideDelay)%N |}.

(** The [mousemove] listener. *)
Definition mousemove (now : N) (clientY : Z) (nav : t) : t :=
  if (clientY <? threshold)%Z then
    {| hidden := false; timeout := None; initialTimer := initialTimer nav |}
  else
    {| hidden := hidden nav; timeout := Some (now + hideDelay)%N;
       initialTimer := initialTimer nav |}.

(** The callback of the timer kept in [timeout]. *)
Definition timeoutCallback (nav : t) : t :=
  {| hidden := true; timeout := None; initialTimer := initialTimer nav |}.

(** The callback of the timer set when the page has loaded. *)
Definition initialCallback (nav : t) : t :=
  {| hidden := true; timeout := timeout nav; initialTimer := None |}.

(** What the event loop delivers. *)
Inductive Event : Type :=
  | MouseMove (at_ : N) (clientY : Z)
  | TimeoutFires (at_ : N)
  | InitialTimerFires (at_ : N).

Record World : Type := mkWorld {
  now : N;
  nav : t;
  (** time and [clientY] of the last [mousemove] *)
  pointer : option (N * Z)
}.

(** One turn of the event loop.  Time does not go back, and a timer fires
    only if it is pending and its delay has passed. *)
Definition step (w : World) (e : Event) : option World :=
  match e with
  | MouseMove at_ y =>
      if (now w <=? at_)%N then
        Some {| now := at_; nav := mousemove at_ y (nav w);
                pointer := Some (at_, y) |}
      else None
  | TimeoutFires at_ =>
      match timeout (nav w) with
      | Some due =>
          if (now w <=? at_)%N && (due <=? at_)%N then
            Some {| now := at_; nav := timeoutCallback (nav w);
                    pointer := pointer w |}
          else None
      | None => None
      end
  | InitialTimerFires at_ =>
      match initialTimer (nav w) with
      | Some due =>
          if (now w <=? at_)%N && (due <=? at_)%N then
            Some {| now := at_; nav := initialCallback (nav w);
                    pointer := pointer w |}
          else None
      | None => None
      end
  end.

Fixpoint run (w : World) (events : list Event) : option World :=
  match events with
  | [] => Some w
  | e :: rest =>
      match step w e with
      | Some w' => run w' rest
      | None => None
      end
  end.

Definition start (initiallyHidden : bool) : World :=
  {| now := 0; nav := setupAutoHide 0 initiallyHidden; pointer := None |}.

(** The last reported pointer position is inside the zone at the top. *)
Definition pointerInZone (w : World) : bool :=
  match pointer w with
  | Some (_, y) => (y <? threshold)%Z
  | None => false
  end.

End Navbar.

(** ** Concrete pages used to evaluate the model *)

Module Sample.

Import VideoGrid.

(** A configuration of the shape the code expects: 2x2 and 3x3 grids, the
    same for both aspect ratios. *)
Definition config : Config :=
  {| defaultLayout := "2x2";
     defaultAspectRatio := "16:9";
     aspectRatios := fun a =>
       if String.eqb a "16:9" then "aspect-16-9" else "aspect-9-16";
     layouts := fun l _ =>
       if String.eqb l "2x2"
       then {| layoutCells := 4; columns := 2 |}
       else {| layoutCells := 9; columns := 3 |};
     supportedFormats := [ "video/mp4"; "video/webm"; "video/ogg" ];
     pageURL := "http://localhost/index.html" |}.

Definition mp4 : File := {| ftype := "video/mp4"; fsize := 1000 |}.
Definition hugeMp4 : File := {| ftype := "video/mp4"; fsize := 200 * 1024 * 1024 |}.
Definition quicktime : File := {| ftype := "video/quicktime"; fsize := 1000 |}.
Definition png : File := {| ftype := "image/png"; fsize := 1000 |}.

(** The grid as the page shows it first: four empty cells. *)
Definition emptyGrid : t := new config.

(** One file loaded into the first cell. *)
Definition oneVideo : t := snd (addMultipleVideos config [mp4] 0 emptyGrid).

(** That video playing, five seconds in. *)
Definition playingCell (c : VideoCell) : VideoCell :=
  with_video (fun v => play (set_currentTime 5 v)) c.

Definition onePlaying : t :=
  set_cells (alter playingCell 0 (cells oneVideo)) oneVideo.

(** A registry with one tag, and the first cell carrying it. *)
Definition taggedWith (tag color : string) (g : t) : t :=
  let tm := {| TagManager.tags := [(tag, color)];
               TagManager.dropdown := [] |} in
  let tm' := TagManager.updateDropdown tm in
  {| currentLayout := currentLayout g;
     currentAspectRatio := currentAspectRatio g;
     gridClassName := gridClassName g;
     cells := alter (fun c => snd (TagManager.applyTag tm' tag c)) 0 (cells g);
     isPlaying := isPlaying g; isExtended := isExtended g;
     overflowY := overflowY g; tagManager := tm';
     dragSource := dragSource g; shownErrors := shownErrors g;
     objectURLs := objectURLs g;
     documentURL := documentURL g |}.

Definition oneTagged : t := taggedWith "a" "hsl(10, 70%, 80%)" oneVideo.

(** The tag set on a cell that never received a video. *)
Definition taggedEmpty : t := taggedWith "a" "hsl(10, 70%, 80%)" emptyGrid.

(** A tag name with a double quote in it. *)
Definition quotedTag : string :=
  String "a" (String TagManager.dquote "b").

Definition oneQuoted : t := taggedWith quotedTag "hsl(10, 70%, 80%)" oneVideo.

(** The 3x3 grid with a single video, in its last cell. *)
Definition grid3x3 : t := snd (toggleLayout config emptyGrid).

Definition lastLoaded : t := snd (addMultipleVideos config [mp4] 8 grid3x3).

Definition rngConst (q : Q) : Rng := {| draws := fun _ => q; drawn := 0 |}.

End Sample.

(** ** Vocabulary of the statements *)

Module Batch.

Import VideoGrid.

(** The file passes the test [file.type.startsWith('video/')] of
    [addMultipleVideos] and so reaches [addVideoToCell]. *)
Definition isVideo (f : File) : bool :=
  String.prefix "video/" (ftype f).

(** A video type that is not on the white list of [addVideoToCell]. *)
Definition offList (f : File) : bool :=
  isVideo f && negb (includes (ftype f) safeVideoTypes).

(** The file is loaded: it passes every test. *)
Definition valid (cfg : Config) (f : File) : bool :=
  isVideo f
  && includes (ftype f) safeVideoTypes
  && includes (ftype f) (supportedFormats cfg)
  && negb (MAX_FILE_SIZE <? fsize f)%N.

(** The message of the error that is caught for the file, if one is. *)
Definition rejection (cfg : Config) (f : File) : option string :=
  if negb (isVideo f) then None
  else if negb (includes (ftype f) (supportedFormats cfg))
  then Some ("不支持的视频格式: " ++ ftype f)
  else if (MAX_FILE_SIZE <? fsize f)%N then Some "文件大小超过限制"
  else None.

(** The object URL handed out for the [j]-th file of a batch, when [base]
    URLs were handed out before the batch. *)
Definition urlOf (cfg : Config) (base : nat) (files : list File) (j : nat) : string :=
  "blob:" ++ showNat (base + length (filter (fun f => valid cfg f = true) (take j files))).

(** The number of files before the [j]-th that take a place among the
    empty cells: those of a video type, loaded or rejected. *)
Definition slotsBefore (files : list File) (j : nat) : nat :=
  length (filter (fun f => isVideo f = true) (take j files)).

(** The grid as the loop of [addMultipleVideos] finds it: extended when the
    batch asks for more cells than are empty. *)
Definition prepared (cfg : Config) (files : list File) (startCell : nat) (g : t) : t :=
  if (Z.of_nat (length (emptyCells g))
        <? indexOf startCell (emptyCells g) + Z.of_nat (length files))%Z
  then setupScrollHandler (set_isExtended true (extendGrid cfg (length files) g))
  else g.

(** What [addVideoToCell] and the loop around it leave alone. *)
Definition sameShape (g g' : t) : Prop :=
  length (cells g') = length (cells g)
  /\ currentLayout g' = currentLayout g
  /\ currentAspectRatio g' = currentAspectRatio g
  /\ isExtended g' = isExtended g
  /\ overflowY g' = overflowY g
  /\ tagManager g' = tagManager g.

End Batch.

Module Relayout.

Import VideoGrid.

(** What [toggleLayout] and [toggleAspectRatio] do once the new layout [l]
    and the new aspect ratio [a] are chosen: the two bodies are the same
    from there on. *)
Definition relayout (cfg : Config) (l a : string) (g : t) : Completion * t :=
  let videoStates := saveVideoStates g in
  let g1 := set_layout l a g in
  let filled := filledCells g1 in
  let layoutConfig := layoutConfigOf cfg g1 in
  let neededRows := ceilDiv filled (columns layoutConfig) in
  let totalNeededCells := neededRows * columns layoutConfig in
  let g2 := initGrid cfg (updateGridClass cfg g1) in
  let g3 :=
    if layoutCells layoutConfig <? totalNeededCells then
      setupScrollHandler
        (set_isExtended true
           (extendGrid cfg (totalNeededCells - layoutCells layoutConfig) g2))
    else g2 in
  restoreVideoStates videoStates g3.

(** A cell as [createVideoCell] makes it. *)
Definition isFresh (c : VideoCell) : Prop :=
  c = createVideoCell (dataIndex c).

(** The tag a rebuilt cell gets back: the [if (state.tag)] of
    [restoreVideoStates] passes over [null] and the empty string. *)
Definition restoredTag (tag : option string) : option string :=
  if truthyAttr tag then tag else None.

End Relayout.

Module NavbarInv.

Import Navbar.

(** What holds of every state the navbar reaches: a pending hide timer was
    armed by the last [mousemove], which was outside the zone, and is due
    [hideDelay] after it; the timer set on load is due [hideDelay] after
    the construction. *)
Definition invariant (w : World) : Prop :=
  (forall due, timeout (nav w) = Some due ->
     exists t0 y, pointer w = Some (t0, y)
                  /\ (threshold <= y)%Z /\ due = (t0 + hideDelay)%N)
  /\ (forall due, initialTimer (nav w) = Some due -> due = hideDelay).

End NavbarInv.

(** ** The rest of js/VideoGrid.js: the listeners of the drag events *)

Module Page.

Import VideoGrid.

(** [setupDragAndDrop] gives the three file-drop listeners to the cells the
    grid has when it runs.  It runs in [initialize] and at the end of both
    toggles, each time on a grid of new cells; [extendGrid] appends cells
    without running it.  So the cells that carry the listeners are those at
    the positions below [wired]. *)
Record t : Type := mkPage {
  grid : VideoGrid.t;
  wired : nat
}.

Definition setupDragAndDrop (g : VideoGrid.t) : t :=
  {| grid := g; wired := length (cells g) |}.

(** [initialize], after the constructor. *)
Definition initialize (cfg : Config) : t :=
  setupDragAndDrop (VideoGrid.new cfg).

Definition toggleLayout (cfg : Config) (p : t) : Completion * t :=
  let '(k, g) := VideoGrid.toggleLayout cfg (grid p) in
  (k, setupDragAndDrop g).

Definition toggleAspectRatio (cfg : Config) (p : t) : Completion * t :=
  let '(k, g) := VideoGrid.toggleAspectRatio cfg (grid p) in
  (k, setupDragAndDrop g).

(** The [change] listener of [openFileInput], reached from the add button of
    any cell. *)
Definition addMultipleVideos (cfg : Config) (files : list File) (startCell : nat)
    (p : t) : Completion * t :=
  let '(k, g) := VideoGrid.addMultipleVideos cfg files startCell (grid p) in
  (k, {| grid := g; wired := wired p |}).

Definition set_classDragover (b : bool) (c : VideoCell) : VideoCell :=
  set_dragClasses (classDragging c) b c.

Definition set_classDragging (b : bool) (c : VideoCell) : VideoCell :=
  set_dragClasses b (classDragover c) c.

(** The [dragover] listener of the grid, set by [setupVideoSwap]. *)
Definition gridDragover (target : option nat) (g : VideoGrid.t) : VideoGrid.t :=
  match target with
  | None => g
  | Some ti =>
      if bool_decide (dragSource g = Some ti) then g
      else set_cells (alter (set_classDragover true) ti (cells g)) g
  end.

(** The [dragleave] listener of the grid. *)
Definition gridDragleave (target : option nat) (g : VideoGrid.t) : VideoGrid.t :=
  match target with
  | None => g
  | Some ti =>
      if bool_decide (dragSource g = Some ti) then g
      else set_cells (alter (set_classDragover false) ti (cells g)) g
  end.

(** The [dragend] listener of the grid. *)
Definition dragend (g : VideoGrid.t) : VideoGrid.t :=
  let cs :=
    match dragSource g with
    | Some si => alter (set_classDragging false) si (cells g)
    | None => cells g
    end in
  set_dragSource None (set_cells (map (set_classDragover false) cs) g).

(** The [dragover] and [dragleave] listeners of a cell. *)
Definition cellDragover (i : nat) (g : VideoGrid.t) : VideoGrid.t :=
  set_cells (alter (set_classDragover true) i (cells g)) g.

Definition cellDragleave (i : nat) (g : VideoGrid.t) : VideoGrid.t :=
  set_cells (alter (set_classDragover false) i (cells g)) g.

(** The [drop] listener of a cell; [files] is [e.dataTransfer.files]. *)
Definition cellDrop (cfg : Config) (i : nat) (files : list File) (g : VideoGrid.t)
  : Completion * VideoGrid.t :=
  let g1 := cellDragleave i g in
  match files with
  | [] => (Normal, g1)
  | _ :: _ => VideoGrid.addMultipleVideos cfg files i g1
  end.

(** A drag event whose target lies in the cell at position [i].  The
    listener of the cell runs first, if the cell has one, then the listener
    of the grid; an error thrown by the first does not keep the second from
    running. *)
Inductive DragEvent : Type :=
  | Dragover (i : nat)
  | Dragleave (i : nat)
  | Drop (i : nat) (files : list File).

Definition dispatch (cfg : Config) (e : DragEvent) (p : t) : Completion * t :=
  match e with
  | Dragover i =>
      let g1 := if i <? wired p then cellDragover i (grid p) else grid p in
      (Normal, {| grid := gridDragover (Some i) g1; wired := wired p |})
  | Dragleave i =>
      let g1 := if i <? wired p then cellDragleave i (grid p) else grid p in
      (Normal, {| grid := gridDragleave (Some i) g1; wired := wired p |})
  | Drop i files =>
      let '(k, g1) :=
        if i <? wired p then cellDrop cfg i files (grid p)
        else (Normal, grid p) in
      (k, {| grid := VideoGrid.drop (Some i) g1; wired := wired p |})
  end.

(** The events of one drag of a cell, between [dragstart] and [dragend]:
    nothing is dragged in from outside, so they carry no files. *)
Definition internal (e : DragEvent) : Prop :=
  match e with
  | Drop _ files => files = []
  | _ => True
  end.

Fixpoint dispatchAll (cfg : Config) (events : list DragEvent) (p : t) : t :=
  match events with
  | [] => p
  | e :: rest => dispatchAll cfg rest (dispatch cfg e p).2
  end.

End Page.

(** ** The rest of js/VideoGrid.js: [debounce] and [throttle] *)

Module Timers.

Section Wrapped.

(** The arguments of one call of the wrapped function. *)
Variable A : Type.

(** The closure [debounce] or [throttle] returns, seen from outside:
    [pending] is the timer whose id the variable [timeout] holds while it
    has not fired, with its due time and the arguments its callback
    captured; [invoked] lists the calls of [func], latest first, each with
    its time and arguments. *)
Record Wrapper : Type := mkWrapper {
  now : N;
  pending : option (N * A);
  invoked : list (N * A);
  (** time and arguments of the last call of the closure *)
  lastCall : option (N * A)
}.

Definition initial : Wrapper :=
  {| now := 0; pending := None; invoked := []; lastCall := None |}.

(** What happens to a closure: it is called, or its timer fires. *)
Inductive Event : Type :=
  | Call (at_ : N) (args : A)
  | Fire (at_ : N).

(** [debounce(func, wait)]: a call drops the pending timer and sets a new
    one; the timer calls [func] with the arguments of that call. *)
Definition debounceStep (wait : N) (w : Wrapper) (e : Event) : option Wrapper :=
  match e with
  | Call at_ args =>
      if (now w <=? at_)%N then
        Some {| now := at_; pending := Some ((at_ + wait)%N, args);
                invoked := invoked w; lastCall := Some (at_, args) |}
      else None
  | Fire at_ =>
      match pending w with
      | Some (due, args) =>
          if (now w <=? at_)%N && (due <=? at_)%N then
            Some {| now := at_; pending := None;
                    invoked := (at_, args) :: invoked w;
                    lastCall := lastCall w |}
          else None
      | None => None
      end
  end.

(** [throttle(func, wait)]: a call sets a timer only when none is pending;
    the timer clears the variable and calls [func] with the arguments of
    the call that set it. *)
Definition throttleStep (wait : N) (w : Wrapper) (e : Event) : option Wrapper :=
  match e with
  | Call at_ args =>
      if (now w <=? at_)%N then
        Some {| now := at_;
                pending := match pending w with
                           | Some p => Some p
                           | None => Some ((at_ + wait)%N, args)
                           end;
                invoked := invoked w; lastCall := Some (at_, args) |}
      else None
  | Fire at_ =>
      match pending w with
      | Some (due, args) =>
          if (now w <=? at_)%N && (due <=? at_)%N then
            Some {| now := at_; pending := None;
                    invoked := (at_, args) :: invoked w;
                    lastCall := lastCall w |}
          else None
      | None => None
      end
  end.

Fixpoint runWith (step : Wrapper -> Event -> option Wrapper) (w : Wrapper)
    (events : list Event) : option Wrapper :=
  match events with
  | [] => Some w
  | e :: rest =>
      match step w e with
      | Some w' => runWith step w' rest
      | None => None
      end
  end.

(** The calls of [func] are at least [wait] apart. *)
Fixpoint spaced (wait : N) (l : list (N * A)) : Prop :=
  match l with
  | [] => True
  | (t, _) :: rest =>
      match rest with
      | [] => True
      | (t', _) :: _ => (t' + wait <= t)%N
      end /\ spaced wait rest
  end.

Definition isCall (e : Event) : bool :=
  match e with
  | Call _ _ => true
  | Fire _ => false
  end.

Definition pendingCount (w : Wrapper) : nat :=
  match pending w with
  | Some _ => 1
  | None => 0
  end.

(** What every state of a debounced closure satisfies: a pending timer
    belongs to the last call and is due [wait] after it, and [func] was
    never called later than that call was made. *)
Definition debounceInv (wait : N) (w : Wrapper) : Prop :=
  (forall due args, pending w = Some (due, args) ->
     exists t0, lastCall w = Some (t0, args) /\ due = (t0 + wait)%N
                /\ (t0 <= now w)%N
                /\ forall t' args', In (t', args') (invoked w) -> (t' <= t0)%N)
  /\ (forall t' args', In (t', args') (invoked w) -> (t' <= now w)%N)
  /\ spaced wait (invoked w).

(** What every state of a throttled closure satisfies. *)
Definition throttleInv (wait : N) (w : Wrapper) : Prop :=
  (forall due args, pending w = Some (due, args) ->
     forall t' args', In (t', args') (invoked w) -> (t' + wait <= due)%N)
  /\ (forall t' args', In (t', args') (invoked w) -> (t' <= now w)%N)
  /\ spaced wait (invoked w).

End Wrapped.

End Timers.

(** ** Vocabulary of the further statements *)

Module GridInv.

Import VideoGrid.

(** The class [empty], the source and the three [display] properties of a
    cell agree. *)
Definition wellFormed (c : VideoCell) : Prop :=
  if classEmpty c
  then vsrc (video c) = ""
       /\ videoDisplay (video c) = "none"
       /\ containerDisplay c = "none"
       /\ buttonDisplay c = "flex"
  else truthy (vsrc (video c)) = true
       /\ videoDisplay (video c) = "block"
       /\ containerDisplay c = "block"
       /\ buttonDisplay c = "none".

(** Every cell is well formed and carries its position as [data-index]. *)
Definition gridOk (g : t) : Prop :=
  forall i c, cells g !! i = Some c -> wellFormed c /\ dataIndex c = i.

(** The same, except that the source of a cell marked empty may also read
    as the URL [d] of the document: a cell emptied by a swap had the empty
    string assigned to the [src] of its video. *)
Definition wellFormedIn (d : string) (c : VideoCell) : Prop :=
  if classEmpty c
  then (vsrc (video c) = "" \/ vsrc (video c) = d)
       /\ videoDisplay (video c) = "none"
       /\ containerDisplay c = "none"
       /\ buttonDisplay c = "flex"
  else truthy (vsrc (video c)) = true
       /\ videoDisplay (video c) = "block"
       /\ containerDisplay c = "block"
       /\ buttonDisplay c = "none".

Definition gridOkIn (g : t) : Prop :=
  forall i c, cells g !! i = Some c ->
    wellFormedIn (documentURL g) c /\ dataIndex c = i.

(** A drop that swaps two cells swaps two cells that hold a video. *)
Definition swapsLoaded (target : option nat) (g : t) : Prop :=
  forall ti si source targetCell,
    target = Some ti -> dragSource g = Some si ->
    cells g !! si = Some source -> cells g !! ti = Some targetCell ->
    classEmpty source = false /\ classEmpty targetCell = false.

(** The scroll bar follows the flag [isExtended]. *)
Definition scrollOk (g : t) : Prop :=
  overflowY g = if isExtended g then "scroll" else "hidden".

(** The dropdown lists the registry. *)
Definition inSync (tm : TagManager.t) : Prop :=
  TagManager.dropdown tm = TagManager.dropdown (TagManager.updateDropdown tm).

(** No highlight of a drag is left on the grid. *)
Definition noDragClasses (g : t) : Prop :=
  forall i c, cells g !! i = Some c ->
    classDragging c = false /\ classDragover c = false.

(** Only the cell being dragged has the class [dragging]. *)
Definition onlySourceDragging (g : t) : Prop :=
  forall k c, cells g !! k = Some c -> classDragging c = true ->
              dragSource g = Some k.

(** What [getCellState] and [applyCellState] carry from one cell to
    another, together with the position of the cell. *)
Definition core (c : VideoCell) : nat * bool * Video * string * string :=
  (dataIndex c, classEmpty c, video c, containerDisplay c, buttonDisplay c).

(** What differs between two cells after [filterVideos]: nothing but the
    inline [display]. *)
Definition sameButDisplay (c c' : VideoCell) : Prop :=
  set_cellDisplay "" c' = set_cellDisplay "" c.

End GridInv.

(** * Properties *)

(** ** Lists read by position *)

Lemma lookup_map {A B : Type} (f : A -> B) (l : list A) (i : nat) :
  map f l !! i = f <$> (l !! i).
Proof.
  revert i. induction l as [|x l IH]; intros [|i]; simpl.
  - reflexivity.
  - reflexivity.
  - reflexivity.
  - apply IH.
Qed.

(** A URL that is not empty reads back as it was assigned. *)
Lemma reflectURL_truthy (documentURL s : string) :
  truthy s = true -> reflectURL documentURL s = s.
Proof.
  unfold truthy, reflectURL. by destruct (String.eqb s "").
Qed.

Lemma reflectURL_empty (documentURL : string) :
  reflectURL documentURL "" = documentURL.
Proof. reflexivity. Qed.

(** Reading [src] and assigning what was read changes nothing further. *)
Lemma reflectURL_idemp (documentURL s : string) :
  reflectURL documentURL (reflectURL documentURL s) = reflectURL documentURL s.
Proof.
  unfold reflectURL. destruct (String.eqb_spec s "") as [-> | Hs].
  - by destruct (String.eqb documentURL "").
  - by destruct (String.eqb_spec s "").
Qed.


(** ** Binary64 arithmetic *)

Module Binary64Facts.

Import Binary64.

Local Open Scope Q_scope.

Lemma pow2_pos (e : Z) : 0 < pow2 e.
Proof.
  destruct e as [|p|p]; simpl.
  - reflexivity.
  - unfold Qlt. simpl. pose proof (Pos2Z.is_pos (2 ^ p)). rewrite Pos2Z.inj_pow in H. lia.
  - reflexivity.
Qed.

Lemma pow2_le_1 (e : Z) : (e <= 0)%Z -> pow2 e <= 1.
Proof.
  destruct e as [|p|p]; intros He; simpl.
  - apply Qle_refl.
  - lia.
  - unfold Qle. simpl. lia.
Qed.

Lemma roundHalfEven_le (s : Q) : inject_Z (roundHalfEven s) <= s + (1 # 2).
Proof.
  unfold roundHalfEven.
  pose proof (Qfloor_le s) as Hlo.
  destruct (Qcompare (s - inject_Z (Qfloor s)) (1 # 2)) eqn:Hc.
  - apply Qeq_alt in Hc.
    destruct (Z.even (Qfloor s)); [lra |].
    rewrite inject_Z_plus. change (inject_Z 1) with 1. lra.
  - lra.
  - apply Qgt_alt in Hc. rewrite inject_Z_plus. change (inject_Z 1) with 1. lra.
Qed.

Lemma roundHalfEven_nonneg (s : Q) : 0 <= s -> (0 <= roundHalfEven s)%Z.
Proof.
  intros Hs. unfold roundHalfEven.
  assert (0 <= Qfloor s)%Z
    by (change 0%Z with (Qfloor 0); by apply Qfloor_resp_le).
  destruct (Qcompare _ _); [destruct (Z.even _) | |]; lia.
Qed.

Lemma roundBinary64Pos_le (x : Q) :
  inject_Z (roundHalfEven (x / pow2 (Z.max (binade x - 52) (-1074))))
  * pow2 (Z.max (binade x - 52) (-1074))
  <= x + pow2 (Z.max (binade x - 52) (-1074)) * (1 # 2).
Proof.
  set (p := pow2 _). pose proof (pow2_pos (Z.max (binade x - 52) (-1074))) as Hp.
  fold p in Hp.
  pose proof (roundHalfEven_le (x / p)) as Hr.
  assert (Hx : (x / p) * p == x) by (field; lra).
  apply (Qmult_le_compat_r _ _ p) in Hr; [| lra].
  lra.
Qed.

Lemma binade_small (x : Q) : 0 < x -> x < 256 -> (binade x <= 7)%Z.
Proof.
  intros Hpos Hx. unfold binade.
  destruct (Qle_bool 1 x) eqn:H1.
  - assert (Hf : (Qfloor x <= 255)%Z).
    { pose proof (Qfloor_le x) as Hlo.
      assert (inject_Z (Qfloor x) < inject_Z 256) as Hlt
        by (change (inject_Z 256) with 256; lra).
      rewrite <- Zlt_Qlt in Hlt. lia. }
    apply Z.log2_le_mono in Hf. exact Hf.
  - pose proof (Z.log2_up_nonneg (Qceiling (/ x))). lia.
Qed.

Lemma binade_360 (x : Q) : 256 <= x -> x < 360 -> binade x = 8%Z.
Proof.
  intros Hlo Hhi. unfold binade.
  replace (Qle_bool 1 x) with true
    by (symmetry; apply Qle_bool_iff; lra).
  apply Z.log2_unique; [lia |].
  split.
  - change (2 ^ 8)%Z with (Qfloor 256). by apply Qfloor_resp_le.
  - pose proof (Qfloor_le x) as Hf.
    assert (inject_Z (Qfloor x) < inject_Z 360) as Hlt
      by (change (inject_Z 360) with 360; lra).
    rewrite <- Zlt_Qlt in Hlt. simpl. lia.
Qed.

Lemma roundBinary64_range (r : Q) :
  0 <= r -> r <= 1 - (1 # 9007199254740992) ->
  0 <= roundBinary64 (r * 360) /\ roundBinary64 (r * 360) < 360.
Proof.
  intros Hlo Hhi. set (x := r * 360).
  assert (Hx0 : 0 <= x) by (unfold x; lra).
  assert (Hxmax : x <= 360 - (360 # 9007199254740992)) by (unfold x; lra).
  unfold roundBinary64.
  destruct (Qcompare x 0) eqn:Hc.
  - split; [apply Qle_refl | reflexivity].
  - apply Qlt_alt in Hc. lra.
  - apply Qgt_alt in Hc. unfold roundBinary64Pos.
    pose proof (roundBinary64Pos_le x) as Hle.
    pose proof (pow2_pos (Z.max (binade x - 52) (-1074))) as Hp.
    split.
    + apply Qmult_le_0_compat; [| lra].
      change 0 with (inject_Z 0). rewrite <- Zle_Qle.
      apply roundHalfEven_nonneg.
      apply Qle_shift_div_l; [exact Hp | lra].
    + destruct (Qlt_le_dec x 256) as [Hsmall | Hbig].
      * pose proof (binade_small x Hc Hsmall) as Hb.
        pose proof (pow2_le_1 (Z.max (binade x - 52) (-1074)) ltac:(lia)) as H1.
        lra.
      * rewrite (binade_360 x Hbig ltac:(lra)) in *.
        change (pow2 (Z.max (8 - 52) (-1074))) with (1 # 17592186044416) in *.
        lra.
Qed.

(** Four examples: a product that is a binary64 number stays as it is; a
    product that lies less than half a unit in the last place below an
    integer is rounded up to it, where the exact product has the integer
    below as its floor. *)
Lemma mul_examples :
  mul (1 # 2) 360 == 180
  /\ mul 0 360 == 0
  /\ Qfloor (mul (287729976193115 # 4503599627370496) 360) = 23%Z
  /\ Qfloor ((287729976193115 # 4503599627370496) * 360) = 22%Z.
Proof. vm_compute. repeat split; congruence. Qed.

End Binary64Facts.

(** ** The tag registry *)

Module TagManagerFacts.

Import TagManager.

Lemma mapGet_mapSet_eq (k v : string) (m : TagMap) :
  mapGet k (mapSet k v m) = Some v.
Proof.
  induction m as [|[k' v'] m IH]; simpl.
  - by rewrite String.eqb_refl.
  - destruct (String.eqb k k') eqn:E; simpl; rewrite E; [done | exact IH].
Qed.

Lemma mapGet_mapSet_ne (k k2 v : string) (m : TagMap) :
  k2 <> k -> mapGet k2 (mapSet k v m) = mapGet k2 m.
Proof.
  intros Hne. induction m as [|[k' v'] m IH]; simpl.
  - apply String.eqb_neq in Hne. by rewrite Hne.
  - destruct (String.eqb k k') eqn:E; simpl.
    + apply String.eqb_eq in E. subst k'.
      apply String.eqb_neq in Hne. by rewrite Hne.
    + destruct (String.eqb k2 k'); [done | exact IH].
Qed.

Lemma mapGet_mapDelete_eq (k : string) (m : TagMap) :
  mapGet k (mapDelete k m) = None.
Proof.
  induction m as [|[k' v'] m IH]; simpl; [done |].
  destruct (String.eqb k k') eqn:E; simpl; [exact IH |].
  by rewrite E.
Qed.

Lemma mapGet_mapDelete_ne (k k2 : string) (m : TagMap) :
  k2 <> k -> mapGet k2 (mapDelete k m) = mapGet k2 m.
Proof.
  intros Hne. induction m as [|[k' v'] m IH]; simpl; [done |].
  destruct (String.eqb k k') eqn:E; simpl.
  - apply String.eqb_eq in E. subst k'.
    apply String.eqb_neq in Hne. by rewrite Hne.
  - destruct (String.eqb k2 k'); [done | exact IH].
Qed.

Lemma mapHas_true (k : string) (m : TagMap) :
  mapHas k m = true <-> is_Some (mapGet k m).
Proof.
  unfold mapHas. destruct (mapGet k m) as [v|]; split; intros H.
  - by exists v.
  - reflexivity.
  - discriminate H.
  - by destruct H.
Qed.

Lemma tags_updateDropdown (tm : t) : tags (updateDropdown tm) = tags tm.
Proof. done. Qed.

(** [addTag] on a tag that is already registered. *)
Lemma addTag_existing (tag : string) (tm : t) (rng : Rng) :
  mapHas tag (tags tm) = true ->
  addTag tag tm rng = (mapGet tag (tags tm), tm, rng).
Proof. intros H. unfold addTag. by rewrite H. Qed.

(** [addTag] on a new tag. *)
Lemma addTag_fresh (tag : string) (tm : t) (rng : Rng) :
  mapHas tag (tags tm) = false ->
  addTag tag tm rng =
    (Some (pastel (draws rng (drawn rng))),
     updateDropdown {| tags := mapSet tag (pastel (draws rng (drawn rng))) (tags tm);
                       dropdown := dropdown tm |},
     snd (Math_random rng)).
Proof.
  intros H. unfold addTag, generatePastelColor, Math_random. rewrite H. simpl.
  by rewrite mapGet_mapSet_eq.
Qed.

(** Whatever the state, the tag is registered once [addTag] has run. *)
Lemma addTag_registers (tag : string) (tm : t) (rng : Rng) :
  mapHas tag (tags (addTag tag tm rng).1.2) = true
  /\ mapGet tag (tags (addTag tag tm rng).1.2) = (addTag tag tm rng).1.1.
Proof.
  destruct (mapHas tag (tags tm)) eqn:H.
  - rewrite addTag_existing by done. simpl. done.
  - rewrite addTag_fresh by done. simpl.
    unfold mapHas. by rewrite mapGet_mapSet_eq.
Qed.

(** C6.  [addTag] is create-or-get and idempotent: on a tag that is already
    in the registry it returns the stored color and changes nothing (neither
    the registry, nor the dropdown, nor the random draws), and for every tag
    a second call returns the color of the first and leaves the state the
    first call produced. *)
Theorem addTag_idempotent (tag : string) (tm : t) (rng : Rng) :
  (mapHas tag (tags tm) = true ->
   is_Some (mapGet tag (tags tm))
   /\ addTag tag tm rng = (mapGet tag (tags tm), tm, rng))
  /\ (let '(color, tm1, rng1) := addTag tag tm rng in
      is_Some color /\ addTag tag tm1 rng1 = (color, tm1, rng1)).
Proof.
  split.
  - intros H. split; [by apply mapHas_true | by apply addTag_existing].
  - destruct (addTag tag tm rng) as [[color tm1] rng1] eqn:E.
    pose proof (addTag_registers tag tm rng) as [Hhas Hget].
    rewrite E in Hhas, Hget. simpl in Hhas, Hget.
    split.
    + rewrite <- Hget. by apply mapHas_true.
    + rewrite addTag_existing by done. by rewrite Hget.
Qed.

Lemma addTag_idempotent_witness :
  let tm := (addTag "a" new (Sample.rngConst 0)).1.2 in
  mapHas "a" (tags tm) = true
  /\ addTag "a" tm (Sample.rngConst 0)
     = (Some "hsl(0, 70%, 80%)", tm, Sample.rngConst 0).
Proof.
  split; [reflexivity |].
  destruct (addTag_idempotent "a"
              (addTag "a" new (Sample.rngConst 0)).1.2 (Sample.rngConst 0))
    as [Hget _].
  exact (proj2 (Hget eq_refl)).
Defined.

(** C9, as the specification has it, fails: from the same registry and for
    the same tag name, two runs whose random draws differ assign different
    colors. *)
Lemma addTag_color_not_deterministic :
  ~ (forall (tag : string) (tm : t) (rng1 rng2 : Rng),
       (addTag tag tm rng1).1.1 = (addTag tag tm rng2).1.1).
Proof.
  intros H.
  specialize (H "a" new (Sample.rngConst 0) (Sample.rngConst (1 # 2))).
  vm_compute in H. discriminate H.
Qed.

(** C9, amended.  The color [addTag] returns is a function of the tag name,
    the registry and the next value of [Math.random]: for a registered tag
    it is the stored color whatever the draws are; for a new tag it is the
    pastel color of the hue [floor (r * 360)], [r] the next draw and the
    product that of binary64 numbers (the exact product rounded to the
    nearest binary64 number), so two runs from the same registry agree when
    their draws agree. *)
Theorem addTag_color_determined_by_draw (tag : string) (tm : t) (rng1 rng2 : Rng) :
  (mapHas tag (tags tm) = true ->
   (addTag tag tm rng1).1.1 = mapGet tag (tags tm)
   /\ (addTag tag tm rng2).1.1 = (addTag tag tm rng1).1.1)
  /\ (mapHas tag (tags tm) = false ->
      (addTag tag tm rng1).1.1 = Some (pastel (draws rng1 (drawn rng1)))
      /\ (draws rng2 (drawn rng2) = draws rng1 (drawn rng1) ->
          (addTag tag tm rng2).1.1 = (addTag tag tm rng1).1.1)
      /\ (addTag tag tm rng1).1.1
         = Some ("hsl("
                 ++ showZ (Qfloor (Binary64.roundBinary64
                                     (draws rng1 (drawn rng1) * 360)))
                 ++ ", 70%, 80%)")).
Proof.
  split; intros H.
  - by rewrite !addTag_existing.
  - rewrite !addTag_fresh by done. simpl. split; [done |].
    split; [by intros -> | done].
Qed.

Lemma addTag_color_determined_by_draw_witness :
  (addTag "a" new (Sample.rngConst (1 # 2))).1.1 = Some "hsl(180, 70%, 80%)"
  /\ (addTag "a" (addTag "a" new (Sample.rngConst 0)).1.2 (Sample.rngConst (1 # 2))).1.1
     = Some "hsl(0, 70%, 80%)".
Proof.
  split.
  - destruct (addTag_color_determined_by_draw "a" new
                (Sample.rngConst (1 # 2)) (Sample.rngConst (1 # 2)))
      as [_ Hfresh].
    exact (proj1 (Hfresh eq_refl)).
  - destruct (addTag_color_determined_by_draw "a"
                (addTag "a" new (Sample.rngConst 0)).1.2
                (Sample.rngConst (1 # 2)) (Sample.rngConst (1 # 2)))
      as [Hstored _].
    exact (proj1 (Hstored eq_refl)).
Defined.

Lemma hasDataTag_true (v : string) (c : VideoCell) :
  hasDataTag v c = true <-> dataTag c = Some v.
Proof.
  unfold hasDataTag. destruct (dataTag c) as [s|].
  - rewrite String.eqb_eq. split; [by intros -> | by intros [= ->]].
  - split; discriminate.
Qed.

(** C7.  After [filterVideos(t)] a cell is visible exactly when [t] is
    ['all'] or the cell's [data-tag] is [t]; the tags themselves are not
    touched, and with ['all'] every cell is visible. *)
Theorem filterVideos_visible_iff (tag : string) (cells : list VideoCell)
    (i : nat) (c : VideoCell) :
  cells !! i = Some c ->
  exists c',
    filterVideos tag cells !! i = Some c'
    /\ dataTag c' = dataTag c
    /\ (visible c' = true <-> tag = "all" \/ dataTag c = Some tag)
    /\ (tag = "all" -> visible c' = true).
Proof.
  intros Hc. unfold filterVideos. rewrite lookup_map, Hc. simpl.
  eexists. split; [reflexivity |].
  destruct (String.eqb tag "all") eqn:Hall; simpl.
  - apply String.eqb_eq in Hall.
    split; [reflexivity |]. split; [| reflexivity].
    split; [by left | reflexivity].
  - apply String.eqb_neq in Hall.
    destruct (hasDataTag tag c) eqn:Htag; simpl.
    + apply hasDataTag_true in Htag.
      split; [reflexivity |]. split; [| reflexivity].
      split; [by right | reflexivity].
    + split; [reflexivity |]. split; [| by intros ?].
      split; [discriminate |].
      intros [Ht | Ht]; [by destruct Hall |].
      apply hasDataTag_true in Ht. congruence.
Qed.

Lemma filterVideos_visible_iff_witness :
  exists c',
    filterVideos "a" (VideoGrid.cells Sample.oneTagged) !! 0 = Some c'
    /\ dataTag c' = Some "a"
    /\ (visible c' = true <-> "a" = "all" \/ Some "a" = Some "a")
    /\ ("a" = "all" -> visible c' = true).
Proof.
  exact (filterVideos_visible_iff "a" (VideoGrid.cells Sample.oneTagged) 0 _ eq_refl).
Defined.

Lemma visible_set_dataTag (t : option string) (c : VideoCell) :
  visible (set_dataTag t c) = visible c.
Proof. done. Qed.

(** Whatever cells the selector of [deleteTag] matches, stripping them
    changes no cell's visibility. *)
Lemma stripMatching_visible (matches : VideoCell -> bool) (cells : list VideoCell) :
  map visible (stripMatching matches cells) = map visible cells.
Proof.
  unfold stripMatching. rewrite map_map. apply map_ext. intros c.
  by destruct (matches c).
Qed.

(** [deleteTag] never changes which cells are visible. *)
Lemma deleteTag_visible (tag : string) (tm tm' : t) (cells cells' : list VideoCell)
    (k : Completion) :
  deleteTag tag tm cells = Some (k, tm', cells') ->
  map visible cells' = map visible cells.
Proof.
  unfold deleteTag. destruct (readDataTagSelector tag); intros [= <- <- <-].
  - apply stripMatching_visible.
  - done.
Qed.

(** What [filterVideos] does to one cell. *)
Lemma filterVideos_lookup (tag : string) (cells : list VideoCell) (i : nat)
    (c : VideoCell) :
  cells !! i = Some c ->
  exists c',
    filterVideos tag cells !! i = Some c'
    /\ (visible c' = true <-> tag = "all" \/ dataTag c = Some tag).
Proof.
  intros Hc. unfold filterVideos. rewrite lookup_map, Hc. simpl.
  eexists. split; [reflexivity |].
  destruct (String.eqb tag "all") eqn:Hall; simpl.
  - apply String.eqb_eq in Hall. split; [by left | reflexivity].
  - apply String.eqb_neq in Hall.
    destruct (hasDataTag tag c) eqn:Htag; simpl.
    + apply hasDataTag_true in Htag. split; [by right | reflexivity].
    + split; [discriminate |].
      intros [Ht | Ht]; [by destruct Hall |].
      apply hasDataTag_true in Ht. congruence.
Qed.

(** [applyTag] and [addTagToCell] work on the tag attribute and the badge,
    not on the display of the cell. *)
Lemma applyTag_visible (tm : t) (tag : string) (c : VideoCell) :
  visible (applyTag tm tag c).2 = visible c.
Proof. unfold applyTag. simpl. by destruct (tagDisplay c). Qed.

Lemma addTagToCell_visible (c : VideoCell) :
  visible (addTagToCell c) = visible c.
Proof. unfold addTagToCell. by destruct (tagDisplay c). Qed.

(** A method other than [filterVideos], called by name, changes no cell's
    visibility. *)
Lemma callThis_visible (method arg : string) (tm tm' : t)
    (cells cells' : list VideoCell) (rng rng' : Rng) (k : Completion) :
  method <> "filterVideos" ->
  callThis method arg tm cells rng = Some (k, tm', cells', rng') ->
  map visible cells' = map visible cells.
Proof.
  intros Hm. unfold callThis.
  destruct (negb (hasMethod method)); [by intros [= <- <- <- <-] |].
  destruct (String.eqb_spec method "filterVideos") as [|_]; [done |].
  destruct (String.eqb method "addTag").
  - destruct (addTag arg tm rng) as [[c tm1] rng1]. by intros [= <- <- <- <-].
  - destruct (String.eqb method "deleteTag"); [| done].
    destruct (deleteTag arg tm cells) as [[[k1 tm1] cells1]|] eqn:E; [| done].
    intros [= <- <- <- <-]. by eapply deleteTag_visible.
Qed.

(** Every option of the dropdown carries the handler that calls
    [filterByTag]. *)
Lemma dropdown_handlers (tm : t) (o : DropdownOption) :
  In o (dropdown (updateDropdown tm)) ->
  onClick o = CallThis "filterByTag" (optionText o).
Proof.
  unfold updateDropdown. simpl. rewrite in_map_iff.
  intros [[name color] [<- _]]. done.
Qed.

(** C10.  A click on any option of the filter dropdown calls
    [this.filterByTag], which is no method of the class: the handler throws
    a [TypeError] and leaves the registry and every cell, its visibility
    included, as they were.  Filtering takes effect through [filterVideos]
    itself: called directly, or by its name, it leaves a cell visible
    exactly when the tag is the sentinel or the tag of the cell.  And through
    nothing else: no other method called by name changes a cell's
    visibility, [deleteTag] does not, whatever cells its selector matches,
    and neither do [applyTag] and [addTagToCell]. *)
Theorem clickOption_throws_TypeError (tm : t) (cells : list VideoCell) (rng : Rng)
    (o : DropdownOption) :
  In o (dropdown (updateDropdown tm)) ->
  hasMethod "filterByTag" = false
  /\ clickOption o tm cells rng =
       Some (Throw (TypeError "this.filterByTag is not a function"),
             tm, cells, rng)
  /\ (forall tag,
        callThis "filterVideos" tag tm cells rng =
          Some (Normal, tm, filterVideos tag cells, rng))
  /\ (forall tag i c, cells !! i = Some c ->
        exists c',
          filterVideos tag cells !! i = Some c'
          /\ (visible c' = true <-> tag = "all" \/ dataTag c = Some tag))
  /\ (forall method arg k tm' cells' rng',
        method <> "filterVideos" ->
        callThis method arg tm cells rng = Some (k, tm', cells', rng') ->
        map visible cells' = map visible cells)
  /\ (forall tag k tm' cells',
        deleteTag tag tm cells = Some (k, tm', cells') ->
        map visible cells' = map visible cells)
  /\ (forall matches,
        map visible (stripMatching matches cells) = map visible cells)
  /\ (forall tag c, visible (applyTag tm tag c).2 = visible c)
  /\ (forall c, visible (addTagToCell c) = visible c).
Proof.
  intros Ho. split; [reflexivity |].
  split; [unfold clickOption; by rewrite (dropdown_handlers tm o Ho) |].
  split; [done |].
  split; [intros tag i c; apply filterVideos_lookup |].
  split; [intros method arg k tm' cells' rng'; apply callThis_visible |].
  split; [intros tag k tm' cells'; apply deleteTag_visible |].
  split; [intros matches; apply stripMatching_visible |].
  split; [intros tag c; apply applyTag_visible | apply addTagToCell_visible].
Qed.

Lemma clickOption_throws_TypeError_witness :
  clickOption
    {| colorMark := "hsl(10, 70%, 80%)"; optionText := "a";
       onClick := CallThis "filterByTag" "a" |}
    (VideoGrid.tagManager Sample.oneTagged)
    (VideoGrid.cells Sample.oneTagged) (Sample.rngConst 0)
  = Some (Throw (TypeError "this.filterByTag is not a function"),
          VideoGrid.tagManager Sample.oneTagged,
          VideoGrid.cells Sample.oneTagged, Sample.rngConst 0).
Proof.
  refine (proj1 (proj2 (clickOption_throws_TypeError
            (VideoGrid.tagManager Sample.oneTagged)
            (VideoGrid.cells Sample.oneTagged) (Sample.rngConst 0) _ _))).
  simpl. left. reflexivity.
Defined.

Lemma scanPlain_plain (tag : string) :
  plain tag = true -> scanPlain tag = (tag, None).
Proof.
  induction tag as [|a r IH]; simpl; [done |].
  intros [Ha Hr]%andb_true_iff.
  apply negb_true_iff in Ha. rewrite Ha, (IH Hr). done.
Qed.

Lemma readDataTagSelector_plain (tag : string) :
  plain tag = true -> readDataTagSelector tag = AttrEquals tag.
Proof.
  intros H. unfold readDataTagSelector. by rewrite (scanPlain_plain tag H).
Qed.

(** What C5 asks of [deleteTag] holds for every tag without a double quote,
    a backslash, a line break or a null character: the tag leaves the
    registry, every other entry stays, the cells carrying the tag lose the
    attribute and the badge, and every other cell is left as it was. *)
Lemma deleteTag_plain_tag (tag : string) (tm : t) (cells : list VideoCell) :
  plain tag = true ->
  exists tm' cells',
    deleteTag tag tm cells = Some (Normal, tm', cells')
    /\ mapGet tag (tags tm') = None
    /\ (forall other, other <> tag -> mapGet other (tags tm') = mapGet other (tags tm))
    /\ length cells' = length cells
    /\ (forall i c, cells !! i = Some c ->
          cells' !! i =
            Some (if decide (dataTag c = Some tag)
                  then set_tagDisplay None (set_dataTag None c) else c)).
Proof.
  intros Hplain. unfold deleteTag.
  rewrite (readDataTagSelector_plain tag Hplain).
  eexists _, _. split; [reflexivity |]. simpl.
  split; [apply mapGet_mapDelete_eq |].
  split; [intros other Hne; by apply mapGet_mapDelete_ne |].
  unfold stripMatching.
  split; [apply length_map |].
  intros i c Hc. rewrite lookup_map, Hc. simpl. f_equal.
  destruct (hasDataTag tag c) eqn:E.
  - apply hasDataTag_true in E. by rewrite decide_True.
  - rewrite decide_False; [done |].
    intros Ht. apply hasDataTag_true in Ht. congruence.
Qed.

(** C5 at a tag with a double quote in it (the letter a, a double quote,
    the letter b; registered and applied to the first cell): the tag leaves
    the registry, then the selector built from it is refused, [deleteTag]
    ends with a [SyntaxError], and the cell keeps its [data-tag] and its
    badge. *)
Theorem deleteTag_quoted_tag_keeps_cell :
  plain Sample.quotedTag = false
  /\ mapGet Sample.quotedTag (tags (VideoGrid.tagManager Sample.oneQuoted))
     = Some "hsl(10, 70%, 80%)"
  /\ deleteTag Sample.quotedTag (VideoGrid.tagManager Sample.oneQuoted)
       (VideoGrid.cells Sample.oneQuoted)
     = Some (Throw (SyntaxError "not a valid selector"),
             TagManager.new, VideoGrid.cells Sample.oneQuoted)
  /\ (dataTag <$> VideoGrid.cells Sample.oneQuoted !! 0) = Some (Some Sample.quotedTag)
  /\ (tagDisplay <$> VideoGrid.cells Sample.oneQuoted !! 0)
     = Some (Some {| textContent := Sample.quotedTag;
                     backgroundColor := "hsl(10, 70%, 80%)";
                     addMode := false |}).
Proof. repeat split; vm_compute; reflexivity. Qed.

End TagManagerFacts.

(** ** Rounding up to full rows *)

Section CeilDiv.

Variables (n c : nat).
Hypothesis c_pos : 0 < c.

Lemma ceilDiv_pos_eq : ceilDiv n c = (n + c - 1) / c.
Proof.
  unfold ceilDiv. destruct (Nat.eqb_spec c 0); [lia | done].
Qed.

(** The rows hold [n] cells... *)
Lemma ceilDiv_enough : n <= ceilDiv n c * c.
Proof.
  rewrite ceilDiv_pos_eq.
  pose proof (Nat.div_mod (n + c - 1) c ltac:(lia)) as Hdm.
  pose proof (Nat.mod_upper_bound (n + c - 1) c ltac:(lia)) as Hlt.
  nia.
Qed.

(** ...and no row is spare. *)
Lemma ceilDiv_tight : ceilDiv n c * c < n + c.
Proof.
  rewrite ceilDiv_pos_eq.
  pose proof (Nat.div_mod (n + c - 1) c ltac:(lia)) as Hdm.
  nia.
Qed.

Lemma ceilDiv_least (k : nat) : n <= k * c -> ceilDiv n c <= k.
Proof.
  intros Hk. pose proof ceilDiv_tight as Ht.
  destruct (Nat.le_gt_cases (ceilDiv n c) k) as [|Hgt]; [done |].
  assert ((k + 1) * c <= ceilDiv n c * c) by (apply Nat.mul_le_mono_r; lia).
  lia.
Qed.

End CeilDiv.

(** ** The grid controller *)

Module VideoGridFacts.

Import VideoGrid Batch.

Lemma sameShape_refl (g : t) : sameShape g g.
Proof. by repeat split. Qed.

Lemma sameShape_trans (g1 g2 g3 : t) :
  sameShape g1 g2 -> sameShape g2 g3 -> sameShape g1 g3.
Proof.
  intros (?&?&?&?&?&?) (?&?&?&?&?&?). repeat split; congruence.
Qed.

Lemma addVideoToCell_shape (cfg : Config) (cell : nat) (file : File) (g : t) :
  sameShape g (addVideoToCell cfg cell file g).2.
Proof.
  unfold addVideoToCell.
  destruct (negb (includes (ftype file) safeVideoTypes)); [apply sameShape_refl |].
  destruct (negb (includes (ftype file) (supportedFormats cfg)));
    [by repeat split |].
  destruct (MAX_FILE_SIZE <? fsize file)%N; [by repeat split |].
  simpl. repeat split; simpl; try done. apply length_alter.
Qed.

Lemma addEachFile_shape (cfg : Config) (empties : list nat) (files : list File) :
  forall (idx : Z) (g : t), sameShape g (addEachFile cfg empties files idx g).2.
Proof.
  induction files as [|file rest IH]; intros idx g; simpl;
    [apply sameShape_refl |].
  destruct (String.prefix "video/" (ftype file)); [| apply IH].
  destruct ((0 <=? idx)%Z && (idx <? Z.of_nat (length empties))%Z); [| apply IH].
  destruct (empties !! Z.to_nat idx) as [cell|]; [| apply IH].
  pose proof (addVideoToCell_shape cfg cell file g) as Hs.
  destruct (addVideoToCell cfg cell file g) as [[|e] g']; simpl in Hs.
  - eapply sameShape_trans; [exact Hs | apply IH].
  - exact Hs.
Qed.

Lemma addVideoToCell_documentURL (cfg : Config) (cell : nat) (file : File) (g : t) :
  documentURL (addVideoToCell cfg cell file g).2 = documentURL g.
Proof.
  unfold addVideoToCell.
  destruct (negb (includes (ftype file) safeVideoTypes)); [done |].
  destruct (negb (includes (ftype file) (supportedFormats cfg))); [done |].
  by destruct (MAX_FILE_SIZE <? fsize file)%N.
Qed.

Lemma addEachFile_documentURL (cfg : Config) (empties : list nat) (files : list File) :
  forall (idx : Z) (g : t),
    documentURL (addEachFile cfg empties files idx g).2 = documentURL g.
Proof.
  induction files as [|file rest IH]; intros idx g; simpl; [done |].
  destruct (String.prefix "video/" (ftype file)); [| apply IH].
  destruct ((0 <=? idx)%Z && (idx <? Z.of_nat (length empties))%Z); [| apply IH].
  destruct (empties !! Z.to_nat idx) as [cell|]; [| apply IH].
  pose proof (addVideoToCell_documentURL cfg cell file g) as Hd.
  destruct (addVideoToCell cfg cell file g) as [[|e] g']; simpl in Hd.
  - by rewrite IH.
  - exact Hd.
Qed.

Lemma addMultipleVideos_documentURL (cfg : Config) (files : list File)
    (startCell : nat) (g : t) :
  documentURL (addMultipleVideos cfg files startCell g).2 = documentURL g.
Proof.
  unfold addMultipleVideos.
  destruct (_ <? _)%Z; by rewrite addEachFile_documentURL.
Qed.

(** C4, as the specification has it, fails.  Five files dropped on the first
    cell of the empty 2x2 grid are more than its four empty cells; all five
    are loaded, the smallest multiple of the two columns that holds them is
    six, and the grid ends with ten cells. *)
Lemma addMultipleVideos_not_smallest_multiple :
  let files := replicate 5 Sample.mp4 in
  let r := addMultipleVideos Sample.config files 0 Sample.emptyGrid in
  length (emptyCells Sample.emptyGrid) < length files
  /\ r.1 = Normal
  /\ filledCells r.2 = 5
  /\ columns (layoutConfigOf Sample.config r.2) = 2
  /\ ceilDiv 5 2 * 2 = 6
  /\ length (cells r.2) = 10.
Proof. vm_compute. repeat split; lia. Qed.

(** C4, amended.  When the position of the start cell among the empty cells
    plus the number [n] of files exceeds the number of empty cells, the grid
    grows by [ceil (n / columns)] full rows: the cell count afterwards is
    the count before plus the smallest multiple of the column count that is
    at least [n].  It is a multiple of the column count when the count
    before was one.  Otherwise the cell count stays. *)
Theorem addMultipleVideos_grows_full_rows (cfg : Config) (files : list File)
    (startCell : nat) (g : t) :
  let cols := columns (layoutConfigOf cfg g) in
  let n := length files in
  let g' := (addMultipleVideos cfg files startCell g).2 in
  0 < cols ->
  ((Z.of_nat (length (emptyCells g))
      < indexOf startCell (emptyCells g) + Z.of_nat n)%Z ->
   length (cells g') = length (cells g) + ceilDiv n cols * cols
   /\ n <= ceilDiv n cols * cols
   /\ (forall rows, n <= rows * cols -> ceilDiv n cols <= rows)
   /\ (Nat.divide cols (length (cells g)) -> Nat.divide cols (length (cells g')))
   /\ isExtended g' = true)
  /\ ((indexOf startCell (emptyCells g) + Z.of_nat n
         <= Z.of_nat (length (emptyCells g)))%Z ->
      length (cells g') = length (cells g)).
Proof.
  intros cols n g' Hcols. subst g'. unfold addMultipleVideos.
  split; intros Hcmp.
  - apply Z.ltb_lt in Hcmp. fold n. rewrite Hcmp.
    match goal with
    | |- context [addEachFile cfg ?es files ?i ?g1] =>
        pose proof (addEachFile_shape cfg es files i g1) as (Hlen&_&_&Hext&_)
    end.
    rewrite Hlen, Hext. simpl. rewrite length_app, length_map, length_seq.
    fold cols. fold n.
    split; [done |].
    split; [by apply ceilDiv_enough |].
    split; [intros rows; by apply ceilDiv_least |].
    split; [| done].
    intros Hdiv. apply Nat.divide_add_r; [done |].
    apply Nat.divide_factor_r.
  - apply Z.ltb_ge in Hcmp. fold n. rewrite Hcmp.
    apply addEachFile_shape.
Qed.

Lemma addMultipleVideos_grows_full_rows_witness :
  length (cells (addMultipleVideos Sample.config (replicate 5 Sample.mp4) 0
                   Sample.emptyGrid).2)
  = 4 + ceilDiv 5 2 * 2.
Proof.
  refine (proj1 (proj1 (addMultipleVideos_grows_full_rows Sample.config
                          (replicate 5 Sample.mp4) 0 Sample.emptyGrid _) _)).
  - vm_compute. lia.
  - vm_compute. reflexivity.
Defined.

(** *** The empty cells of a grid *)

Lemma emptyCellsFrom_bounds (cs : list VideoCell) :
  forall (i k : nat), In k (emptyCellsFrom i cs) ->
    i <= k /\ exists c, cs !! (k - i) = Some c /\ classEmpty c = true.
Proof.
  induction cs as [|c cs IH]; intros i k Hin; simpl in Hin; [done |].
  assert (Htail : In k (emptyCellsFrom (S i) cs) ->
                  i <= k /\ exists c', (c :: cs) !! (k - i) = Some c'
                                       /\ classEmpty c' = true).
  { intros H. destruct (IH _ _ H) as [Hle (c' & Hc' & He)].
    split; [lia |]. exists c'. split; [| done].
    replace (k - i) with (S (k - S i)) by lia. exact Hc'. }
  destruct (classEmpty c) eqn:Hc; [| by apply Htail].
  destruct Hin as [<- | Hin]; [| by apply Htail].
  split; [lia |]. exists c. by rewrite Nat.sub_diag.
Qed.

Lemma emptyCellsFrom_NoDup (cs : list VideoCell) :
  forall i, NoDup (emptyCellsFrom i cs).
Proof.
  induction cs as [|c cs IH]; intros i; simpl; [constructor |].
  destruct (classEmpty c); [| apply IH].
  constructor; [| apply IH].
  rewrite list_elem_of_In. intros Hin.
  apply emptyCellsFrom_bounds in Hin. lia.
Qed.

Lemma emptyCellsFrom_app (cs1 cs2 : list VideoCell) :
  forall i, emptyCellsFrom i (cs1 ++ cs2)
            = (emptyCellsFrom i cs1 ++ emptyCellsFrom (i + length cs1) cs2)%list.
Proof.
  induction cs1 as [|c cs1 IH]; intros i; simpl.
  - by rewrite Nat.add_0_r.
  - rewrite IH. replace (S i + length cs1) with (i + S (length cs1)) by lia.
    by destruct (classEmpty c).
Qed.

Lemma emptyCellsFrom_fresh (start len : nat) :
  forall i, length (emptyCellsFrom i (map createVideoCell (seq start len))) = len.
Proof.
  revert start. induction len as [|len IH]; intros start i; simpl; [done |].
  by rewrite IH.
Qed.

Lemma emptyCells_lookup (g : t) (k cell : nat) :
  emptyCells g !! k = Some cell -> is_Some (cells g !! cell).
Proof.
  intros Hk. apply list_elem_of_lookup_2, list_elem_of_In in Hk.
  destruct (emptyCellsFrom_bounds _ _ _ Hk) as [_ (c & Hc & _)].
  rewrite Nat.sub_0_r in Hc. by exists c.
Qed.

Lemma indexOfFrom_range (x : nat) (l : list nat) :
  forall i : Z,
    indexOfFrom x l i = (-1)%Z
    \/ (i <= indexOfFrom x l i < i + Z.of_nat (length l))%Z.
Proof.
  induction l as [|y l IH]; intros i; simpl; [by left |].
  destruct (Nat.eqb x y); [right; lia |].
  destruct (IH (i + 1)%Z) as [-> | H]; [by left | right; lia].
Qed.

Lemma indexOf_range (x : nat) (l : list nat) :
  (0 <= indexOf x l)%Z -> (indexOf x l < Z.of_nat (length l))%Z.
Proof.
  intros H. unfold indexOf in *.
  destruct (indexOfFrom_range x l 0) as [E | E]; lia.
Qed.

(** *** Loading a batch *)

Lemma offList_false_onList (f : File) :
  isVideo f = true -> offList f = false ->
  includes (ftype f) safeVideoTypes = true.
Proof.
  unfold offList. intros -> H. simpl in H. by apply negb_false_iff in H.
Qed.

Lemma rejection_valid (cfg : Config) (f : File) :
  valid cfg f = true -> rejection cfg f = None.
Proof.
  unfold valid, rejection.
  intros [[[-> _]%andb_true_iff ->]%andb_true_iff Hs%negb_true_iff]%andb_true_iff.
  simpl. by rewrite Hs.
Qed.

(** One call of [addVideoToCell] on a file whose type is on the white
    list: it returns normally; a valid file is loaded into the cell under
    a new object URL, any other file is reported and the cell left alone. *)
Lemma addVideoToCell_onList (cfg : Config) (cell : nat) (f : File) (g : t) :
  isVideo f = true ->
  includes (ftype f) safeVideoTypes = true ->
  exists g',
    addVideoToCell cfg cell f g = (Normal, g')
    /\ shownErrors g' = (shownErrors g ++ option_list (rejection cfg f))%list
    /\ (if valid cfg f
        then cells g' = alter (loadIntoCell (documentURL g)
                                 ("blob:" ++ showNat (objectURLs g)))
                              cell (cells g)
             /\ objectURLs g' = S (objectURLs g)
        else cells g' = cells g /\ objectURLs g' = objectURLs g).
Proof.
  intros Hv Hsafe. unfold addVideoToCell, valid, rejection.
  rewrite Hv, Hsafe. simpl.
  destruct (includes (ftype f) (supportedFormats cfg)); simpl.
  - destruct (MAX_FILE_SIZE <? fsize f)%N; simpl.
    + eexists. split; [reflexivity |]. simpl. done.
    + eexists. split; [reflexivity |]. simpl.
      split; [by rewrite app_nil_r | done].
  - eexists. split; [reflexivity |]. simpl. done.
Qed.

Lemma urlOf_skip (cfg : Config) (base : nat) (f : File) (rest : list File) (j : nat) :
  urlOf cfg base (f :: rest) (S j)
  = urlOf cfg (if valid cfg f then S base else base) rest j.
Proof.
  unfold urlOf. simpl take.
  destruct (valid cfg f) eqn:Hf.
  - rewrite filter_cons_True by done. simpl. do 2 f_equal. lia.
  - rewrite filter_cons_False by (by rewrite Hf). done.
Qed.

Lemma addEachFile_loads (cfg : Config) (empties : list nat) :
  NoDup empties ->
  forall (files : list File) (n : nat) (g : t),
    (forall f, In f files -> offList f = false) ->
    n + length (filter (fun f => isVideo f = true) files) <= length empties ->
    (forall k cell, empties !! k = Some cell -> is_Some (cells g !! cell)) ->
    (addEachFile cfg empties files (Z.of_nat n) g).1 = Normal
    /\ shownErrors (addEachFile cfg empties files (Z.of_nat n) g).2
       = (shownErrors g ++ omap (rejection cfg) files)%list
    /\ (forall cell,
          (forall k, n <= k -> empties !! k <> Some cell) ->
          cells (addEachFile cfg empties files (Z.of_nat n) g).2 !! cell
          = cells g !! cell)
    /\ (forall j f,
          files !! j = Some f -> valid cfg f = true ->
          exists cell c,
            cells (addEachFile cfg empties files (Z.of_nat n) g).2 !! cell = Some c
            /\ classEmpty c = false
            /\ vsrc (video c) = urlOf cfg (objectURLs g) files j).
Proof.
  intros Hnd. induction files as [|file rest IH]; intros n g Hoff Hroom Hcells.
  { simpl. split; [done |]. split; [by rewrite app_nil_r |].
    split; [done |]. intros j f Hj. by destruct j. }
  assert (Hoff' : forall f, In f rest -> offList f = false)
    by (intros f Hf; apply Hoff; by right).
  simpl addEachFile. change (String.prefix "video/" (ftype file)) with (isVideo file).
  destruct (isVideo file) eqn:Hv.
  - (* the file reaches addVideoToCell *)
    rewrite filter_cons_True in Hroom by done. simpl in Hroom.
    assert (Hn : n < length empties) by lia.
    replace ((0 <=? Z.of_nat n)%Z && (Z.of_nat n <? Z.of_nat (length empties))%Z)
      with true
      by (symmetry; apply andb_true_iff; split;
          [apply Z.leb_le | apply Z.ltb_lt]; lia).
    rewrite Nat2Z.id.
    destruct (lookup_lt_is_Some_2 empties n Hn) as [cell Hcell].
    rewrite Hcell.
    pose proof (offList_false_onList file Hv (Hoff file (or_introl eq_refl))) as Hsafe.
    destruct (addVideoToCell_onList cfg cell file g Hv Hsafe)
      as (g' & -> & Herr & Hload).
    replace (Z.of_nat n + 1)%Z with (Z.of_nat (S n)) by lia.
    assert (Hlen : length (cells g') = length (cells g)).
    { destruct (valid cfg file); destruct Hload as [-> _];
        [apply length_alter | done]. }
    assert (Hcells' : forall k c', empties !! k = Some c' -> is_Some (cells g' !! c')).
    { intros k c' Hk. apply lookup_lt_is_Some. rewrite Hlen.
      apply lookup_lt_is_Some. by eapply Hcells. }
    assert (Hother : forall c', c' <> cell -> cells g' !! c' = cells g !! c').
    { intros c' Hne. destruct (valid cfg file); destruct Hload as [-> _];
        [by apply list_lookup_alter_ne | done]. }
    assert (Hlater : forall k, S n <= k -> empties !! k <> Some cell).
    { intros k Hk Hk'. pose proof (NoDup_lookup _ _ _ _ Hnd Hcell Hk'). lia. }
    destruct (IH (S n) g' Hoff' ltac:(lia) Hcells') as (Hk & Hmsg & Hframe & Hloaded).
    split; [exact Hk |].
    split.
    { rewrite Hmsg, Herr. simpl omap.
      destruct (rejection cfg file); simpl; by rewrite <- app_assoc. }
    split.
    { intros c' Hc'. rewrite Hframe by (intros k Hle; apply Hc'; lia).
      apply Hother. intros ->. by apply (Hc' n). }
    intros [|j] f Hj Hvalid.
    + injection Hj as <-. rewrite Hvalid in Hload. destruct Hload as [Hcs _].
      destruct (Hcells n cell Hcell) as [c0 Hc0].
      exists cell, (loadIntoCell (documentURL g)
                      ("blob:" ++ showNat (objectURLs g)) c0).
      rewrite (Hframe cell Hlater), Hcs, list_lookup_alter_eq, Hc0.
      split; [done |]. split; [done |].
      unfold urlOf. simpl. by rewrite Nat.add_0_r.
    + destruct (Hloaded j f Hj Hvalid) as (c' & c & Hc & He & Hsrc).
      exists c', c. split; [done |]. split; [done |].
      rewrite Hsrc, urlOf_skip.
      destruct (valid cfg file); by destruct Hload as [_ ->].
  - (* the file is passed over *)
    rewrite filter_cons_False in Hroom by (by rewrite Hv).
    destruct (IH n g Hoff' Hroom Hcells) as (Hk & Hmsg & Hframe & Hloaded).
    assert (Hrej : rejection cfg file = None) by (unfold rejection; by rewrite Hv).
    assert (Hinv : valid cfg file = false) by (unfold valid; by rewrite Hv).
    split; [exact Hk |].
    split; [rewrite Hmsg; simpl omap; by rewrite Hrej |].
    split; [exact Hframe |].
    intros [|j] f Hj Hvalid.
    + injection Hj as <-. congruence.
    + destruct (Hloaded j f Hj Hvalid) as (c' & c & Hc & He & Hsrc).
      exists c', c. split; [done |]. split; [done |].
      by rewrite Hsrc, urlOf_skip, Hinv.
Qed.

Lemma indexOfFrom_In (x : nat) (l : list nat) :
  In x l -> forall i : Z, (i <= indexOfFrom x l i)%Z.
Proof.
  induction l as [|y l IH]; intros Hin i; simpl; [done |].
  destruct (Nat.eqb_spec x y) as [|Hne]; [lia |].
  destruct Hin as [-> | Hin]; [done |].
  specialize (IH Hin (i + 1)%Z). lia.
Qed.

Lemma extendGrid_lookup (cfg : Config) (n : nat) (g : t) (i : nat) (c : VideoCell) :
  cells (extendGrid cfg n g) !! i = Some c ->
  cells g !! i = Some c \/ (length (cells g) <= i /\ c = createVideoCell i).
Proof.
  unfold extendGrid. simpl. rewrite lookup_app_Some.
  intros [H | [Hle H]]; [by left | right].
  split; [exact Hle |]. rewrite lookup_map in H.
  destruct (seq _ _ !! (i - length (cells g))) as [k|] eqn:Hk; [| discriminate].
  apply lookup_seq in Hk as [-> _]. injection H as <-. f_equal. lia.
Qed.

Lemma indexOfFrom_lookup (x : nat) (l : list nat) :
  In x l -> forall i : Z, l !! Z.to_nat (indexOfFrom x l i - i) = Some x.
Proof.
  induction l as [|y l IH]; intros Hin i; simpl; [done |].
  destruct (Nat.eqb_spec x y) as [-> | Hne].
  - by rewrite Z.sub_diag.
  - destruct Hin as [-> | Hin]; [done |].
    pose proof (indexOfFrom_In x l Hin (i + 1)%Z) as Hle.
    specialize (IH Hin (i + 1)%Z).
    replace (Z.to_nat (indexOfFrom x l (i + 1) - i))
      with (S (Z.to_nat (indexOfFrom x l (i + 1) - (i + 1)))) by lia.
    exact IH.
Qed.

(** [indexOf] finds the start cell among the empty cells. *)
Lemma indexOf_lookup (x : nat) (l : list nat) :
  In x l -> l !! Z.to_nat (indexOf x l) = Some x.
Proof.
  intros Hin. pose proof (indexOfFrom_lookup x l Hin 0) as H.
  by rewrite Z.sub_0_r in H.
Qed.

Lemma slotsBefore_cons (f : File) (rest : list File) (j : nat) :
  slotsBefore (f :: rest) (S j)
  = (if isVideo f then 1 else 0) + slotsBefore rest j.
Proof.
  unfold slotsBefore. simpl take. destruct (isVideo f) eqn:Hf.
  - by rewrite filter_cons_True.
  - rewrite filter_cons_False by (by rewrite Hf). done.
Qed.

(** The loop of [addMultipleVideos], cell by cell.  The files of a video
    type take the empty cells in their order, one each, from the [n]-th on; a
    valid file is loaded into its cell, and every cell that is not the cell
    of a valid file is left as it was. *)
Lemma addEachFile_places (cfg : Config) (empties : list nat) :
  NoDup empties ->
  forall (files : list File) (n : nat) (g : t),
    (forall f, In f files -> offList f = false) ->
    n + length (filter (fun f => isVideo f = true) files) <= length empties ->
    (forall k cell, empties !! k = Some cell -> is_Some (cells g !! cell)) ->
    (forall j f,
       files !! j = Some f -> valid cfg f = true ->
       exists cell c0,
         empties !! (n + slotsBefore files j) = Some cell
         /\ cells g !! cell = Some c0
         /\ cells (addEachFile cfg empties files (Z.of_nat n) g).2 !! cell
            = Some (loadIntoCell (documentURL g)
                      (urlOf cfg (objectURLs g) files j) c0))
    /\ (forall cell,
          (forall j f, files !! j = Some f -> valid cfg f = true ->
             empties !! (n + slotsBefore files j) <> Some cell) ->
          cells (addEachFile cfg empties files (Z.of_nat n) g).2 !! cell
          = cells g !! cell).
Proof.
  intros Hnd. induction files as [|file rest IH]; intros n g Hoff Hroom Hcells.
  { simpl. split; [| done]. intros j f Hj. by destruct j. }
  assert (Hoff' : forall f, In f rest -> offList f = false)
    by (intros f Hf; apply Hoff; by right).
  simpl addEachFile. change (String.prefix "video/" (ftype file)) with (isVideo file).
  destruct (isVideo file) eqn:Hv.
  - rewrite filter_cons_True in Hroom by done. simpl in Hroom.
    assert (Hn : n < length empties) by lia.
    replace ((0 <=? Z.of_nat n)%Z && (Z.of_nat n <? Z.of_nat (length empties))%Z)
      with true
      by (symmetry; apply andb_true_iff; split;
          [apply Z.leb_le | apply Z.ltb_lt]; lia).
    rewrite Nat2Z.id.
    destruct (lookup_lt_is_Some_2 empties n Hn) as [cell Hcell].
    rewrite Hcell.
    pose proof (offList_false_onList file Hv (Hoff file (or_introl eq_refl))) as Hsafe.
    pose proof (addVideoToCell_documentURL cfg cell file g) as Hurl.
    destruct (addVideoToCell_onList cfg cell file g Hv Hsafe)
      as (g' & Hadd & Herr & Hload).
    rewrite Hadd in Hurl |- *. simpl in Hurl.
    replace (Z.of_nat n + 1)%Z with (Z.of_nat (S n)) by lia.
    assert (Hlen : length (cells g') = length (cells g)).
    { destruct (valid cfg file); destruct Hload as [-> _];
        [apply length_alter | done]. }
    assert (Hcells' : forall k c', empties !! k = Some c' -> is_Some (cells g' !! c')).
    { intros k c' Hk. apply lookup_lt_is_Some. rewrite Hlen.
      apply lookup_lt_is_Some. by eapply Hcells. }
    assert (Hother : forall c', c' <> cell -> cells g' !! c' = cells g !! c').
    { intros c' Hne. destruct (valid cfg file); destruct Hload as [-> _];
        [by apply list_lookup_alter_ne | done]. }
    assert (Hlater : forall k, S n <= k -> empties !! k <> Some cell).
    { intros k Hk Hk'. pose proof (NoDup_lookup _ _ _ _ Hnd Hcell Hk'). lia. }
    destruct (IH (S n) g' Hoff' ltac:(lia) Hcells') as (Hplace & Hframe).
    split.
    + intros [|j] f Hj Hvalid.
      * injection Hj as <-. rewrite Hvalid in Hload. destruct Hload as [Hcs _].
        destruct (Hcells n cell Hcell) as [c0 Hc0].
        exists cell, c0.
        split; [unfold slotsBefore; simpl; by rewrite Nat.add_0_r |].
        split; [exact Hc0 |].
        rewrite Hframe by (intros j f _ _; apply Hlater; lia).
        rewrite Hcs, list_lookup_alter_eq, Hc0. simpl.
        unfold urlOf. simpl. by rewrite Nat.add_0_r.
      * destruct (Hplace j f Hj Hvalid) as (cell' & c0 & Hcell' & Hc0 & Hres).
        exists cell', c0. rewrite slotsBefore_cons, Hv.
        replace (n + (1 + slotsBefore rest j)) with (S n + slotsBefore rest j) by lia.
        split; [exact Hcell' |].
        split.
        -- rewrite <- Hother; [exact Hc0 |].
           intros ->. by apply (Hlater (S n + slotsBefore rest j) ltac:(lia)).
        -- rewrite Hres, Hurl, urlOf_skip.
           destruct (valid cfg file); by destruct Hload as [_ ->].
    + intros cell0 Hfree.
      rewrite Hframe.
      * destruct (valid cfg file) eqn:Hvalid.
        -- destruct Hload as [-> _]. apply list_lookup_alter_ne. intros <-.
           apply (Hfree 0 file eq_refl Hvalid).
           unfold slotsBefore. simpl. by rewrite Nat.add_0_r.
        -- by destruct Hload as [-> _].
      * intros j f Hj Hvalid Hat.
        apply (Hfree (S j) f Hj Hvalid).
        rewrite slotsBefore_cons, Hv.
        by replace (n + (1 + slotsBefore rest j)) with (S n + slotsBefore rest j) by lia.
  - rewrite filter_cons_False in Hroom by (by rewrite Hv).
    destruct (IH n g Hoff' Hroom Hcells) as (Hplace & Hframe).
    assert (Hinv : valid cfg file = false) by (unfold valid; by rewrite Hv).
    split.
    + intros [|j] f Hj Hvalid.
      * injection Hj as <-. congruence.
      * destruct (Hplace j f Hj Hvalid) as (cell' & c0 & Hcell' & Hc0 & Hres).
        exists cell', c0. rewrite slotsBefore_cons, Hv. simpl.
        split; [exact Hcell' |]. split; [exact Hc0 |].
        by rewrite Hres, urlOf_skip, Hinv.
    + intros cell0 Hfree. apply Hframe.
      intros j f Hj Hvalid Hat.
      apply (Hfree (S j) f Hj Hvalid).
      by rewrite slotsBefore_cons, Hv.
Qed.

(** C1, as the specification has it, fails, in two ways.  A file whose type
    is not a video type ([image/png]) is passed over without any error and
    without a call of [showErrorMessage].  A file of a video type that is
    not on the white list ([video/quicktime]) makes [addVideoToCell] throw
    before its [try]: the error leaves [addMultipleVideos], nothing is
    reported, and the valid file after it is not loaded. *)
Lemma addMultipleVideos_bad_file_not_reported :
  (let r := addMultipleVideos Sample.config [Sample.png; Sample.mp4] 0
              Sample.emptyGrid in
   includes (ftype Sample.png) safeVideoTypes = false
   /\ r.1 = Normal /\ shownErrors r.2 = [] /\ filledCells r.2 = 1)
  /\ (let r := addMultipleVideos Sample.config [Sample.quicktime; Sample.mp4] 0
                 Sample.emptyGrid in
      valid Sample.config Sample.mp4 = true
      /\ r.1 = Throw (Error "不支持的视频格式")
      /\ shownErrors r.2 = [] /\ filledCells r.2 = 0).
Proof. vm_compute. repeat split; reflexivity. Qed.

(** C1, amended.  Take a batch dropped on an empty cell, none of whose
    files has a video type outside the white list.  Then
    [addMultipleVideos] returns normally.  A file whose type does not start
    with [video/] is passed over silently: it takes no cell.  A file that
    fails the test against [CONFIG.supportedFormats] or is larger than
    100 MB raises an error that is caught inside [addVideoToCell] and handed
    to [showErrorMessage]: the messages shown are those of these files, in
    the order of the batch.  Every valid file of the batch, whatever stands
    before it, ends up as the source of a cell that is not empty.

    Cell by cell: the loop works on the grid as it is, or extended by new
    empty cells after the old ones; the files of a video type take the
    empty cells of that grid in their order, one each, from the start cell
    on; a valid file is loaded into its cell under its own object URL; and
    every cell that is not the cell of a valid file is as the loop found
    it. *)
Theorem addMultipleVideos_continues_after_bad_file (cfg : Config)
    (files : list File) (startCell : nat) (g : t) :
  0 < columns (layoutConfigOf cfg g) ->
  In startCell (emptyCells g) ->
  (forall f, In f files -> offList f = false) ->
  (addMultipleVideos cfg files startCell g).1 = Normal
  /\ shownErrors (addMultipleVideos cfg files startCell g).2
     = (shownErrors g ++ omap (rejection cfg) files)%list
  /\ (forall j f,
        files !! j = Some f -> valid cfg f = true ->
        exists cell c,
          cells (addMultipleVideos cfg files startCell g).2 !! cell = Some c
          /\ classEmpty c = false
          /\ vsrc (video c) = urlOf cfg (objectURLs g) files j)
  /\ emptyCells (prepared cfg files startCell g)
       !! Z.to_nat (indexOf startCell (emptyCells g)) = Some startCell
  /\ (forall i c,
        cells g !! i = Some c ->
        cells (prepared cfg files startCell g) !! i = Some c)
  /\ (forall i c,
        cells (prepared cfg files startCell g) !! i = Some c ->
        length (cells g) <= i -> c = createVideoCell i)
  /\ length (cells (addMultipleVideos cfg files startCell g).2)
     = length (cells (prepared cfg files startCell g))
  /\ (forall j f,
        files !! j = Some f -> valid cfg f = true ->
        exists cell c0,
          emptyCells (prepared cfg files startCell g)
            !! (Z.to_nat (indexOf startCell (emptyCells g)) + slotsBefore files j)
          = Some cell
          /\ cells (prepared cfg files startCell g) !! cell = Some c0
          /\ classEmpty c0 = true
          /\ cells (addMultipleVideos cfg files startCell g).2 !! cell
             = Some (loadIntoCell (documentURL g)
                       (urlOf cfg (objectURLs g) files j) c0))
  /\ (forall cell,
        (forall j f,
           files !! j = Some f -> valid cfg f = true ->
           emptyCells (prepared cfg files startCell g)
             !! (Z.to_nat (indexOf startCell (emptyCells g)) + slotsBefore files j)
           <> Some cell) ->
        cells (addMultipleVideos cfg files startCell g).2 !! cell
        = cells (prepared cfg files startCell g) !! cell).
Proof.
  intros Hcols Hstart Hoff.
  pose proof (indexOfFrom_In _ _ Hstart 0%Z) as Hidx.
  fold (indexOf startCell (emptyCells g)) in Hidx.
  pose proof (indexOf_range _ _ Hidx) as Hlt.
  pose proof (indexOf_lookup _ _ Hstart) as Hat.
  assert (Hrun : addMultipleVideos cfg files startCell g
                 = addEachFile cfg (emptyCells (prepared cfg files startCell g))
                     files (indexOf startCell (emptyCells g))
                     (prepared cfg files startCell g)).
  { unfold addMultipleVideos, prepared. by destruct (_ <? _)%Z. }
  assert (Hurl : documentURL (prepared cfg files startCell g) = documentURL g)
    by (unfold prepared; by destruct (_ <? _)%Z).
  assert (Hcount : objectURLs (prepared cfg files startCell g) = objectURLs g)
    by (unfold prepared; by destruct (_ <? _)%Z).
  assert (Herrs : shownErrors (prepared cfg files startCell g) = shownErrors g)
    by (unfold prepared; by destruct (_ <? _)%Z).
  assert (Hold : forall i c, cells g !! i = Some c ->
                             cells (prepared cfg files startCell g) !! i = Some c).
  { intros i c Hc. unfold prepared. destruct (_ <? _)%Z; [| done].
    simpl. by apply lookup_app_l_Some. }
  assert (Hnew : forall i c, cells (prepared cfg files startCell g) !! i = Some c ->
                             length (cells g) <= i -> c = createVideoCell i).
  { intros i c. unfold prepared. destruct (_ <? _)%Z.
    - intros Hc Hi.
      destruct (extendGrid_lookup cfg (length files) g i c Hc) as [H | [_ H]];
        [| done].
      apply lookup_lt_Some in H. lia.
    - intros Hc Hi. apply lookup_lt_Some in Hc. lia. }
  assert (Hempties : emptyCells (prepared cfg files startCell g)
                       !! Z.to_nat (indexOf startCell (emptyCells g))
                     = Some startCell
                     /\ Z.to_nat (indexOf startCell (emptyCells g)) + length files
                        <= length (emptyCells (prepared cfg files startCell g))).
  { unfold prepared.
    destruct (Z.of_nat (length (emptyCells g))
                <? indexOf startCell (emptyCells g) + Z.of_nat (length files))%Z
      eqn:Hcmp.
    - set (extra := ceilDiv (length files) (columns (layoutConfigOf cfg g))
                    * columns (layoutConfigOf cfg g)).
      assert (Heq : emptyCells
                      (setupScrollHandler
                         (set_isExtended true (extendGrid cfg (length files) g)))
                    = (emptyCells g
                       ++ emptyCellsFrom (0 + length (cells g))
                            (map createVideoCell (seq (length (cells g)) extra)))%list)
        by (unfold emptyCells; simpl; apply emptyCellsFrom_app).
      rewrite Heq, length_app, emptyCellsFrom_fresh.
      pose proof (ceilDiv_enough (length files) _ Hcols) as Henough.
      fold extra in Henough.
      split; [| lia].
      apply lookup_app_l_Some. exact Hat.
    - apply Z.ltb_ge in Hcmp. split; [exact Hat | lia]. }
  destruct Hempties as [Hfirst Hroom].
  set (g1 := prepared cfg files startCell g) in *.
  set (idx := indexOf startCell (emptyCells g)) in *.
  assert (Hn : idx = Z.of_nat (Z.to_nat idx)) by lia.
  pose proof (length_filter (fun f => isVideo f = true) files) as Hvideos.
  assert (Hrun' : addMultipleVideos cfg files startCell g
                  = addEachFile cfg (emptyCells g1) files
                      (Z.of_nat (Z.to_nat idx)) g1)
    by (rewrite Hrun; by rewrite <- Hn).
  rewrite Hrun'.
  destruct (addEachFile_loads cfg (emptyCells g1) (emptyCellsFrom_NoDup _ _)
              files (Z.to_nat idx) g1 Hoff ltac:(lia)
              (fun k cell => emptyCells_lookup g1 k cell))
    as (Hk & Hmsg & _ & Hloaded).
  destruct (addEachFile_places cfg (emptyCells g1) (emptyCellsFrom_NoDup _ _)
              files (Z.to_nat idx) g1 Hoff ltac:(lia)
              (fun k cell => emptyCells_lookup g1 k cell))
    as (Hplace & Hframe).
  split; [exact Hk |].
  split; [by rewrite Hmsg, Herrs |].
  split; [rewrite <- Hcount; exact Hloaded |].
  split; [exact Hfirst |].
  split; [exact Hold |].
  split; [exact Hnew |].
  split; [apply addEachFile_shape |].
  split; [| exact Hframe].
  intros j f Hj Hvalid.
  destruct (Hplace j f Hj Hvalid) as (cell & c0 & Hcell & Hc0 & Hres).
  exists cell, c0. split; [exact Hcell |]. split; [exact Hc0 |].
  split.
  - apply list_elem_of_lookup_2, list_elem_of_In in Hcell.
    destruct (emptyCellsFrom_bounds _ _ _ Hcell) as [_ (c & Hc & He)].
    rewrite Nat.sub_0_r in Hc. congruence.
  - rewrite Hres. by rewrite Hurl, Hcount.
Qed.

Lemma addMultipleVideos_continues_after_bad_file_witness :
  let r := addMultipleVideos Sample.config
             [Sample.png; Sample.hugeMp4; Sample.mp4] 0 Sample.emptyGrid in
  r.1 = Normal /\ shownErrors r.2 = ["文件大小超过限制"]
  /\ cells r.2 !! 0 = Some (createVideoCell 0)
  /\ cells r.2 !! 1
     = Some (loadIntoCell "http://localhost/index.html" "blob:0"
               (createVideoCell 1)).
Proof.
  assert (Hcols : 0 < columns (layoutConfigOf Sample.config Sample.emptyGrid))
    by (vm_compute; lia).
  assert (Hstart : In 0 (emptyCells Sample.emptyGrid))
    by (vm_compute; auto).
  assert (Hoff : forall f,
             In f [Sample.png; Sample.hugeMp4; Sample.mp4] -> offList f = false)
    by (intros f [<- | [<- | [<- | []]]]; reflexivity).
  destruct (addMultipleVideos_continues_after_bad_file Sample.config
              [Sample.png; Sample.hugeMp4; Sample.mp4] 0 Sample.emptyGrid
              Hcols Hstart Hoff)
    as (Hnormal & Hshown & _ & _ & _ & _ & _ & Hplace & Hframe).
  split; [exact Hnormal |]. split; [exact Hshown |].
  split.
  - rewrite (Hframe 0); [reflexivity |].
    intros [|[|[|j]]] f Hj Hvalid; simpl in Hj; try discriminate Hj;
      injection Hj as <-; vm_compute in Hvalid; try discriminate Hvalid.
    vm_compute. discriminate.
  - destruct (Hplace 2 Sample.mp4 eq_refl eq_refl)
      as (cell & c0 & Hcell & Hc0 & _ & Hres).
    vm_compute in Hcell. injection Hcell as <-.
    vm_compute in Hc0. injection Hc0 as <-.
    exact Hres.
Defined.

(** A batch dropped on a cell that is not empty: [indexOf] answers -1, the
    test [currentCellIndex >= 0] fails for every file, and no file is
    loaded or reported. *)
Lemma addEachFile_negative (cfg : Config) (empties : list nat) (files : list File)
    (idx : Z) (g : t) :
  (idx < 0)%Z -> addEachFile cfg empties files idx g = (Normal, g).
Proof.
  intros Hidx. induction files as [|file rest IH]; simpl; [done |].
  destruct (String.prefix "video/" (ftype file)); [| exact IH].
  replace (0 <=? idx)%Z with false by (symmetry; apply Z.leb_gt; lia).
  exact IH.
Qed.

Lemma addMultipleVideos_on_loaded_cell (cfg : Config) (files : list File)
    (startCell : nat) (g : t) :
  ~ In startCell (emptyCells g) ->
  (addMultipleVideos cfg files startCell g).1 = Normal
  /\ shownErrors (addMultipleVideos cfg files startCell g).2 = shownErrors g
  /\ filledCells (addMultipleVideos cfg files startCell g).2 = filledCells g.
Proof.
  intros Hstart.
  assert (Hidx : indexOf startCell (emptyCells g) = (-1)%Z).
  { unfold indexOf. generalize 0%Z.
    induction (emptyCells g) as [|y l IH]; intros i; simpl; [done |].
    destruct (Nat.eqb_spec startCell y) as [-> | _].
    - destruct Hstart. by left.
    - apply IH. intros H. apply Hstart. by right. }
  unfold addMultipleVideos. rewrite Hidx.
  destruct (Z.of_nat (length (emptyCells g)) <? -1 + Z.of_nat (length files))%Z;
    rewrite addEachFile_negative by lia; simpl; [| done].
  split; [done |]. split; [done |].
  unfold filledCells. simpl. rewrite filter_app, length_app.
  match goal with
  | |- _ + length ?l = _ => replace l with (@nil VideoCell); [simpl; lia |]
  end.
  symmetry. generalize (length (cells g)).
  generalize (ceilDiv (length files) (columns (layoutConfigOf cfg g))
              * columns (layoutConfigOf cfg g)).
  intros len. induction len as [|len IH]; intros start; simpl; [done |].
  rewrite filter_cons_False by done. apply IH.
Qed.

(** *** Snapshot and restore across a change of layout *)

Import Relayout.

Lemma toggleLayout_relayout (cfg : Config) (g : t) :
  toggleLayout cfg g
  = relayout cfg (if String.eqb (currentLayout g) "2x2" then "3x3" else "2x2")
             (currentAspectRatio g) g.
Proof. reflexivity. Qed.

Lemma toggleAspectRatio_relayout (cfg : Config) (g : t) :
  toggleAspectRatio cfg g
  = relayout cfg (currentLayout g)
             (if String.eqb (currentAspectRatio g) "16:9" then "9:16" else "16:9") g.
Proof. reflexivity. Qed.

Lemma createVideoCell_fresh (k : nat) : isFresh (createVideoCell k).
Proof. reflexivity. Qed.

Lemma fresh_cells_lookup (start len j : nat) (c : VideoCell) :
  map createVideoCell (seq start len) !! j = Some c -> isFresh c.
Proof.
  rewrite lookup_map. destruct (seq start len !! j) as [k|]; simpl; [| done].
  intros [= <-]. apply createVideoCell_fresh.
Qed.

Lemma restoreCell_fresh (tm : TagManager.t) (d : string) (state : SavedState)
    (c : VideoCell) :
  isFresh c -> (restoreCell tm d state c).1 = Normal.
Proof.
  intros ->. unfold restoreCell.
  destruct (truthy (savedSrc state)); [| done].
  destruct (savedTag state) as [tag|]; [| done].
  destruct (truthy tag); done.
Qed.

Lemma restoreFrom_fresh (tm : TagManager.t) (d : string)
    (states : list SavedState) :
  forall (index : nat) (cs : list VideoCell),
    (forall j c, index <= j -> cs !! j = Some c -> isFresh c) ->
    exists cs',
      restoreFrom tm d states index cs = (Normal, cs')
      /\ length cs' = length cs
      /\ (forall j, j < index -> cs' !! j = cs !! j)
      /\ (forall j state c,
            index <= j -> states !! (j - index) = Some state ->
            cs !! j = Some c ->
            cs' !! j = Some (restoreCell tm d state c).2).
Proof.
  induction states as [|state rest IH]; intros index cs Hfresh; simpl.
  { exists cs. split; [done |]. split; [done |]. split; [done |].
    intros j state c _ Hs. by destruct (j - index). }
  destruct (cs !! index) as [cell|] eqn:Hcell.
  - pose proof (restoreCell_fresh tm d state cell (Hfresh _ _ (le_n _) Hcell)) as Hk.
    destruct (restoreCell tm d state cell) as [k cell'] eqn:Hr. simpl in Hk. subst k.
    destruct (IH (S index) (<[index := cell']> cs)) as (cs' & -> & Hlen & Hlow & Hhigh).
    { intros j c Hj. rewrite list_lookup_insert_ne by lia. apply Hfresh. lia. }
    exists cs'. split; [done |].
    split; [by rewrite Hlen, length_insert |].
    split.
    { intros j Hj. rewrite Hlow by lia. apply list_lookup_insert_ne. lia. }
    intros j state' c Hj Hs Hc.
    destruct (decide (j = index)) as [-> | Hne].
    + rewrite Nat.sub_diag in Hs. injection Hs as <-.
      rewrite Hlow by lia.
      rewrite list_lookup_insert_eq by (by eapply lookup_lt_Some).
      rewrite Hcell in Hc. injection Hc as <-. by rewrite Hr.
    + apply Hhigh; [lia | |].
      * replace (j - index) with (S (j - S index)) in Hs by lia. exact Hs.
      * by rewrite list_lookup_insert_ne by lia.
  - destruct (IH (S index) cs) as (cs' & -> & Hlen & Hlow & Hhigh).
    { intros j c Hj. apply Hfresh. lia. }
    exists cs'. split; [done |]. split; [done |].
    split; [intros j Hj; apply Hlow; lia |].
    intros j state' c Hj Hs Hc.
    destruct (decide (j = index)) as [-> | Hne]; [congruence |].
    apply Hhigh; [lia | | done].
    replace (j - index) with (S (j - S index)) in Hs by lia. exact Hs.
Qed.

(** [relayout] returns normally, and every saved state that has a cell
    at its position in the rebuilt grid is restored into that cell, which
    is a fresh one. *)
Lemma relayout_spec (cfg : Config) (l a : string) (g : t) :
  (relayout cfg l a g).1 = Normal
  /\ tagManager (relayout cfg l a g).2 = tagManager g
  /\ (forall j state,
        saveVideoStates g !! j = Some state ->
        j < length (cells (relayout cfg l a g).2) ->
        exists k,
          cells (relayout cfg l a g).2 !! j
          = Some (restoreCell (tagManager g) (documentURL g) state
                    (createVideoCell k)).2).
Proof.
  unfold relayout.
  set (g1 := set_layout l a g).
  set (lc := layoutConfigOf cfg g1).
  set (total := ceilDiv (filledCells g1) (columns lc) * columns lc).
  set (g2 := initGrid cfg (updateGridClass cfg g1)).
  set (g3 := if layoutCells lc <? total
             then setupScrollHandler
                    (set_isExtended true (extendGrid cfg (total - layoutCells lc) g2))
             else g2).
  assert (Hfresh : forall j c, cells g3 !! j = Some c -> isFresh c).
  { intros j c. unfold g3.
    destruct (layoutCells lc <? total); simpl.
    - rewrite lookup_app_Some.
      intros [H | [_ H]]; by eapply fresh_cells_lookup.
    - apply fresh_cells_lookup. }
  assert (Htm : tagManager g3 = tagManager g)
    by (unfold g3; by destruct (layoutCells lc <? total)).
  assert (Hurl : documentURL g3 = documentURL g)
    by (unfold g3; by destruct (layoutCells lc <? total)).
  destruct (restoreFrom_fresh (tagManager g3) (documentURL g3)
              (saveVideoStates g) 0 (cells g3))
    as (cs' & Hr & Hlen & _ & Hat); [intros j c _; apply Hfresh |].
  unfold restoreVideoStates. rewrite Hr. simpl.
  split; [done |]. split; [done |].
  intros j state Hstate Hj. rewrite Hlen in Hj.
  destruct (lookup_lt_is_Some_2 _ _ Hj) as [c Hc].
  exists (dataIndex c). rewrite <- Htm, <- Hurl, <- (Hfresh j c Hc).
  apply Hat; [lia | by rewrite Nat.sub_0_r | done].
Qed.

Lemma restoreCell_loaded (tm : TagManager.t) (d : string) (state : SavedState)
    (k : nat) :
  truthy (savedSrc state) = true ->
  let c' := (restoreCell tm d state (createVideoCell k)).2 in
  vsrc (video c') = savedSrc state
  /\ classEmpty c' = false
  /\ dataTag c' = restoredTag (savedTag state)
  /\ currentTime (video c') = 0%Q
  /\ paused (video c') = true.
Proof.
  intros Hsrc. unfold restoreCell, restoredTag. rewrite Hsrc.
  pose proof (reflectURL_truthy d _ Hsrc) as Hurl.
  destruct (savedTag state) as [tag|]; simpl; [| done].
  destruct (truthy tag); done.
Qed.

(** C2, as the specification has it, fails.  A video that plays, five
    seconds in, is paused at position 0 after [toggleLayout]: the snapshot
    holds no position, and the playing flag it holds is not read back.  And
    a video in the last cell of the 3x3 grid has no cell at its position in
    the 2x2 grid: after [toggleLayout] no cell is loaded. *)
Lemma toggleLayout_loses_playback :
  (let r := toggleLayout Sample.config Sample.onePlaying in
   ((fun c => (vsrc (video c), currentTime (video c), paused (video c)))
      <$> cells Sample.onePlaying !! 0) = Some ("blob:0", 5%Q, false)
   /\ r.1 = Normal
   /\ ((fun c => (vsrc (video c), currentTime (video c), paused (video c)))
         <$> cells r.2 !! 0) = Some ("blob:0", 0%Q, true))
  /\ (let r := toggleLayout Sample.config Sample.lastLoaded in
      ((fun c => (classEmpty c, vsrc (video c)))
         <$> cells Sample.lastLoaded !! 8) = Some (false, "blob:0")
      /\ r.1 = Normal
      /\ length (cells r.2) = 4
      /\ filledCells r.2 = 0).
Proof. vm_compute. repeat split; reflexivity. Qed.

(** C2, amended.  [toggleLayout] and [toggleAspectRatio] return normally,
    and every loaded cell whose position exists in the rebuilt grid has
    there the same source reference, the same empty flag and the same
    assigned tag as before; its video is at position 0, the snapshot
    holding no playback position. *)
Theorem toggle_restores_loaded_cells (cfg : Config) (g : t) (i : nat)
    (c : VideoCell) (r : Completion * t) :
  cells g !! i = Some c ->
  classEmpty c = false ->
  truthy (vsrc (video c)) = true ->
  r = toggleLayout cfg g \/ r = toggleAspectRatio cfg g ->
  r.1 = Normal
  /\ (i < length (cells r.2) ->
      exists c',
        cells r.2 !! i = Some c'
        /\ vsrc (video c') = vsrc (video c)
        /\ classEmpty c' = classEmpty c
        /\ dataTag c' = restoredTag (dataTag c)
        /\ currentTime (video c') = 0%Q).
Proof.
  intros Hc Hempty Hsrc Hr.
  assert (Hrel : exists l a, r = relayout cfg l a g).
  { destruct Hr as [-> | ->];
      [rewrite toggleLayout_relayout | rewrite toggleAspectRatio_relayout];
      by eexists _, _. }
  destruct Hrel as (l & a & ->).
  destruct (relayout_spec cfg l a g) as (Hnormal & _ & Hcells).
  split; [exact Hnormal |].
  intros Hi.
  assert (Hstate : saveVideoStates g !! i
                   = Some {| savedSrc := vsrc (video c);
                             savedIsEmpty := classEmpty c;
                             savedTag := dataTag c;
                             savedIsPlaying := negb (paused (video c)) |}).
  { unfold saveVideoStates. by rewrite lookup_map, Hc. }
  destruct (Hcells i _ Hstate Hi) as [k Hk].
  eexists. split; [exact Hk |].
  destruct (restoreCell_loaded (tagManager g) (documentURL g)
              {| savedSrc := vsrc (video c); savedIsEmpty := classEmpty c;
                 savedTag := dataTag c;
                 savedIsPlaying := negb (paused (video c)) |} k Hsrc)
    as (H1 & H2 & H3 & H4 & _).
  simpl in H1, H3. rewrite Hempty. done.
Qed.

Lemma toggle_restores_loaded_cells_witness :
  exists c',
    cells (toggleLayout Sample.config Sample.oneTagged).2 !! 0 = Some c'
    /\ vsrc (video c') = "blob:0"
    /\ classEmpty c' = false
    /\ dataTag c' = Some "a"
    /\ currentTime (video c') = 0%Q.
Proof.
  refine (proj2 (toggle_restores_loaded_cells Sample.config Sample.oneTagged 0 _
                   (toggleLayout Sample.config Sample.oneTagged)
                   eq_refl eq_refl eq_refl (or_introl eq_refl)) _).
  vm_compute. lia.
Defined.

(** How many cells the rebuilt grid has. *)
Lemma relayout_length (cfg : Config) (l a : string) (g : t) :
  let lc := layouts cfg l (aspectRatios cfg a) in
  let total := ceilDiv (filledCells g) (columns lc) * columns lc in
  length (cells (relayout cfg l a g).2)
  = if layoutCells lc <? total
    then layoutCells lc + ceilDiv (total - layoutCells lc) (columns lc) * columns lc
    else layoutCells lc.
Proof.
  intros lc total. unfold relayout.
  set (g1 := set_layout l a g).
  change (layoutConfigOf cfg g1) with lc.
  change (filledCells g1) with (filledCells g). fold total.
  set (g2 := initGrid cfg (updateGridClass cfg g1)).
  set (g3 := if layoutCells lc <? total
             then setupScrollHandler
                    (set_isExtended true (extendGrid cfg (total - layoutCells lc) g2))
             else g2).
  assert (Hlen : length (cells g3)
                 = if layoutCells lc <? total
                   then layoutCells lc
                        + ceilDiv (total - layoutCells lc) (columns lc) * columns lc
                   else layoutCells lc).
  { unfold g3. destruct (layoutCells lc <? total); simpl.
    - rewrite length_app, !length_map, !length_seq. done.
    - by rewrite length_map, length_seq. }
  destruct (restoreFrom_fresh (tagManager g3) (documentURL g3)
              (saveVideoStates g) 0 (cells g3))
    as (cs' & Hr & Hlen' & _).
  { intros j c _. unfold g3. destruct (layoutCells lc <? total); simpl.
    - rewrite lookup_app_Some. intros [H | [_ H]]; by eapply fresh_cells_lookup.
    - apply fresh_cells_lookup. }
  unfold restoreVideoStates. rewrite Hr. simpl. by rewrite Hlen'.
Qed.

(** *** Swapping two cells *)

(** What the [drop] listener does to the two cells, whatever their states.
    Source, position and empty flag are exchanged; a cell plays afterwards
    exactly when the state it received was loaded and playing; a cell
    receives the tag of the other when that tag is a non-empty string, and
    keeps its own otherwise. *)
Lemma drop_exchanges (g : t) (si ti : nat) (source target : VideoCell) :
  dragSource g = Some si ->
  ti <> si ->
  cells g !! si = Some source ->
  cells g !! ti = Some target ->
  exists source' target',
    cells (drop (Some ti) g) !! si = Some source'
    /\ cells (drop (Some ti) g) !! ti = Some target'
    /\ vsrc (video source') = reflectURL (documentURL g) (vsrc (video target))
    /\ vsrc (video target') = reflectURL (documentURL g) (vsrc (video source))
    /\ currentTime (video source') = currentTime (video target)
    /\ currentTime (video target') = currentTime (video source)
    /\ classEmpty source' = classEmpty target
    /\ classEmpty target' = classEmpty source
    /\ paused (video source') = classEmpty target || paused (video target)
    /\ paused (video target') = classEmpty source || paused (video source)
    /\ dataTag target'
       = (if truthyAttr (dataTag source) then dataTag source else dataTag target)
    /\ dataTag source'
       = (if truthyAttr (dataTag target) then dataTag target else dataTag source).
Proof.
  intros Hdrag Hne Hs Ht. unfold drop. rewrite Hdrag, Hs, Ht.
  apply Nat.eqb_neq in Hne as Hneb. rewrite Hneb.
  pose proof (lookup_lt_Some _ _ _ Hs) as Hsi.
  pose proof (lookup_lt_Some _ _ _ Ht) as Hti.
  match goal with
  | |- context [let '(a, b) := ?p in _] => destruct p as [source3 target3] eqn:Hswap
  end.
  simpl cells.
  rewrite list_lookup_insert_ne by done.
  rewrite list_lookup_insert_eq by done.
  rewrite list_lookup_insert_eq by (by rewrite length_insert).
  eexists _, _. split; [reflexivity |]. split; [reflexivity |].
  set (d := documentURL g) in *.
  assert (Hs3 : video source3 = video (applyCellState d (getCellState target) source)
                /\ classEmpty source3 = classEmpty (applyCellState d (getCellState target) source)
                /\ dataTag source3
                   = (if truthyAttr (dataTag target) then dataTag target else dataTag source)
                /\ video target3 = video (applyCellState d (getCellState source) target)
                /\ classEmpty target3 = classEmpty (applyCellState d (getCellState source) target)
                /\ dataTag target3
                   = (if truthyAttr (dataTag source) then dataTag source else dataTag target)).
  { assert (Hd : forall st c, dataTag (applyCellState d st c) = dataTag c).
    { intros st c. unfold applyCellState.
      destruct (stateIsEmpty st); [done |]. by destruct (stateIsPlaying st). }
    destruct (truthyAttr (dataTag target)), (truthyAttr (dataTag source));
      match type of Hswap with
      | match ?x with _ => _ end = _ => destruct x as [sd|]
      end;
      try match type of Hswap with
          | match ?x with _ => _ end = _ => destruct x as [td|]
          end;
      injection Hswap as <- <-; simpl; rewrite ?Hd; done. }
  destruct Hs3 as (Hv1 & He1 & Hd1 & Hv2 & He2 & Hd2).
  simpl. rewrite Hv1, He1, Hd1, Hv2, He2, Hd2.
  unfold applyCellState, getCellState. simpl.
  destruct (classEmpty target), (classEmpty source),
    (paused (video target)), (paused (video source)); simpl; done.
Qed.

(** C3 at a tagged video dropped on an untagged cell (the first cell of the
    grid holds a video and the tag [a], the second is empty and has no tag;
    the first is dragged onto the second).  The video moves to the second
    cell and the tag is set there, but the first cell, now empty, still
    carries the tag [a]: the tags are not exchanged.  Of the badges only
    the texts are exchanged.  The video of the first cell was assigned the
    empty source of the second, and reads the URL of the page. *)
Theorem drop_keeps_tag_on_source :
  let g := dragstart (Some 0) Sample.oneTagged in
  let g' := drop (Some 1) g in
  dragSource g = Some 0
  /\ ((fun c => (vsrc (video c), classEmpty c, dataTag c)) <$> cells g !! 0)
     = Some ("blob:0", false, Some "a")
  /\ ((fun c => (vsrc (video c), classEmpty c, dataTag c)) <$> cells g !! 1)
     = Some ("", true, None)
  /\ ((fun c => (vsrc (video c), classEmpty c, dataTag c)) <$> cells g' !! 1)
     = Some ("blob:0", false, Some "a")
  /\ ((fun c => (vsrc (video c), classEmpty c, dataTag c)) <$> cells g' !! 0)
     = Some (pageURL Sample.config, true, Some "a")
  /\ (tagDisplay <$> cells g' !! 0)
     = Some (Some {| textContent := "+";
                     backgroundColor := "hsl(10, 70%, 80%)";
                     addMode := false |})
  /\ (tagDisplay <$> cells g' !! 1)
     = Some (Some {| textContent := "a"; backgroundColor := "";
                     addMode := true |}).
Proof. vm_compute. repeat split; reflexivity. Qed.

End VideoGridFacts.

(** ** The navbar *)

Module NavbarFacts.

Import Navbar NavbarInv.

Lemma invariant_start (h0 : bool) : invariant (start h0).
Proof.
  split; simpl; intros due H; [discriminate H | by injection H as <-].
Qed.

Lemma invariant_step (w w' : World) (e : Event) :
  invariant w -> step w e = Some w' -> invariant w'.
Proof.
  intros [Htimeout Hinit] Hstep. destruct e as [at_ y | at_ | at_]; simpl in Hstep.
  - destruct (now w <=? at_)%N; [| discriminate Hstep].
    injection Hstep as <-. unfold mousemove.
    destruct (y <? threshold)%Z eqn:Hy; split; simpl; try done.
    intros due [= <-]. exists at_, y. apply Z.ltb_ge in Hy. done.
  - destruct (timeout (nav w)) as [due|]; [| discriminate Hstep].
    destruct ((now w <=? at_)%N && (due <=? at_)%N); [| discriminate Hstep].
    injection Hstep as <-. split; simpl; done.
  - destruct (initialTimer (nav w)) as [due|]; [| discriminate Hstep].
    destruct ((now w <=? at_)%N && (due <=? at_)%N); [| discriminate Hstep].
    injection Hstep as <-. split; simpl; done.
Qed.

Lemma invariant_run (events : list Event) :
  forall w w', invariant w -> run w events = Some w' -> invariant w'.
Proof.
  induction events as [|e rest IH]; intros w w' Hinv Hrun; simpl in Hrun.
  - by injection Hrun as <-.
  - destruct (step w e) as [w1|] eqn:Hstep; [| discriminate Hrun].
    eapply IH; [| exact Hrun]. by eapply invariant_step.
Qed.

(** C8, as the specification has it, fails.  The pointer is moved into the
    zone half a second after the page has loaded and stays there; at two
    seconds the timer set on load fires and hides the navbar, the pointer
    being inside the zone.  And when the pointer leaves the zone at 1.9
    seconds, the same timer hides the navbar a tenth of a second later. *)
Lemma navbar_hidden_by_initial_timer :
  (exists w w',
     run (start false) [MouseMove 500 50] = Some w
     /\ step w (InitialTimerFires 2000) = Some w'
     /\ pointerInZone w = true /\ hidden (nav w) = false
     /\ pointerInZone w' = true /\ hidden (nav w') = true)
  /\ (exists w w',
        run (start false) [MouseMove 500 50; MouseMove 1900 150] = Some w
        /\ step w (InitialTimerFires 2000) = Some w'
        /\ pointer w = Some (1900%N, 150%Z) /\ hidden (nav w) = false
        /\ now w' = 2000%N /\ hidden (nav w') = true).
Proof.
  split; eexists _, _; (split; [reflexivity |]); (split; [reflexivity |]);
    vm_compute; repeat split; reflexivity.
Qed.

(** C8, amended.  In every run of the navbar, a [mousemove] inside the zone
    (less than 100 pixels from the top) leaves the navbar visible and no
    hide timer pending.  The navbar becomes hidden in two ways only: by the
    timer set on load, once, 2 seconds or more after the construction and
    wherever the pointer is; or by the timer of the [mousemove] listener,
    which fires only when the last [mousemove] was outside the zone and 2
    seconds or more have passed since that [mousemove]. *)
Theorem navbar_hides_only_by_timers (h0 : bool) (events : list Event)
    (w w' : World) (e : Event) :
  run (start h0) events = Some w ->
  step w e = Some w' ->
  (forall at_ y, e = MouseMove at_ y -> (y < threshold)%Z ->
     hidden (nav w') = false /\ timeout (nav w') = None)
  /\ (hidden (nav w) = false -> hidden (nav w') = true ->
      (exists at_, e = InitialTimerFires at_ /\ (hideDelay <= at_)%N
                   /\ initialTimer (nav w') = None)
      \/ (exists at_ t0 y,
            e = TimeoutFires at_
            /\ pointer w = Some (t0, y)
            /\ pointerInZone w = false
            /\ (t0 + hideDelay <= at_)%N)).
Proof.
  intros Hrun Hstep.
  pose proof (invariant_run events _ _ (invariant_start h0) Hrun) as [Htimeout Hinit].
  split.
  - intros at_ y -> Hy. simpl in Hstep.
    destruct (now w <=? at_)%N; [| discriminate Hstep].
    injection Hstep as <-. unfold mousemove.
    apply Z.ltb_lt in Hy. by rewrite Hy.
  - intros Hvisible Hhidden. destruct e as [at_ y | at_ | at_]; simpl in Hstep.
    + destruct (now w <=? at_)%N; [| discriminate Hstep].
      injection Hstep as <-. unfold mousemove in Hhidden.
      destruct (y <? threshold)%Z; simpl in Hhidden; congruence.
    + right. destruct (timeout (nav w)) as [due|] eqn:Hdue; [| discriminate Hstep].
      destruct ((now w <=? at_)%N && (due <=? at_)%N) eqn:Hok; [| discriminate Hstep].
      apply andb_true_iff in Hok as [_ Hle%N.leb_le].
      destruct (Htimeout due eq_refl) as (t0 & y & Hp & Hy & ->).
      exists at_, t0, y. split; [done |]. split; [done |].
      split; [| done].
      unfold pointerInZone. rewrite Hp. by apply Z.ltb_ge.
    + left. destruct (initialTimer (nav w)) as [due|] eqn:Hdue; [| discriminate Hstep].
      destruct ((now w <=? at_)%N && (due <=? at_)%N) eqn:Hok; [| discriminate Hstep].
      apply andb_true_iff in Hok as [_ Hle%N.leb_le].
      rewrite (Hinit due eq_refl) in Hle.
      injection Hstep as <-. exists at_. done.
Qed.

Lemma navbar_hides_only_by_timers_witness :
  (exists at_, TimeoutFires 2600 = InitialTimerFires at_ /\ (hideDelay <= at_)%N
               /\ initialTimer
                    (timeoutCallback (mousemove 500 150 (setupAutoHide 0 false)))
                  = None)
  \/ (exists at_ t0 y,
        TimeoutFires 2600 = TimeoutFires at_
        /\ Some (500%N, 150%Z) = Some (t0, y)
        /\ pointerInZone {| now := 500; nav := mousemove 500 150 (setupAutoHide 0 false);
                            pointer := Some (500%N, 150%Z) |} = false
        /\ (t0 + hideDelay <= at_)%N).
Proof.
  exact (proj2 (navbar_hides_only_by_timers false [MouseMove 500 150]
                  {| now := 500; nav := mousemove 500 150 (setupAutoHide 0 false);
                     pointer := Some (500%N, 150%Z) |}
                  {| now := 2600;
                     nav := timeoutCallback (mousemove 500 150 (setupAutoHide 0 false));
                     pointer := Some (500%N, 150%Z) |}
                  (TimeoutFires 2600) eq_refl eq_refl) eq_refl eq_refl).
Defined.

End NavbarFacts.

(** * Further properties of the code *)

(** ** The tag registry *)

Module TagManagerMore.

Import TagManager GridInv.

Lemma inSync_updateDropdown (tm : t) : inSync (updateDropdown tm).
Proof. reflexivity. Qed.

(** The filter menu always lists the registry: the constructor, [addTag]
    and [deleteTag] leave the dropdown with one option per registered tag,
    in the order of registration, each with the color of its tag.  For
    [deleteTag] this holds for every tag, whatever becomes of the selector
    built from it afterwards: the registry it leaves is that of its first
    two statements, from which the tag is gone. *)
Theorem dropdown_lists_registry (tag : string) (tm : t) (rng : Rng)
    (cells : list VideoCell) :
  inSync TagManager.new
  /\ (inSync tm -> inSync (addTag tag tm rng).1.2)
  /\ inSync (deleteTagRegistry tag tm)
  /\ tags (deleteTagRegistry tag tm) = mapDelete tag (tags tm)
  /\ (forall k tm' cells',
        deleteTag tag tm cells = Some (k, tm', cells') ->
        tm' = deleteTagRegistry tag tm /\ inSync tm')
  /\ (inSync tm ->
      map (fun o => (optionText o, colorMark o)) (dropdown tm) = tags tm).
Proof.
  split; [reflexivity |]. split; [| split; [| split; [| split]]].
  - intros Hsync. unfold addTag.
    destruct (negb (mapHas tag (tags tm))); [| exact Hsync].
    unfold generatePastelColor. simpl. reflexivity.
  - reflexivity.
  - reflexivity.
  - intros k tm' cells'. unfold deleteTag.
    destruct (readDataTagSelector tag); intros [= <- <- <-]; by split.
  - intros ->. simpl. rewrite map_map.
    induction (tags tm) as [|[name color] m IH]; simpl; [done |].
    by rewrite IH.
Qed.

Lemma dropdown_lists_registry_witness :
  map (fun o => (optionText o, colorMark o))
      (dropdown (addTag "b" (addTag "a" TagManager.new (Sample.rngConst 0)).1.2
                   (Sample.rngConst (1 # 2))).1.2)
  = [("a", "hsl(0, 70%, 80%)"); ("b", "hsl(180, 70%, 80%)")].
Proof.
  refine (proj2 (proj2 (proj2 (proj2 (proj2 (dropdown_lists_registry "b"
            (addTag "b" (addTag "a" TagManager.new (Sample.rngConst 0)).1.2
               (Sample.rngConst (1 # 2))).1.2
            (Sample.rngConst 0) []))))) _).
  reflexivity.
Defined.

Lemma mapSet_fresh (k v : string) (m : TagMap) :
  mapGet k m = None -> mapSet k v m = (m ++ [(k, v)])%list.
Proof.
  induction m as [|[k' v'] m IH]; simpl; [done |].
  destruct (String.eqb k k'); [discriminate |].
  intros H. by rewrite (IH H).
Qed.

Lemma mapHas_false (k : string) (m : TagMap) :
  mapHas k m = false -> mapGet k m = None.
Proof. unfold mapHas. by destruct (mapGet k m). Qed.

Lemma addTag_fresh_tags (tag : string) (tm : t) (rng : Rng) :
  mapHas tag (tags tm) = false ->
  tags (addTag tag tm rng).1.2
  = (tags tm ++ [(tag, pastel (draws rng (drawn rng)))])%list.
Proof.
  intros Hnew. rewrite TagManagerFacts.addTag_fresh by done. simpl.
  apply mapSet_fresh. by apply mapHas_false.
Qed.

(** A new tag goes to the end of the registry and of the menu, with the
    pastel color of the hue [floor (r * 360)], the product that of binary64
    numbers and [r] the next value of [Math.random]; the tags registered
    before keep their colors and their order, and one random value is used
    up. *)
Theorem addTag_appends (tag : string) (tm : t) (rng : Rng) :
  mapHas tag (tags tm) = false ->
  tags (addTag tag tm rng).1.2
  = (tags tm ++ [(tag, pastel (draws rng (drawn rng)))])%list
  /\ (forall other, other <> tag ->
        mapGet other (tags (addTag tag tm rng).1.2) = mapGet other (tags tm))
  /\ drawn (addTag tag tm rng).2 = S (drawn rng).
Proof.
  intros Hnew. split; [by apply addTag_fresh_tags |].
  rewrite TagManagerFacts.addTag_fresh by done. simpl.
  split; [| done].
  intros other Hne. by apply TagManagerFacts.mapGet_mapSet_ne.
Qed.

Lemma addTag_appends_witness :
  tags (addTag "b" (addTag "a" TagManager.new (Sample.rngConst 0)).1.2
          (Sample.rngConst (1 # 2))).1.2
  = [("a", "hsl(0, 70%, 80%)"); ("b", "hsl(180, 70%, 80%)")].
Proof.
  exact (proj1 (addTag_appends "b"
                  (addTag "a" TagManager.new (Sample.rngConst 0)).1.2
                  (Sample.rngConst (1 # 2)) eq_refl)).
Defined.

Lemma mapDelete_absent (k : string) (m : TagMap) :
  mapGet k m = None -> mapDelete k m = m.
Proof.
  induction m as [|[k' v'] m IH]; simpl; [done |].
  destruct (String.eqb k k'); [discriminate |].
  intros H. by rewrite (IH H).
Qed.

Lemma mapDelete_app (k : string) (m1 m2 : TagMap) :
  mapDelete k (m1 ++ m2)%list = (mapDelete k m1 ++ mapDelete k m2)%list.
Proof.
  induction m1 as [|[k' v'] m1 IH]; simpl; [done |].
  destruct (String.eqb k k'); [exact IH | by rewrite IH].
Qed.

(** Registering a new tag and deleting it again gives back the registry and
    the menu as they were, and strips no cell that does not carry the tag. *)
Theorem addTag_deleteTag_roundtrip (tag : string) (tm : t) (rng : Rng)
    (cells : list VideoCell) :
  plain tag = true ->
  mapHas tag (tags tm) = false ->
  inSync tm ->
  Forall (fun c => dataTag c <> Some tag) cells ->
  deleteTag tag (addTag tag tm rng).1.2 cells = Some (Normal, tm, cells).
Proof.
  intros Hplain Hnew Hsync Hcells.
  pose proof (addTag_fresh_tags tag tm rng Hnew) as Htags.
  unfold deleteTag, deleteTagRegistry, stripMatching.
  rewrite (TagManagerFacts.readDataTagSelector_plain tag Hplain).
  rewrite Htags, mapDelete_app, (mapDelete_absent tag (tags tm))
    by (by apply mapHas_false).
  simpl. rewrite String.eqb_refl, app_nil_r.
  f_equal. f_equal; [f_equal |].
  - destruct tm as [m d]. unfold inSync in Hsync. simpl in *.
    unfold updateDropdown. simpl. by rewrite Hsync.
  - induction Hcells as [|c cs Hc _ IH]; simpl; [done |].
    rewrite IH. f_equal.
    destruct (hasDataTag tag c) eqn:E; [| done].
    apply TagManagerFacts.hasDataTag_true in E. done.
Qed.

Lemma addTag_deleteTag_roundtrip_witness :
  deleteTag "b" (addTag "b" (VideoGrid.tagManager Sample.oneTagged)
                   (Sample.rngConst 0)).1.2
    (VideoGrid.cells Sample.oneTagged)
  = Some (Normal, VideoGrid.tagManager Sample.oneTagged,
          VideoGrid.cells Sample.oneTagged).
Proof.
  apply (addTag_deleteTag_roundtrip "b" (VideoGrid.tagManager Sample.oneTagged)
           (Sample.rngConst 0) (VideoGrid.cells Sample.oneTagged)).
  - reflexivity.
  - reflexivity.
  - reflexivity.
  - vm_compute. repeat constructor; discriminate.
Defined.

(** For a draw in the range of [Math.random], from zero to the greatest
    binary64 number below one, the color [generatePastelColor] builds has
    the hue [floor (r * 360)], the product rounded to binary64; the hue is
    an integer from 0 to 359, the rounding never reaching 360; and exactly
    one draw is used up. *)
Theorem generatePastelColor_hue_range (rng : Rng) :
  (0 <= draws rng (drawn rng))%Q ->
  (draws rng (drawn rng) <= Binary64.belowOne)%Q ->
  exists hue : Z,
    hue = Qfloor (Binary64.roundBinary64 (draws rng (drawn rng) * 360))
    /\ (0 <= hue < 360)%Z
    /\ (generatePastelColor rng).1 = "hsl(" ++ showZ hue ++ ", 70%, 80%)"
    /\ drawn (generatePastelColor rng).2 = S (drawn rng).
Proof.
  intros Hlo Hhi. set (r := draws rng (drawn rng)) in *.
  exists (hueOf r). split; [reflexivity |]. split; [| split; reflexivity].
  destruct (Binary64Facts.roundBinary64_range r Hlo Hhi) as [H0 H360].
  unfold hueOf, Binary64.mul. split.
  - change 0%Z with (Qfloor 0). by apply Qfloor_resp_le.
  - rewrite Zlt_Qlt. eapply Qle_lt_trans; [apply Qfloor_le | exact H360].
Qed.

Lemma generatePastelColor_hue_range_witness :
  exists hue : Z,
    hue = Qfloor (Binary64.roundBinary64 ((1 # 2) * 360))
    /\ (0 <= hue < 360)%Z
    /\ (generatePastelColor (Sample.rngConst (1 # 2))).1
       = "hsl(" ++ showZ hue ++ ", 70%, 80%)"
    /\ drawn (generatePastelColor (Sample.rngConst (1 # 2))).2 = 1.
Proof.
  apply (generatePastelColor_hue_range (Sample.rngConst (1 # 2))).
  - vm_compute. discriminate.
  - vm_compute. discriminate.
Defined.

Lemma filterVideos_cell_twice (t1 t2 : string) (c : VideoCell) :
  (if String.eqb t2 "all"
      || hasDataTag t2 (if String.eqb t1 "all" || hasDataTag t1 c
                        then set_cellDisplay "" c else set_cellDisplay "none" c)
   then set_cellDisplay ""
          (if String.eqb t1 "all" || hasDataTag t1 c
           then set_cellDisplay "" c else set_cellDisplay "none" c)
   else set_cellDisplay "none"
          (if String.eqb t1 "all" || hasDataTag t1 c
           then set_cellDisplay "" c else set_cellDisplay "none" c))
  = (if String.eqb t2 "all" || hasDataTag t2 c
     then set_cellDisplay "" c else set_cellDisplay "none" c).
Proof.
  destruct (String.eqb t1 "all" || hasDataTag t1 c);
    change (hasDataTag t2 (set_cellDisplay _ c)) with (hasDataTag t2 c);
    by destruct (String.eqb t2 "all" || hasDataTag t2 c).
Qed.

(** Filters do not add up: after two calls of [filterVideos] the cells are
    as after the second alone, so ['all'] undoes any filter.  A filter
    changes nothing of a cell but its inline [display]. *)
Theorem filterVideos_last_wins (t1 t2 : string) (cells : list VideoCell) :
  filterVideos t2 (filterVideos t1 cells) = filterVideos t2 cells
  /\ filterVideos "all" (filterVideos t1 cells) = map (set_cellDisplay "") cells
  /\ Forall2 sameButDisplay cells (filterVideos t1 cells).
Proof.
  assert (Htwice : forall t, filterVideos t (filterVideos t1 cells)
                             = filterVideos t cells).
  { intros t. unfold filterVideos. rewrite map_map. apply map_ext.
    intros c. apply filterVideos_cell_twice. }
  split; [apply Htwice |]. split; [by rewrite Htwice |].
  clear Htwice. unfold filterVideos.
  induction cells as [|c cs IH]; simpl; [constructor |].
  constructor; [| exact IH].
  unfold sameButDisplay. by destruct (String.eqb t1 "all" || hasDataTag t1 c).
Qed.

(** Once [deleteTag] has taken the badge off a cell, the cell cannot be
    tagged again: every later [applyTag] on it sets the attribute and then
    throws a [TypeError], the badge being gone. *)
Theorem applyTag_after_deleteTag_throws (tag tag2 : string) (tm : t)
    (cells : list VideoCell) (i : nat) (c : VideoCell) :
  plain tag = true ->
  cells !! i = Some c ->
  dataTag c = Some tag ->
  exists tm' cells' c',
    deleteTag tag tm cells = Some (Normal, tm', cells')
    /\ cells' !! i = Some c'
    /\ dataTag c' = None
    /\ tagDisplay c' = None
    /\ applyTag tm' tag2 c'
       = (Throw (TypeError "tagDisplay is null"), set_dataTag (Some tag2) c').
Proof.
  intros Hplain Hc Htag. unfold deleteTag, stripMatching.
  rewrite (TagManagerFacts.readDataTagSelector_plain tag Hplain).
  eexists _, _, _. split; [reflexivity |].
  rewrite lookup_map, Hc. simpl.
  assert (Hhas : hasDataTag tag c = true)
    by (by apply TagManagerFacts.hasDataTag_true).
  rewrite Hhas. split; [reflexivity |]. done.
Qed.

Lemma applyTag_after_deleteTag_throws_witness :
  exists tm' cells' c',
    deleteTag "a" (VideoGrid.tagManager Sample.oneTagged)
      (VideoGrid.cells Sample.oneTagged) = Some (Normal, tm', cells')
    /\ cells' !! 0 = Some c'
    /\ dataTag c' = None
    /\ tagDisplay c' = None
    /\ applyTag tm' "b" c'
       = (Throw (TypeError "tagDisplay is null"), set_dataTag (Some "b") c').
Proof.
  exact (applyTag_after_deleteTag_throws "a" "b"
           (VideoGrid.tagManager Sample.oneTagged)
           (VideoGrid.cells Sample.oneTagged) 0 _ eq_refl eq_refl eq_refl).
Defined.

Lemma deleteTag_plain_tag_witness :
  exists tm' cells',
    deleteTag "a" (VideoGrid.tagManager Sample.oneTagged)
      (VideoGrid.cells Sample.oneTagged) = Some (Normal, tm', cells')
    /\ mapGet "a" (tags tm') = None
    /\ (forall other, other <> "a" ->
          mapGet other (tags tm')
          = mapGet other (tags (VideoGrid.tagManager Sample.oneTagged)))
    /\ length cells' = length (VideoGrid.cells Sample.oneTagged)
    /\ (forall i c, VideoGrid.cells Sample.oneTagged !! i = Some c ->
          cells' !! i =
            Some (if decide (dataTag c = Some "a")
                  then set_tagDisplay None (set_dataTag None c) else c)).
Proof.
  exact (TagManagerFacts.deleteTag_plain_tag "a"
           (VideoGrid.tagManager Sample.oneTagged)
           (VideoGrid.cells Sample.oneTagged) eq_refl).
Defined.

End TagManagerMore.

(** ** The grid controller *)

Module VideoGridMore.

Import VideoGrid Batch Relayout GridInv.

(** *** What a change of layout rebuilds *)

Lemma restoreFrom_beyond (tm : TagManager.t) (d : string)
    (states : list SavedState) :
  forall (index : nat) (cs : list VideoCell) (j : nat),
    index + length states <= j ->
    (restoreFrom tm d states index cs).2 !! j = cs !! j.
Proof.
  induction states as [|state rest IH]; intros index cs j Hj; simpl; [done |].
  simpl in Hj.
  destruct (cs !! index) as [cell|]; [| apply IH; lia].
  destruct (restoreCell tm d state cell) as [[|e] cell']; simpl.
  - rewrite IH by lia. apply list_lookup_insert_ne. lia.
  - apply list_lookup_insert_ne. lia.
Qed.

Lemma fresh_grid_lookup (n extra j : nat) :
  j < n + extra ->
  (map createVideoCell (seq 0 n) ++ map createVideoCell (seq n extra))%list
    !! j = Some (createVideoCell j).
Proof.
  intros Hj.
  destruct (Nat.lt_ge_cases j n) as [Hlt | Hge].
  - rewrite lookup_app_l by (by rewrite length_map, length_seq).
    by rewrite lookup_map, lookup_seq_lt.
  - rewrite lookup_app_r by (by rewrite length_map, length_seq).
    rewrite length_map, length_seq, lookup_map, lookup_seq_lt by lia.
    simpl. f_equal. f_equal. lia.
Qed.

(** The rebuilt grid, cell by cell: at a position where the old grid had a
    cell, that cell's saved state restored into a new cell; at any other
    position a new cell. *)
Lemma relayout_cells (cfg : Config) (l a : string) (g : t) (j : nat) (c' : VideoCell) :
  cells (relayout cfg l a g).2 !! j = Some c' ->
  c' = match saveVideoStates g !! j with
       | Some state =>
           (restoreCell (tagManager g) (documentURL g) state (createVideoCell j)).2
       | None => createVideoCell j
       end.
Proof.
  unfold relayout.
  set (g1 := set_layout l a g).
  set (lc := layoutConfigOf cfg g1).
  set (total := ceilDiv (filledCells g1) (columns lc) * columns lc).
  set (g2 := initGrid cfg (updateGridClass cfg g1)).
  set (g3 := if layoutCells lc <? total
             then setupScrollHandler
                    (set_isExtended true (extendGrid cfg (total - layoutCells lc) g2))
             else g2).
  assert (Hg3 : forall i, i < length (cells g3) ->
                          cells g3 !! i = Some (createVideoCell i)).
  { intros i. unfold g3. destruct (layoutCells lc <? total); simpl.
    - rewrite length_app, !length_map, !length_seq. apply fresh_grid_lookup.
    - rewrite length_map, length_seq. intros Hi.
      by rewrite lookup_map, lookup_seq_lt. }
  assert (Htm : tagManager g3 = tagManager g)
    by (unfold g3; by destruct (layoutCells lc <? total)).
  assert (Hurl : documentURL g3 = documentURL g)
    by (unfold g3; by destruct (layoutCells lc <? total)).
  destruct (VideoGridFacts.restoreFrom_fresh (tagManager g3) (documentURL g3)
              (saveVideoStates g) 0 (cells g3)) as (cs' & Hr & Hlen & _ & Hat).
  { intros i c _ Hc. rewrite (Hg3 i (lookup_lt_Some _ _ _ Hc)) in Hc.
    injection Hc as <-. reflexivity. }
  pose proof (restoreFrom_beyond (tagManager g3) (documentURL g3)
                (saveVideoStates g) 0 (cells g3) j) as Hbeyond.
  unfold restoreVideoStates. rewrite Hr in *. simpl in *.
  intros Hj. pose proof (lookup_lt_Some _ _ _ Hj) as Hlt. rewrite Hlen in Hlt.
  destruct (saveVideoStates g !! j) as [state|] eqn:Hstate.
  - rewrite (Hat j state (createVideoCell j)) in Hj;
      [| lia | by rewrite Nat.sub_0_r | by apply Hg3].
    rewrite Htm, Hurl in Hj. by injection Hj.
  - apply lookup_ge_None in Hstate.
    rewrite Hbeyond, Hg3 in Hj by lia. by injection Hj.
Qed.

Lemma toggle_is_relayout (cfg : Config) (g : t) (r : Completion * t) :
  r = toggleLayout cfg g \/ r = toggleAspectRatio cfg g ->
  exists l a, r = relayout cfg l a g.
Proof.
  intros [-> | ->];
    [rewrite VideoGridFacts.toggleLayout_relayout
    | rewrite VideoGridFacts.toggleAspectRatio_relayout];
    by eexists _, _.
Qed.

Lemma restoreCell_unloaded (tm : TagManager.t) (d : string) (state : SavedState)
    (j : nat) :
  truthy (savedSrc state) = false ->
  (restoreCell tm d state (createVideoCell j)).2 = createVideoCell j.
Proof. intros H. unfold restoreCell. by rewrite H. Qed.

Lemma restoreCell_keeps (tm : TagManager.t) (d : string) (state : SavedState)
    (j : nat) :
  let c' := (restoreCell tm d state (createVideoCell j)).2 in
  wellFormed c' /\ dataIndex c' = j /\ cellDisplay c' = ""
  /\ classDragging c' = false /\ classDragover c' = false.
Proof.
  unfold restoreCell, wellFormed.
  destruct (truthy (savedSrc state)) eqn:Hsrc; [| by simpl].
  pose proof (reflectURL_truthy d _ Hsrc) as Hurl.
  destruct (savedTag state) as [tag|]; [| simpl; by rewrite Hurl].
  destruct (truthy tag); simpl; by rewrite Hurl.
Qed.

(** After [toggleLayout] or [toggleAspectRatio] every cell is visible and
    without highlight, whatever filter or drag was under way; and at every
    position where the old grid had no cell, or a cell whose [src] reads as
    the empty string (a cell that never was assigned a source), the cell is
    exactly as [createVideoCell] makes it: a tag set on such a cell is
    gone. *)
Theorem toggle_resets_cells (cfg : Config) (g : t) (r : Completion * t)
    (j : nat) (c' : VideoCell) :
  r = toggleLayout cfg g \/ r = toggleAspectRatio cfg g ->
  cells r.2 !! j = Some c' ->
  visible c' = true
  /\ classDragging c' = false
  /\ classDragover c' = false
  /\ ((forall c, cells g !! j = Some c -> vsrc (video c) = "") ->
      c' = createVideoCell j /\ dataTag c' = None).
Proof.
  intros Hr Hj. destruct (toggle_is_relayout cfg g r Hr) as (l & a & ->).
  apply relayout_cells in Hj.
  destruct (saveVideoStates g !! j) as [state|] eqn:Hstate.
  - destruct (restoreCell_keeps (tagManager g) (documentURL g) state j)
      as (_ & _ & Hd & Hdg & Hdo).
    rewrite <- Hj in Hd, Hdg, Hdo.
    split; [unfold visible; by rewrite Hd |]. split; [done |]. split; [done |].
    intros Hold. unfold saveVideoStates in Hstate. rewrite lookup_map in Hstate.
    destruct (cells g !! j) as [c|]; [| discriminate].
    injection Hstate as <-. rewrite restoreCell_unloaded in Hj.
    + by subst c'.
    + simpl. by rewrite (Hold c eq_refl).
  - by subst c'.
Qed.

Lemma toggle_resets_cells_witness :
  (dataTag <$> cells Sample.taggedEmpty !! 0) = Some (Some "a")
  /\ exists c',
       cells (toggleLayout Sample.config Sample.taggedEmpty).2 !! 0 = Some c'
       /\ visible c' = true
       /\ c' = createVideoCell 0 /\ dataTag c' = None.
Proof.
  split; [reflexivity |].
  eexists. split; [reflexivity |].
  destruct (toggle_resets_cells Sample.config Sample.taggedEmpty
              _ 0 _ (or_introl eq_refl) eq_refl) as (Hv & _ & _ & Hfresh).
  split; [exact Hv |]. apply Hfresh.
  intros c Hc. vm_compute in Hc. injection Hc as <-. reflexivity.
Defined.

(** *** The shape of the cells is kept *)

Lemma wellFormed_core (c c' : VideoCell) :
  core c' = core c -> wellFormed c -> wellFormed c'.
Proof.
  unfold core, wellFormed. intros [= _ -> -> -> ->]. done.
Qed.

Lemma createVideoCell_ok (j : nat) :
  wellFormed (createVideoCell j) /\ dataIndex (createVideoCell j) = j.
Proof. by split. Qed.

Lemma initGrid_lookup (cfg : Config) (g : t) (i : nat) (c : VideoCell) :
  cells (initGrid cfg g) !! i = Some c -> c = createVideoCell i.
Proof.
  unfold initGrid. simpl. rewrite lookup_map.
  destruct (seq 0 _ !! i) as [k|] eqn:Hk; [| discriminate].
  apply lookup_seq in Hk as [-> _]. by intros [= <-].
Qed.

Lemma extendGrid_gridOk (cfg : Config) (n : nat) (g : t) :
  gridOk g -> gridOk (extendGrid cfg n g).
Proof.
  intros Hok i c Hc. destruct (VideoGridFacts.extendGrid_lookup cfg n g i c Hc) as [H | [_ ->]].
  - by apply Hok.
  - apply createVideoCell_ok.
Qed.

Lemma loadIntoCell_ok (d : string) (n : nat) (c : VideoCell) :
  wellFormed (loadIntoCell d ("blob:" ++ showNat n) c)
  /\ dataIndex (loadIntoCell d ("blob:" ++ showNat n) c) = dataIndex c.
Proof. by split. Qed.

Lemma addVideoToCell_gridOk (cfg : Config) (cell : nat) (file : File) (g : t) :
  gridOk g -> gridOk (addVideoToCell cfg cell file g).2.
Proof.
  intros Hok. unfold addVideoToCell.
  destruct (negb (includes (ftype file) safeVideoTypes)); [exact Hok |].
  destruct (negb (includes (ftype file) (supportedFormats cfg))); [exact Hok |].
  destruct (MAX_FILE_SIZE <? fsize file)%N; [exact Hok |].
  intros i c. simpl.
  destruct (decide (cell = i)) as [-> | Hne].
  - rewrite list_lookup_alter_eq.
    destruct (cells g !! i) as [c0|] eqn:Hc0; [| discriminate].
    intros [= <-]. destruct (Hok i c0 Hc0) as [_ Hidx].
    destruct (loadIntoCell_ok (documentURL g) (objectURLs g) c0) as [Hwf Hd].
    split; [exact Hwf | by rewrite Hd].
  - rewrite list_lookup_alter_ne by done. apply Hok.
Qed.

Lemma addEachFile_gridOk (cfg : Config) (empties : list nat) (files : list File) :
  forall (idx : Z) (g : t),
    gridOk g -> gridOk (addEachFile cfg empties files idx g).2.
Proof.
  induction files as [|file rest IH]; intros idx g Hok; simpl; [exact Hok |].
  destruct (String.prefix "video/" (ftype file)); [| by apply IH].
  destruct ((0 <=? idx)%Z && (idx <? Z.of_nat (length empties))%Z); [| by apply IH].
  destruct (empties !! Z.to_nat idx) as [cell|]; [| by apply IH].
  pose proof (addVideoToCell_gridOk cfg cell file g Hok) as Hok'.
  destruct (addVideoToCell cfg cell file g) as [[|e] g']; simpl in *.
  - by apply IH.
  - exact Hok'.
Qed.

Lemma addMultipleVideos_gridOk (cfg : Config) (files : list File) (startCell : nat)
    (g : t) :
  gridOk g -> gridOk (addMultipleVideos cfg files startCell g).2.
Proof.
  intros Hok. unfold addMultipleVideos.
  destruct (_ <? _)%Z; apply addEachFile_gridOk; [| exact Hok].
  exact (extendGrid_gridOk cfg (length files) g Hok).
Qed.

Lemma relayout_gridOk (cfg : Config) (l a : string) (g : t) :
  gridOk (relayout cfg l a g).2.
Proof.
  intros j c' Hj. apply relayout_cells in Hj. subst c'.
  destruct (saveVideoStates g !! j) as [state|].
  - destruct (restoreCell_keeps (tagManager g) (documentURL g) state j)
      as (Hwf & Hidx & _).
    by split.
  - apply createVideoCell_ok.
Qed.

Lemma applyCellState_ok (d : string) (source target : VideoCell) :
  wellFormed target ->
  classEmpty target = false ->
  wellFormed (applyCellState d (getCellState target) source)
  /\ dataIndex (applyCellState d (getCellState target) source) = dataIndex source.
Proof.
  unfold wellFormed, applyCellState, getCellState. simpl.
  intros Hwf He. rewrite He in *. destruct Hwf as (Hsrc & _).
  destruct (negb (paused (video target))); simpl;
    by rewrite (reflectURL_truthy d _ Hsrc).
Qed.

Lemma reflectURL_self (d : string) : reflectURL d d = d.
Proof. unfold reflectURL. by destruct (String.eqb_spec d ""). Qed.

Lemma applyCellState_okIn (d : string) (source target : VideoCell) :
  wellFormedIn d target ->
  wellFormedIn d (applyCellState d (getCellState target) source)
  /\ dataIndex (applyCellState d (getCellState target) source) = dataIndex source.
Proof.
  unfold wellFormedIn, applyCellState, getCellState. simpl.
  destruct (classEmpty target); simpl.
  - intros ([-> | ->] & _); (split; [| done]);
      (split; [right | done]); [reflexivity | apply reflectURL_self].
  - intros (Hsrc & _). destruct (negb (paused (video target))); simpl;
      by rewrite (reflectURL_truthy d _ Hsrc).
Qed.

Lemma wellFormed_In (d : string) (c : VideoCell) :
  wellFormed c -> wellFormedIn d c.
Proof.
  unfold wellFormed, wellFormedIn. destruct (classEmpty c); [| done].
  intros (-> & ? & ? & ?). split; [by left | done].
Qed.

Lemma gridOk_In (g : t) : gridOk g -> gridOkIn g.
Proof.
  intros Hok i c Hc. destruct (Hok i c Hc) as [Hwf Hidx].
  split; [by apply wellFormed_In | exact Hidx].
Qed.

Lemma wellFormedIn_core (d : string) (c c' : VideoCell) :
  core c' = core c -> wellFormedIn d c -> wellFormedIn d c'.
Proof.
  unfold core, wellFormedIn. intros [= _ -> -> -> ->]. done.
Qed.

(** The two cells the [drop] listener writes, up to tags, badges and the
    classes of the drag. *)
Lemma drop_form (g : t) (si ti : nat) (source target : VideoCell) :
  dragSource g = Some si ->
  ti <> si ->
  cells g !! si = Some source ->
  cells g !! ti = Some target ->
  exists source' target',
    cells (drop (Some ti) g) = <[ti := target']> (<[si := source']> (cells g))
    /\ core source' = core (applyCellState (documentURL g) (getCellState target) source)
    /\ core target' = core (applyCellState (documentURL g) (getCellState source) target).
Proof.
  intros Hdrag Hne Hs Ht. unfold drop. rewrite Hdrag, Hs, Ht.
  apply Nat.eqb_neq in Hne as Hneb. rewrite Hneb.
  set (d := documentURL g).
  assert (Hcore : forall st c, core (applyCellState d st c)
                               = (dataIndex c, stateIsEmpty st,
                                  video (applyCellState d st c),
                                  containerDisplay (applyCellState d st c),
                                  buttonDisplay (applyCellState d st c))).
  { intros st c. unfold core, applyCellState.
    destruct (stateIsEmpty st); [done |]. by destruct (stateIsPlaying st). }
  match goal with
  | |- context [let '(a, b) := ?p in _] => destruct p as [source3 target3] eqn:Hswap
  end.
  eexists _, _. split; [reflexivity |].
  destruct (truthyAttr (dataTag target)), (truthyAttr (dataTag source));
    match type of Hswap with
    | match ?x with _ => _ end = _ => destruct x as [sd|]
    end;
    try match type of Hswap with
        | match ?x with _ => _ end = _ => destruct x as [td|]
        end;
    injection Hswap as <- <-; split; reflexivity.
Qed.

(** The guards of the [drop] listener: either nothing happens, or the two
    cells of [drop_form] are written. *)
Lemma drop_cases (target : option nat) (g : t) :
  drop target g = g
  \/ exists si ti source targetCell,
       target = Some ti /\ dragSource g = Some si /\ ti <> si
       /\ cells g !! si = Some source /\ cells g !! ti = Some targetCell.
Proof.
  unfold drop.
  destruct target as [ti|]; [| by left].
  destruct (dragSource g) as [si|] eqn:Hd; [| by left].
  destruct (Nat.eqb_spec ti si) as [|Hne]; [by left |].
  destruct (cells g !! si) as [s|] eqn:Hs; [| by left].
  destruct (cells g !! ti) as [t|] eqn:Ht; [| by left].
  right. by exists si, ti, s, t.
Qed.

Lemma drop_documentURL (target : option nat) (g : t) :
  documentURL (drop target g) = documentURL g.
Proof.
  unfold drop.
  destruct target as [ti|]; [| done].
  destruct (dragSource g) as [si|]; [| done].
  destruct (ti =? si); [done |].
  destruct (cells g !! si) as [s|]; [| done].
  destruct (cells g !! ti) as [t|]; [| done].
  by destruct (match tagDisplay _ with Some _ => _ | None => _ end).
Qed.

Lemma drop_gridOk (target : option nat) (g : t) :
  gridOk g -> swapsLoaded target g -> gridOk (drop target g).
Proof.
  intros Hok Hloaded.
  destruct (drop_cases target g) as [-> | (si & ti & s & t & -> & Hd & Hne & Hs & Ht)];
    [exact Hok |].
  destruct (Hloaded ti si s t eq_refl Hd Hs Ht) as [Hes Het].
  destruct (drop_form g si ti s t Hd Hne Hs Ht) as (s' & t' & Hcells & Hcs & Hct).
  intros i c. rewrite Hcells.
  destruct (Hok si s Hs) as [Hwfs His]. destruct (Hok ti t Ht) as [Hwft Hit].
  destruct (applyCellState_ok (documentURL g) s t Hwft Het) as [Hwf1 Hi1].
  destruct (applyCellState_ok (documentURL g) t s Hwfs Hes) as [Hwf2 Hi2].
  destruct (decide (i = ti)) as [-> | Hti].
  - rewrite list_lookup_insert_eq
      by (rewrite length_insert; by eapply lookup_lt_Some).
    intros [= <-]. split; [by eapply wellFormed_core |].
    injection Hct as -> _ _ _ _. congruence.
  - rewrite list_lookup_insert_ne by done.
    destruct (decide (i = si)) as [-> | Hsi].
    + rewrite list_lookup_insert_eq by (by eapply lookup_lt_Some).
      intros [= <-]. split; [by eapply wellFormed_core |].
      injection Hcs as -> _ _ _ _. congruence.
    + rewrite list_lookup_insert_ne by done. apply Hok.
Qed.

Lemma drop_gridOkIn (target : option nat) (g : t) :
  gridOkIn g -> gridOkIn (drop target g).
Proof.
  intros Hok.
  destruct (drop_cases target g) as [-> | (si & ti & s & t & -> & Hd & Hne & Hs & Ht)];
    [exact Hok |].
  destruct (drop_form g si ti s t Hd Hne Hs Ht) as (s' & t' & Hcells & Hcs & Hct).
  intros i c. rewrite drop_documentURL, Hcells.
  destruct (Hok si s Hs) as [Hwfs His]. destruct (Hok ti t Ht) as [Hwft Hit].
  destruct (applyCellState_okIn (documentURL g) s t Hwft) as [Hwf1 Hi1].
  destruct (applyCellState_okIn (documentURL g) t s Hwfs) as [Hwf2 Hi2].
  destruct (decide (i = ti)) as [-> | Hti].
  - rewrite list_lookup_insert_eq
      by (rewrite length_insert; by eapply lookup_lt_Some).
    intros [= <-]. split; [by eapply wellFormedIn_core |].
    injection Hct as -> _ _ _ _. congruence.
  - rewrite list_lookup_insert_ne by done.
    destruct (decide (i = si)) as [-> | Hsi].
    + rewrite list_lookup_insert_eq by (by eapply lookup_lt_Some).
      intros [= <-]. split; [by eapply wellFormedIn_core |].
      injection Hcs as -> _ _ _ _. congruence.
    + rewrite list_lookup_insert_ne by done. apply Hok.
Qed.

Lemma dragstart_gridOk (target : option nat) (g : t) :
  gridOk g -> gridOk (dragstart target g).
Proof.
  intros Hok. unfold dragstart.
  destruct target as [i|]; [| exact Hok].
  destruct (cells g !! i) as [cell|] eqn:Hcell; [| exact Hok].
  destruct (negb (truthy (vsrc (video cell)))); [exact Hok |].
  intros j c. simpl.
  destruct (decide (j = i)) as [-> | Hne].
  - rewrite list_lookup_insert_eq by (by eapply lookup_lt_Some).
    intros [= <-]. destruct (Hok i cell Hcell) as [Hwf Hidx]. by split.
  - rewrite list_lookup_insert_ne by done. apply Hok.
Qed.

Lemma dragstart_gridOkIn (target : option nat) (g : t) :
  gridOkIn g -> gridOkIn (dragstart target g).
Proof.
  intros Hok. unfold dragstart.
  destruct target as [i|]; [| exact Hok].
  destruct (cells g !! i) as [cell|] eqn:Hcell; [| exact Hok].
  destruct (negb (truthy (vsrc (video cell)))); [exact Hok |].
  intros j c. simpl.
  destruct (decide (j = i)) as [-> | Hne].
  - rewrite list_lookup_insert_eq by (by eapply lookup_lt_Some).
    intros [= <-]. destruct (Hok i cell Hcell) as [Hwf Hidx]. by split.
  - rewrite list_lookup_insert_ne by done. apply Hok.
Qed.

Lemma addVideoToCell_gridOkIn (cfg : Config) (cell : nat) (file : File) (g : t) :
  gridOkIn g -> gridOkIn (addVideoToCell cfg cell file g).2.
Proof.
  intros Hok. unfold addVideoToCell.
  destruct (negb (includes (ftype file) safeVideoTypes)); [exact Hok |].
  destruct (negb (includes (ftype file) (supportedFormats cfg))); [exact Hok |].
  destruct (MAX_FILE_SIZE <? fsize file)%N; [exact Hok |].
  intros i c. simpl.
  destruct (decide (cell = i)) as [-> | Hne].
  - rewrite list_lookup_alter_eq.
    destruct (cells g !! i) as [c0|] eqn:Hc0; [| discriminate].
    intros [= <-]. destruct (Hok i c0 Hc0) as [_ Hidx].
    destruct (loadIntoCell_ok (documentURL g) (objectURLs g) c0) as [Hwf Hd].
    split; [by apply wellFormed_In | by rewrite Hd].
  - rewrite list_lookup_alter_ne by done. apply Hok.
Qed.

Lemma addEachFile_gridOkIn (cfg : Config) (empties : list nat) (files : list File) :
  forall (idx : Z) (g : t),
    gridOkIn g -> gridOkIn (addEachFile cfg empties files idx g).2.
Proof.
  induction files as [|file rest IH]; intros idx g Hok; simpl; [exact Hok |].
  destruct (String.prefix "video/" (ftype file)); [| by apply IH].
  destruct ((0 <=? idx)%Z && (idx <? Z.of_nat (length empties))%Z); [| by apply IH].
  destruct (empties !! Z.to_nat idx) as [cell|]; [| by apply IH].
  pose proof (addVideoToCell_gridOkIn cfg cell file g Hok) as Hok'.
  destruct (addVideoToCell cfg cell file g) as [[|e] g']; simpl in *.
  - by apply IH.
  - exact Hok'.
Qed.

Lemma extendGrid_gridOkIn (cfg : Config) (n : nat) (g : t) :
  gridOkIn g -> gridOkIn (extendGrid cfg n g).
Proof.
  intros Hok i c Hc. destruct (VideoGridFacts.extendGrid_lookup cfg n g i c Hc) as [H | [_ ->]].
  - by apply Hok.
  - split; [apply wellFormed_In |]; apply createVideoCell_ok.
Qed.

Lemma addMultipleVideos_gridOkIn (cfg : Config) (files : list File) (startCell : nat)
    (g : t) :
  gridOkIn g -> gridOkIn (addMultipleVideos cfg files startCell g).2.
Proof.
  intros Hok. unfold addMultipleVideos.
  destruct (_ <? _)%Z; apply addEachFile_gridOkIn; [| exact Hok].
  exact (extendGrid_gridOkIn cfg (length files) g Hok).
Qed.

(** Every cell of the grid stays well formed and keeps its position as
    [data-index]: marked empty with no source, the add button shown and the
    video hidden, or not marked empty with a source, the video shown and the
    button hidden.  This holds of the grid as constructed and after both
    toggles whatever the grid was, and is kept by [addMultipleVideos] (also
    when it throws), by [dragstart], and by a [drop] between two cells that
    hold a video.  A [drop] that involves an empty cell assigns the empty
    string to the [src] of a video, which then reads as the URL of the
    document: with that one exception admitted for the cells marked empty,
    the invariant is kept by [addMultipleVideos], by [dragstart] and by
    every [drop]. *)
Theorem grid_cells_stay_well_formed (cfg : Config) (g : t) (files : list File)
    (startCell : nat) (target : option nat) :
  gridOk (VideoGrid.new cfg)
  /\ gridOk (toggleLayout cfg g).2
  /\ gridOk (toggleAspectRatio cfg g).2
  /\ (gridOk g ->
      gridOk (addMultipleVideos cfg files startCell g).2
      /\ gridOk (dragstart target g)
      /\ (swapsLoaded target g -> gridOk (drop target g))
      /\ gridOkIn g)
  /\ (gridOkIn g ->
      gridOkIn (addMultipleVideos cfg files startCell g).2
      /\ gridOkIn (dragstart target g)
      /\ gridOkIn (drop target g)).
Proof.
  split; [| split; [| split; [| split]]].
  - intros i c Hc. apply initGrid_lookup in Hc. subst c. apply createVideoCell_ok.
  - rewrite VideoGridFacts.toggleLayout_relayout. apply relayout_gridOk.
  - rewrite VideoGridFacts.toggleAspectRatio_relayout. apply relayout_gridOk.
  - intros Hok. split; [by apply addMultipleVideos_gridOk |].
    split; [by apply dragstart_gridOk |].
    split; [by apply drop_gridOk | by apply gridOk_In].
  - intros Hok. split; [by apply addMultipleVideos_gridOkIn |].
    split; [by apply dragstart_gridOkIn | by apply drop_gridOkIn].
Qed.

Lemma grid_cells_stay_well_formed_witness :
  gridOk (drop (Some 1)
            (dragstart (Some 0)
               (addMultipleVideos Sample.config [Sample.mp4; Sample.mp4] 0
                  Sample.emptyGrid).2))
  /\ gridOkIn (addMultipleVideos Sample.config [Sample.quicktime; Sample.mp4] 1
                 (drop (Some 1) (dragstart (Some 0) Sample.oneVideo))).2.
Proof.
  destruct (grid_cells_stay_well_formed Sample.config Sample.emptyGrid
              [Sample.mp4; Sample.mp4] 0 None) as (H0 & _ & _ & Hstep0 & _).
  destruct (Hstep0 H0) as (H1 & _ & _ & _).
  split.
  - destruct (grid_cells_stay_well_formed Sample.config
                (addMultipleVideos Sample.config [Sample.mp4; Sample.mp4] 0
                   Sample.emptyGrid).2 [] 0 (Some 0)) as (_ & _ & _ & Hstep1 & _).
    destruct (Hstep1 H1) as (_ & H2 & _ & _).
    destruct (grid_cells_stay_well_formed Sample.config
                (dragstart (Some 0)
                   (addMultipleVideos Sample.config [Sample.mp4; Sample.mp4] 0
                      Sample.emptyGrid).2) [] 0 (Some 1))
      as (_ & _ & _ & Hstep2 & _).
    destruct (Hstep2 H2) as (_ & _ & H3 & _).
    apply H3.
    intros ti si source targetCell [= <-] Hsi Hs Ht.
    vm_compute in Hsi. injection Hsi as <-.
    vm_compute in Hs, Ht. injection Hs as <-. injection Ht as <-.
    split; reflexivity.
  - destruct (grid_cells_stay_well_formed Sample.config Sample.emptyGrid
                [Sample.mp4] 0 None) as (_ & _ & _ & Hstep1 & _).
    destruct (Hstep1 H0) as (H1' & _ & _ & _).
    destruct (grid_cells_stay_well_formed Sample.config Sample.oneVideo
                [] 0 (Some 0)) as (_ & _ & _ & Hstep2 & _).
    destruct (Hstep2 H1') as (_ & H2 & _ & _).
    destruct (grid_cells_stay_well_formed Sample.config
                (dragstart (Some 0) Sample.oneVideo) [] 0 (Some 1))
      as (_ & _ & _ & Hstep3 & Hin3).
    destruct (Hstep3 H2) as (_ & _ & _ & H3).
    destruct (Hin3 H3) as (_ & _ & H4).
    destruct (grid_cells_stay_well_formed Sample.config
                (drop (Some 1) (dragstart (Some 0) Sample.oneVideo))
                [Sample.quicktime; Sample.mp4] 1 (Some 1))
      as (_ & _ & _ & _ & Hin4).
    exact (proj1 (Hin4 H4)).
Defined.

(** *** What loading a batch leaves alone *)

Lemma addVideoToCell_other (cfg : Config) (cell : nat) (file : File) (g : t) (i : nat) :
  i <> cell -> cells (addVideoToCell cfg cell file g).2 !! i = cells g !! i.
Proof.
  intros Hne. unfold addVideoToCell.
  destruct (negb (includes (ftype file) safeVideoTypes)); [done |].
  destruct (negb (includes (ftype file) (supportedFormats cfg))); [done |].
  destruct (MAX_FILE_SIZE <? fsize file)%N; [done |].
  simpl. by apply list_lookup_alter_ne.
Qed.

Lemma addEachFile_other (cfg : Config) (empties : list nat) (files : list File) (i : nat) :
  ~ In i empties ->
  forall (idx : Z) (g : t),
    cells (addEachFile cfg empties files idx g).2 !! i = cells g !! i.
Proof.
  intros Hi. induction files as [|file rest IH]; intros idx g; simpl; [done |].
  destruct (String.prefix "video/" (ftype file)); [| apply IH].
  destruct ((0 <=? idx)%Z && (idx <? Z.of_nat (length empties))%Z); [| apply IH].
  destruct (empties !! Z.to_nat idx) as [cell|] eqn:Hcell; [| apply IH].
  assert (Hne : i <> cell).
  { intros ->. apply Hi. apply list_elem_of_In. by eapply list_elem_of_lookup_2. }
  pose proof (addVideoToCell_other cfg cell file g i Hne) as Hsame.
  destruct (addVideoToCell cfg cell file g) as [[|e] g']; simpl in *.
  - by rewrite IH.
  - exact Hsame.
Qed.

(** Loading a batch never touches a cell that holds a video and never
    removes a cell, whatever the files are and also when the batch is
    aborted by an error: every loaded cell is afterwards at its position
    exactly as it was. *)
Theorem addMultipleVideos_keeps_loaded_cells (cfg : Config) (files : list File)
    (startCell : nat) (g : t) (i : nat) (c : VideoCell) :
  cells g !! i = Some c ->
  classEmpty c = false ->
  cells (addMultipleVideos cfg files startCell g).2 !! i = Some c
  /\ length (cells g) <= length (cells (addMultipleVideos cfg files startCell g).2).
Proof.
  intros Hc Hloaded.
  assert (Hnot : forall g1, cells g1 !! i = Some c -> ~ In i (emptyCells g1)).
  { intros g1 Hc1 Hin. apply VideoGridFacts.emptyCellsFrom_bounds in Hin
      as [_ (c0 & Hc0 & He)].
    rewrite Nat.sub_0_r, Hc1 in Hc0. injection Hc0 as <-. congruence. }
  unfold addMultipleVideos.
  destruct (_ <? _)%Z.
  - set (g1 := setupScrollHandler
                 (set_isExtended true (extendGrid cfg (length files) g))).
    assert (Hc1 : cells g1 !! i = Some c) by (by apply lookup_app_l_Some).
    rewrite addEachFile_other by (by apply Hnot).
    split; [exact Hc1 |].
    destruct (VideoGridFacts.addEachFile_shape cfg (emptyCells g1) files
                (indexOf startCell (emptyCells g)) g1) as (-> & _).
    simpl. rewrite length_app. lia.
  - rewrite addEachFile_other by (by apply Hnot).
    split; [exact Hc |].
    destruct (VideoGridFacts.addEachFile_shape cfg (emptyCells g) files
                (indexOf startCell (emptyCells g)) g) as (-> & _).
    done.
Qed.

Lemma addMultipleVideos_keeps_loaded_cells_witness :
  (fun c => vsrc (video c))
    <$> cells (addMultipleVideos Sample.config
                 [Sample.quicktime; Sample.mp4] 1 Sample.oneVideo).2 !! 0
  = Some "blob:0".
Proof.
  rewrite (proj1 (addMultipleVideos_keeps_loaded_cells Sample.config
                    [Sample.quicktime; Sample.mp4] 1 Sample.oneVideo 0 _
                    eq_refl eq_refl)).
  reflexivity.
Defined.

(** *** How many cells are loaded after a batch *)

Lemma filled_alter (f : VideoCell -> VideoCell) (cs : list VideoCell) :
  forall (i : nat) (c : VideoCell),
    cs !! i = Some c -> classEmpty c = true -> classEmpty (f c) = false ->
    length (filter (fun c => classEmpty c = false) (alter f i cs))
    = S (length (filter (fun c => classEmpty c = false) cs)).
Proof.
  induction cs as [|x cs IH]; intros [|i] c Hc He Hf; simpl in *; try done.
  - injection Hc as ->.
    rewrite filter_cons_True by done.
    rewrite (filter_cons_False _ c) by (by rewrite He). done.
  - destruct (decide (classEmpty x = false)) as [Hx | Hx].
    + rewrite !filter_cons_True by done. simpl. f_equal. by eapply IH.
    + rewrite !filter_cons_False by done. by eapply IH.
Qed.

Lemma filled_fresh (start len : nat) :
  filter (fun c => classEmpty c = false) (map createVideoCell (seq start len)) = [].
Proof.
  revert start. induction len as [|len IH]; intros start; simpl; [done |].
  rewrite filter_cons_False by done. apply IH.
Qed.

Lemma addEachFile_count (cfg : Config) (empties : list nat) :
  NoDup empties ->
  forall (files : list File) (n : nat) (g : t),
    (forall f, In f files -> offList f = false) ->
    n + length (filter (fun f => isVideo f = true) files) <= length empties ->
    (forall k cell, n <= k -> empties !! k = Some cell ->
       exists c, cells g !! cell = Some c /\ classEmpty c = true) ->
    filledCells (addEachFile cfg empties files (Z.of_nat n) g).2
    = filledCells g + length (filter (fun f => valid cfg f = true) files).
Proof.
  intros Hnd. induction files as [|file rest IH]; intros n g Hoff Hroom Hempty.
  { simpl. lia. }
  assert (Hoff' : forall f, In f rest -> offList f = false)
    by (intros f Hf; apply Hoff; by right).
  simpl addEachFile. change (String.prefix "video/" (ftype file)) with (isVideo file).
  destruct (isVideo file) eqn:Hv.
  - rewrite filter_cons_True in Hroom by done. simpl in Hroom.
    assert (Hn : n < length empties) by lia.
    replace ((0 <=? Z.of_nat n)%Z && (Z.of_nat n <? Z.of_nat (length empties))%Z)
      with true
      by (symmetry; apply andb_true_iff; split;
          [apply Z.leb_le | apply Z.ltb_lt]; lia).
    rewrite Nat2Z.id.
    destruct (lookup_lt_is_Some_2 empties n Hn) as [cell Hcell].
    rewrite Hcell.
    pose proof (VideoGridFacts.offList_false_onList file Hv
                  (Hoff file (or_introl eq_refl))) as Hsafe.
    destruct (VideoGridFacts.addVideoToCell_onList cfg cell file g Hv Hsafe)
      as (g' & -> & _ & Hload).
    replace (Z.of_nat n + 1)%Z with (Z.of_nat (S n)) by lia.
    destruct (Hempty n cell (le_n _) Hcell) as (c0 & Hc0 & He0).
    assert (Hlater : forall k cell', S n <= k -> empties !! k = Some cell' ->
                                     cell' <> cell).
    { intros k cell' Hk Hk' ->.
      pose proof (NoDup_lookup _ _ _ _ Hnd Hcell Hk'). lia. }
    rewrite IH; [| exact Hoff' | lia |].
    + destruct (valid cfg file) eqn:Hvalid.
      * rewrite filter_cons_True by done. destruct Hload as [Hcs _].
        unfold filledCells. rewrite Hcs.
        rewrite (filled_alter _ (cells g) cell c0 Hc0 He0) by done.
        simpl. lia.
      * rewrite filter_cons_False by (by rewrite Hvalid).
        destruct Hload as [Hcs _]. unfold filledCells. by rewrite Hcs.
    + intros k cell' Hk Hk'.
      destruct (Hempty k cell' ltac:(lia) Hk') as (c1 & Hc1 & He1).
      exists c1. split; [| done].
      destruct (valid cfg file); destruct Hload as [-> _]; [| done].
      rewrite list_lookup_alter_ne; [done |].
      intros Heq. by apply (Hlater k cell' Hk Hk').
  - rewrite filter_cons_False in Hroom by (by rewrite Hv).
    rewrite IH by done.
    rewrite (filter_cons_False (fun f => valid cfg f = true))
      by (unfold valid; by rewrite Hv).
    done.
Qed.

Lemma emptyCells_are_empty (g : t) (k cell : nat) :
  emptyCells g !! k = Some cell ->
  exists c, cells g !! cell = Some c /\ classEmpty c = true.
Proof.
  intros Hk. apply list_elem_of_lookup_2, list_elem_of_In in Hk.
  destruct (VideoGridFacts.emptyCellsFrom_bounds _ _ _ Hk) as [_ (c & Hc & He)].
  rewrite Nat.sub_0_r in Hc. by exists c.
Qed.

(** A batch dropped on an empty cell, with no video type outside the white
    list in it, loads exactly its valid files: the number of loaded cells
    goes up by the number of valid files. *)
Theorem addMultipleVideos_loads_each_valid_file (cfg : Config)
    (files : list File) (startCell : nat) (g : t) :
  0 < columns (layoutConfigOf cfg g) ->
  In startCell (emptyCells g) ->
  (forall f, In f files -> offList f = false) ->
  filledCells (addMultipleVideos cfg files startCell g).2
  = filledCells g + length (filter (fun f => valid cfg f = true) files).
Proof.
  intros Hcols Hstart Hoff. unfold addMultipleVideos.
  pose proof (VideoGridFacts.indexOfFrom_In _ _ Hstart 0%Z) as Hidx.
  fold (indexOf startCell (emptyCells g)) in Hidx.
  pose proof (VideoGridFacts.indexOf_range _ _ Hidx) as Hlt.
  set (idx := indexOf startCell (emptyCells g)) in *.
  assert (Hn : idx = Z.of_nat (Z.to_nat idx)) by lia.
  pose proof (length_filter (fun f => isVideo f = true) files) as Hvideos.
  destruct (Z.of_nat (length (emptyCells g)) <? idx + Z.of_nat (length files))%Z eqn:Hcmp.
  - set (g1 := setupScrollHandler (set_isExtended true (extendGrid cfg (length files) g))).
    assert (Hempties : length (emptyCells g1)
                       = length (emptyCells g)
                         + ceilDiv (length files) (columns (layoutConfigOf cfg g))
                           * columns (layoutConfigOf cfg g)).
    { unfold emptyCells, g1. simpl.
      by rewrite VideoGridFacts.emptyCellsFrom_app, length_app,
        VideoGridFacts.emptyCellsFrom_fresh. }
    pose proof (ceilDiv_enough (length files) _ Hcols) as Henough.
    rewrite Hn.
    rewrite (addEachFile_count cfg (emptyCells g1)
               (VideoGridFacts.emptyCellsFrom_NoDup _ _) files (Z.to_nat idx) g1 Hoff)
      by (lia || (intros k cell _; apply emptyCells_are_empty)).
    f_equal. unfold filledCells, g1. simpl.
    by rewrite filter_app, filled_fresh, app_nil_r.
  - apply Z.ltb_ge in Hcmp. rewrite Hn.
    apply (addEachFile_count cfg (emptyCells g)
             (VideoGridFacts.emptyCellsFrom_NoDup _ _) files (Z.to_nat idx) g Hoff).
    + lia.
    + intros k cell _. apply emptyCells_are_empty.
Qed.

Lemma addMultipleVideos_loads_each_valid_file_witness :
  filledCells (addMultipleVideos Sample.config
                 [Sample.png; Sample.hugeMp4; Sample.mp4; Sample.mp4] 1
                 Sample.oneVideo).2
  = 1 + 2.
Proof.
  apply (addMultipleVideos_loads_each_valid_file Sample.config
           [Sample.png; Sample.hugeMp4; Sample.mp4; Sample.mp4] 1 Sample.oneVideo).
  - vm_compute. lia.
  - vm_compute. auto.
  - intros f [<- | [<- | [<- | [<- | []]]]]; reflexivity.
Defined.

(** *** The scroll bar *)

Lemma relayout_fields (cfg : Config) (l a : string) (g : t) :
  currentLayout (relayout cfg l a g).2 = l
  /\ currentAspectRatio (relayout cfg l a g).2 = a
  /\ (isExtended (relayout cfg l a g).2 = true
      /\ overflowY (relayout cfg l a g).2 = "scroll"
      \/ isExtended (relayout cfg l a g).2 = isExtended g
         /\ overflowY (relayout cfg l a g).2 = overflowY g)
  /\ shownErrors (relayout cfg l a g).2 = shownErrors g
  /\ objectURLs (relayout cfg l a g).2 = objectURLs g.
Proof.
  unfold relayout, restoreVideoStates.
  match goal with
  | |- context [restoreFrom ?tm ?d ?st 0 ?cs] =>
      destruct (restoreFrom tm d st 0 cs) as [k cs']
  end.
  simpl.
  destruct (_ <? _); simpl; repeat split; auto.
Qed.

(** The scroll bar follows the flag [isExtended], and nothing clears the
    flag: once a batch or a toggle has extended the grid, the grid scrolls
    for good, also after a toggle back to a grid that needs no extra row. *)
Theorem scrolling_is_never_switched_off (cfg : Config) (g : t) (files : list File)
    (startCell : nat) :
  scrollOk (VideoGrid.new cfg)
  /\ (scrollOk g ->
      scrollOk (addMultipleVideos cfg files startCell g).2
      /\ scrollOk (toggleLayout cfg g).2
      /\ scrollOk (toggleAspectRatio cfg g).2)
  /\ (isExtended g = true ->
      isExtended (addMultipleVideos cfg files startCell g).2 = true
      /\ isExtended (toggleLayout cfg g).2 = true
      /\ isExtended (toggleAspectRatio cfg g).2 = true).
Proof.
  assert (Hadd : isExtended (addMultipleVideos cfg files startCell g).2
                 = isExtended g
                 /\ overflowY (addMultipleVideos cfg files startCell g).2
                    = overflowY g
                 \/ isExtended (addMultipleVideos cfg files startCell g).2 = true
                    /\ overflowY (addMultipleVideos cfg files startCell g).2
                       = "scroll").
  { unfold addMultipleVideos. destruct (_ <? _)%Z.
    - right.
      match goal with
      | |- context [addEachFile cfg ?es files ?i ?g1] =>
          destruct (VideoGridFacts.addEachFile_shape cfg es files i g1)
            as (_ & _ & _ & -> & -> & _)
      end. done.
    - left.
      match goal with
      | |- context [addEachFile cfg ?es files ?i ?g1] =>
          destruct (VideoGridFacts.addEachFile_shape cfg es files i g1)
            as (_ & _ & _ & -> & -> & _)
      end. done. }
  assert (Hrel : forall l a, scrollOk g -> scrollOk (relayout cfg l a g).2).
  { intros l a Hok. unfold scrollOk in *.
    destruct (relayout_fields cfg l a g) as (_ & _ & [[-> ->] | [-> ->]] & _);
      done. }
  assert (Hrel' : forall l a, isExtended g = true ->
                              isExtended (relayout cfg l a g).2 = true).
  { intros l a Hext.
    destruct (relayout_fields cfg l a g) as (_ & _ & [[-> _] | [-> _]] & _);
      done. }
  split; [reflexivity |]. split.
  - intros Hok. split.
    + unfold scrollOk in *. destruct Hadd as [[-> ->] | [-> ->]]; done.
    + rewrite VideoGridFacts.toggleLayout_relayout,
        VideoGridFacts.toggleAspectRatio_relayout. split; by apply Hrel.
  - intros Hext. split.
    + destruct Hadd as [[-> _] | [-> _]]; done.
    + rewrite VideoGridFacts.toggleLayout_relayout,
        VideoGridFacts.toggleAspectRatio_relayout. split; by apply Hrel'.
Qed.

Lemma scrolling_is_never_switched_off_witness :
  let extended := (addMultipleVideos Sample.config (replicate 5 Sample.mp4) 0
                     Sample.emptyGrid).2 in
  isExtended (toggleLayout Sample.config
                (toggleLayout Sample.config extended).2).2 = true.
Proof.
  intros extended.
  destruct (scrolling_is_never_switched_off Sample.config extended [] 0)
    as (_ & _ & Hext).
  destruct (Hext eq_refl) as (_ & H1 & _).
  destruct (scrolling_is_never_switched_off Sample.config
              (toggleLayout Sample.config extended).2 [] 0) as (_ & _ & Hext').
  exact (proj1 (proj2 (Hext' H1))).
Defined.

(** *** Room in the rebuilt grid *)

(** With a positive column count in the new layout, the grid a toggle
    builds has at least as many cells as there were videos.  So when the
    videos stand before every empty cell, none of them is lost: a video
    at a position below the number of videos is at that position again. *)
Theorem toggle_has_room_for_packed_videos (cfg : Config) (g : t)
    (r : Completion * t) (i : nat) (c : VideoCell) :
  r = toggleLayout cfg g \/ r = toggleAspectRatio cfg g ->
  0 < columns (layoutConfigOf cfg r.2) ->
  filledCells g <= length (cells r.2)
  /\ (cells g !! i = Some c ->
      truthy (vsrc (video c)) = true ->
      i < filledCells g ->
      exists c',
        cells r.2 !! i = Some c'
        /\ vsrc (video c') = vsrc (video c)
        /\ classEmpty c' = false).
Proof.
  intros Hr Hcols. destruct (toggle_is_relayout cfg g r Hr) as (l & a & ->).
  destruct (relayout_fields cfg l a g) as (Hl & Ha & _).
  unfold layoutConfigOf in Hcols. rewrite Hl, Ha in Hcols.
  pose proof (VideoGridFacts.relayout_length cfg l a g) as Hlen. simpl in Hlen.
  set (lc := layouts cfg l (aspectRatios cfg a)) in *.
  pose proof (ceilDiv_enough (filledCells g) (columns lc) Hcols) as Htotal.
  set (total := ceilDiv (filledCells g) (columns lc) * columns lc) in *.
  assert (Hroom : filledCells g <= length (cells (relayout cfg l a g).2)).
  { rewrite Hlen. destruct (layoutCells lc <? total) eqn:Hcmp.
    - pose proof (ceilDiv_enough (total - layoutCells lc) (columns lc) Hcols). lia.
    - apply Nat.ltb_ge in Hcmp. lia. }
  split; [exact Hroom |].
  intros Hc Hsrc Hi.
  destruct (lookup_lt_is_Some_2 (cells (relayout cfg l a g).2) i ltac:(lia))
    as [c' Hc'].
  exists c'. split; [exact Hc' |].
  apply relayout_cells in Hc'. unfold saveVideoStates in Hc'.
  rewrite lookup_map, Hc in Hc'. simpl in Hc'. subst c'.
  destruct (VideoGridFacts.restoreCell_loaded (tagManager g) (documentURL g)
              {| savedSrc := vsrc (video c); savedIsEmpty := classEmpty c;
                 savedTag := dataTag c;
                 savedIsPlaying := negb (paused (video c)) |} i Hsrc)
    as (H1 & H2 & _).
  by split.
Qed.

Lemma toggle_has_room_for_packed_videos_witness :
  exists c',
    cells (toggleLayout Sample.config Sample.oneVideo).2 !! 0 = Some c'
    /\ vsrc (video c') = "blob:0"
    /\ classEmpty c' = false.
Proof.
  refine (proj2 (toggle_has_room_for_packed_videos Sample.config Sample.oneVideo
                   _ 0 _ (or_introl eq_refl) _) eq_refl eq_refl _).
  - vm_compute. lia.
  - vm_compute. lia.
Defined.

(** *** Swapping two cells *)

Lemma filled_insert (cs : list VideoCell) :
  forall (i : nat) (a x : VideoCell),
    cs !! i = Some a ->
    length (filter (fun c => classEmpty c = false) (<[i := x]> cs))
    + (if classEmpty a then 0 else 1)
    = length (filter (fun c => classEmpty c = false) cs)
      + (if classEmpty x then 0 else 1).
Proof.
  induction cs as [|y cs IH]; intros [|i] a x Ha; simpl in *; try done.
  - injection Ha as ->.
    destruct (classEmpty a) eqn:Ea, (classEmpty x) eqn:Ex;
      rewrite ?(filter_cons_True _ a), ?(filter_cons_False _ a),
        ?(filter_cons_True _ x), ?(filter_cons_False _ x)
        by (rewrite ?Ea, ?Ex; done);
      simpl; lia.
  - specialize (IH i a x Ha).
    destruct (decide (classEmpty y = false)) as [Hy | Hy].
    + rewrite !filter_cons_True by done. simpl. lia.
    + rewrite !filter_cons_False by done. lia.
Qed.

(** A drop of the dragged cell on another cell exchanges the two videos and
    nothing else: each of the two cells is assigned the source the other
    had, and ends with the playback position and the empty flag of the
    other, and plays exactly when the other was loaded and playing; every
    other cell is as it was; no cell is added or removed, and the number of
    loaded cells is the same.  The source a cell reads afterwards is the one
    the other had where that was not empty; the video of a cell that
    received the empty source of a cell never loaded reads the URL of the
    document. *)
Theorem drop_swaps_two_cells_only (g : t) (si ti : nat) (source target : VideoCell) :
  dragSource g = Some si ->
  ti <> si ->
  cells g !! si = Some source ->
  cells g !! ti = Some target ->
  (exists source' target',
     cells (drop (Some ti) g) !! si = Some source'
     /\ cells (drop (Some ti) g) !! ti = Some target'
     /\ vsrc (video source') = reflectURL (documentURL g) (vsrc (video target))
     /\ vsrc (video target') = reflectURL (documentURL g) (vsrc (video source))
     /\ (truthy (vsrc (video target)) = true ->
         vsrc (video source') = vsrc (video target))
     /\ (truthy (vsrc (video source)) = true ->
         vsrc (video target') = vsrc (video source))
     /\ (vsrc (video target) = "" -> vsrc (video source') = documentURL g)
     /\ (vsrc (video source) = "" -> vsrc (video target') = documentURL g)
     /\ currentTime (video source') = currentTime (video target)
     /\ currentTime (video target') = currentTime (video source)
     /\ classEmpty source' = classEmpty target
     /\ classEmpty target' = classEmpty source
     /\ paused (video source') = classEmpty target || paused (video target)
     /\ paused (video target') = classEmpty source || paused (video source))
  /\ (forall k, k <> si -> k <> ti ->
        cells (drop (Some ti) g) !! k = cells g !! k)
  /\ length (cells (drop (Some ti) g)) = length (cells g)
  /\ filledCells (drop (Some ti) g) = filledCells g.
Proof.
  intros Hdrag Hne Hs Ht.
  split.
  { destruct (VideoGridFacts.drop_exchanges g si ti source target Hdrag Hne Hs Ht)
      as (s' & t' & H1 & H2 & H3 & H4 & H5 & H6 & H7 & H8 & H9 & H10 & _).
    exists s', t'. do 4 (split; [assumption |]).
    split; [intros Hsrc; by rewrite H3, reflectURL_truthy |].
    split; [intros Hsrc; by rewrite H4, reflectURL_truthy |].
    split; [intros Hsrc; by rewrite H3, Hsrc |].
    split; [intros Hsrc; by rewrite H4, Hsrc |].
    repeat (split; [assumption |]). assumption. }
  destruct (drop_form g si ti source target Hdrag Hne Hs Ht)
    as (s' & t' & Hcells & Hcs & Hct).
  split; [| split].
  - intros k Hks Hkt. rewrite Hcells.
    by rewrite !list_lookup_insert_ne by done.
  - by rewrite Hcells, !length_insert.
  - unfold filledCells. rewrite Hcells.
    assert (Hes : classEmpty s' = classEmpty target).
    { injection Hcs as _ -> _ _ _. unfold applyCellState, getCellState. simpl.
      destruct (classEmpty target); [done |].
      by destruct (negb (paused (video target))). }
    assert (Het : classEmpty t' = classEmpty source).
    { injection Hct as _ -> _ _ _. unfold applyCellState, getCellState. simpl.
      destruct (classEmpty source); [done |].
      by destruct (negb (paused (video source))). }
    pose proof (filled_insert (cells g) si source s' Hs) as H1.
    assert (Ht1 : <[si := s']> (cells g) !! ti = Some target)
      by (by rewrite list_lookup_insert_ne by done).
    pose proof (filled_insert (<[si := s']> (cells g)) ti target t' Ht1) as H2.
    rewrite Hes in H1. rewrite Het in H2.
    destruct (classEmpty source), (classEmpty target); lia.
Qed.

Lemma drop_swaps_two_cells_only_witness :
  let g := dragstart (Some 0) Sample.oneTagged in
  (exists source' target',
     cells (drop (Some 1) g) !! 0 = Some source'
     /\ cells (drop (Some 1) g) !! 1 = Some target'
     /\ vsrc (video source') = "http://localhost/index.html"
     /\ vsrc (video target') = "blob:0")
  /\ filledCells (drop (Some 1) g) = 1.
Proof.
  intros g.
  destruct (drop_swaps_two_cells_only g 0 1 _ _ eq_refl ltac:(discriminate)
              eq_refl eq_refl)
    as ((s' & t' & Hs & Ht & Hsrc1 & Hsrc2 & _) & _ & _ & Hfilled).
  split; [| exact Hfilled].
  exists s', t'. split; [exact Hs |]. split; [exact Ht |].
  split; [exact Hsrc1 | exact Hsrc2].
Defined.

(** When both cells of a swap carry a tag and a badge, the [data-tag]
    attributes are exchanged and so are the texts of the badges, but each
    badge keeps its own background color: after the swap a cell shows the
    name of its new tag on the color of the old one. *)
Theorem drop_exchanges_tags_not_colors (g : t) (si ti : nat)
    (source target : VideoCell) (sd td : TagDisplay) :
  dragSource g = Some si ->
  ti <> si ->
  cells g !! si = Some source ->
  cells g !! ti = Some target ->
  truthyAttr (dataTag source) = true ->
  truthyAttr (dataTag target) = true ->
  tagDisplay source = Some sd ->
  tagDisplay target = Some td ->
  exists source' target',
    cells (drop (Some ti) g) !! si = Some source'
    /\ cells (drop (Some ti) g) !! ti = Some target'
    /\ dataTag source' = dataTag target
    /\ dataTag target' = dataTag source
    /\ tagDisplay source'
       = Some {| textContent := textContent td;
                 backgroundColor := backgroundColor sd;
                 addMode := addMode sd |}
    /\ tagDisplay target'
       = Some {| textContent := textContent sd;
                 backgroundColor := backgroundColor td;
                 addMode := addMode td |}.
Proof.
  intros Hdrag Hne Hs Ht Hts Htt Hsd Htd.
  pose proof (lookup_lt_Some _ _ _ Hs) as Hsi.
  pose proof (lookup_lt_Some _ _ _ Ht) as Hti.
  assert (Hkeep : forall d st c, tagDisplay (applyCellState d st c) = tagDisplay c).
  { intros d st c. unfold applyCellState.
    destruct (stateIsEmpty st); [done |]. by destruct (stateIsPlaying st). }
  unfold drop. rewrite Hdrag, Hs, Ht.
  apply Nat.eqb_neq in Hne as Hneb. rewrite Hneb, Hts, Htt.
  simpl tagDisplay. rewrite !Hkeep, Hsd, Htd. simpl cells.
  rewrite list_lookup_insert_ne by done.
  rewrite list_lookup_insert_eq by done.
  rewrite list_lookup_insert_eq by (by rewrite length_insert).
  eexists _, _. split; [reflexivity |]. split; [reflexivity |]. done.
Qed.

Lemma drop_exchanges_tags_not_colors_witness :
  let g := dragstart (Some 0)
             (set_cells
                (alter (fun c => (TagManager.applyTag
                                    (TagManager.addTag "b"
                                       (tagManager Sample.oneTagged)
                                       (Sample.rngConst (1 # 2))).1.2 "b" c).2)
                       1 (cells Sample.oneTagged))
                Sample.oneTagged) in
  exists source' target',
    cells (drop (Some 1) g) !! 0 = Some source'
    /\ cells (drop (Some 1) g) !! 1 = Some target'
    /\ dataTag source' = Some "b"
    /\ dataTag target' = Some "a"
    /\ tagDisplay source'
       = Some {| textContent := "b"; backgroundColor := "hsl(10, 70%, 80%)";
                 addMode := false |}
    /\ tagDisplay target'
       = Some {| textContent := "a"; backgroundColor := "hsl(180, 70%, 80%)";
                 addMode := false |}.
Proof.
  intros g.
  exact (drop_exchanges_tags_not_colors g 0 1 _ _ _ _ eq_refl ltac:(discriminate)
           eq_refl eq_refl eq_refl eq_refl eq_refl eq_refl).
Defined.

(** *** A batch dropped on a loaded cell *)

Lemma addMultipleVideos_on_loaded_cell_witness :
  let r := addMultipleVideos Sample.config [Sample.mp4; Sample.mp4] 0
             Sample.oneVideo in
  r.1 = Normal /\ shownErrors r.2 = [] /\ filledCells r.2 = 1.
Proof.
  apply (VideoGridFacts.addMultipleVideos_on_loaded_cell Sample.config
           [Sample.mp4; Sample.mp4] 0 Sample.oneVideo).
  vm_compute. intros [H | [H | [H | []]]]; discriminate H.
Defined.

End VideoGridMore.

(** ** The listeners of the drag events *)

Module PageFacts.

Import VideoGrid GridInv Page.

Lemma addVideoToCell_dragSource (cfg : Config) (cell : nat) (file : File)
    (g : VideoGrid.t) :
  dragSource (addVideoToCell cfg cell file g).2 = dragSource g.
Proof.
  unfold addVideoToCell.
  destruct (negb (includes (ftype file) safeVideoTypes)); [done |].
  destruct (negb (includes (ftype file) (supportedFormats cfg))); [done |].
  by destruct (MAX_FILE_SIZE <? fsize file)%N.
Qed.

Lemma addEachFile_dragSource (cfg : Config) (empties : list nat) (files : list File) :
  forall (idx : Z) (g : VideoGrid.t),
    dragSource (addEachFile cfg empties files idx g).2 = dragSource g.
Proof.
  induction files as [|file rest IH]; intros idx g; simpl; [done |].
  destruct (String.prefix "video/" (ftype file)); [| apply IH].
  destruct ((0 <=? idx)%Z && (idx <? Z.of_nat (length empties))%Z); [| apply IH].
  destruct (empties !! Z.to_nat idx) as [cell|]; [| apply IH].
  pose proof (addVideoToCell_dragSource cfg cell file g) as Hd.
  destruct (addVideoToCell cfg cell file g) as [[|e] g']; simpl in *.
  - by rewrite IH.
  - exact Hd.
Qed.

Lemma addMultipleVideos_dragSource (cfg : Config) (files : list File)
    (startCell : nat) (g : VideoGrid.t) :
  dragSource (VideoGrid.addMultipleVideos cfg files startCell g).2 = dragSource g.
Proof.
  unfold VideoGrid.addMultipleVideos.
  destruct (_ <? _)%Z; by rewrite addEachFile_dragSource.
Qed.

(** The cells a batch appends to the grid take no files by drag and drop.
    [initialize] and both toggles give the file-drop listeners to every
    cell of the grid; the rows [addMultipleVideos] adds get none, so a
    drop of files on one of them changes nothing, until the next toggle. *)
Theorem file_drop_ignored_on_appended_cells (cfg : Config) (p : Page.t)
    (files dropped : list File) (startCell i : nat) :
  wired (initialize cfg) = length (cells (grid (initialize cfg)))
  /\ wired (Page.toggleLayout cfg p).2
     = length (cells (grid (Page.toggleLayout cfg p).2))
  /\ wired (Page.toggleAspectRatio cfg p).2
     = length (cells (grid (Page.toggleAspectRatio cfg p).2))
  /\ (wired p = length (cells (grid p)) ->
      dragSource (grid p) = None ->
      length (cells (grid p)) <= i ->
      dispatch cfg (Drop i dropped) (Page.addMultipleVideos cfg files startCell p).2
      = (Normal, (Page.addMultipleVideos cfg files startCell p).2)).
Proof.
  split; [reflexivity |].
  split; [unfold Page.toggleLayout;
          by destruct (VideoGrid.toggleLayout cfg (grid p)) |].
  split; [unfold Page.toggleAspectRatio;
          by destruct (VideoGrid.toggleAspectRatio cfg (grid p)) |].
  intros Hwired Hdrag Hi. unfold Page.addMultipleVideos.
  pose proof (addMultipleVideos_dragSource cfg files startCell (grid p)) as Hd.
  destruct (VideoGrid.addMultipleVideos cfg files startCell (grid p)) as [k g'].
  simpl in *. rewrite Hdrag in Hd.
  replace (i <? wired p) with false by (symmetry; apply Nat.ltb_ge; lia).
  unfold drop. by rewrite Hd.
Qed.

Lemma file_drop_ignored_on_appended_cells_witness :
  let p := (Page.addMultipleVideos Sample.config (replicate 5 Sample.mp4) 0
              (initialize Sample.config)).2 in
  length (cells (grid p)) = 10
  /\ dispatch Sample.config (Drop 7 [Sample.mp4]) p = (Normal, p).
Proof.
  split; [reflexivity |].
  apply (proj2 (proj2 (proj2
           (file_drop_ignored_on_appended_cells Sample.config
              (initialize Sample.config) (replicate 5 Sample.mp4)
              [Sample.mp4] 0 7)))).
  - reflexivity.
  - reflexivity.
  - vm_compute. lia.
Defined.

(** *** The highlight of a drag *)

Lemma alter_dragover_keeps (b : bool) (i : nat) (g : VideoGrid.t) :
  onlySourceDragging g ->
  onlySourceDragging (set_cells (alter (set_classDragover b) i (cells g)) g).
Proof.
  intros Hinv k c. simpl.
  destruct (decide (i = k)) as [-> | Hne].
  - rewrite list_lookup_alter_eq.
    destruct (cells g !! k) as [c0|] eqn:Hc0; [| discriminate].
    intros [= <-]. simpl. by apply Hinv.
  - rewrite list_lookup_alter_ne by done. apply Hinv.
Qed.

Lemma drop_drag_classes (g : VideoGrid.t) (si ti : nat) (source target : VideoCell) :
  dragSource g = Some si ->
  ti <> si ->
  cells g !! si = Some source ->
  cells g !! ti = Some target ->
  exists source' target',
    drop (Some ti) g
    = set_cells (<[ti := target']> (<[si := source']> (cells g))) g
    /\ classDragging source' = false
    /\ classDragging target' = classDragging target.
Proof.
  intros Hdrag Hne Hs Ht. unfold drop. rewrite Hdrag, Hs, Ht.
  apply Nat.eqb_neq in Hne as Hneb. rewrite Hneb.
  assert (Hkeep : forall d st c, classDragging (applyCellState d st c) = classDragging c).
  { intros d st c. unfold applyCellState.
    destruct (stateIsEmpty st); [done |]. by destruct (stateIsPlaying st). }
  match goal with
  | |- context [let '(a, b) := ?p in _] => destruct p as [source3 target3] eqn:Hswap
  end.
  eexists _, _. split; [reflexivity |]. split; [reflexivity |].
  destruct (truthyAttr (dataTag target)), (truthyAttr (dataTag source));
    match type of Hswap with
    | match ?x with _ => _ end = _ => destruct x as [sd|]
    end;
    try match type of Hswap with
        | match ?x with _ => _ end = _ => destruct x as [td|]
        end;
    injection Hswap as <- <-; simpl; by rewrite Hkeep.
Qed.

Lemma drop_keeps_onlySourceDragging (target : option nat) (g : VideoGrid.t) :
  onlySourceDragging g -> onlySourceDragging (drop target g).
Proof.
  intros Hinv.
  destruct (VideoGridMore.drop_cases target g)
    as [-> | (si & ti & s & t & -> & Hd & Hne & Hs & Ht)]; [exact Hinv |].
  destruct (drop_drag_classes g si ti s t Hd Hne Hs Ht) as (s' & t' & -> & Hs' & Ht').
  intros k c. simpl.
  destruct (decide (k = ti)) as [-> | Hkt].
  - rewrite list_lookup_insert_eq
      by (rewrite length_insert; by eapply lookup_lt_Some).
    intros [= <-] Hdg. rewrite Ht' in Hdg. by apply (Hinv ti t).
  - rewrite list_lookup_insert_ne by done.
    destruct (decide (k = si)) as [-> | Hks].
    + rewrite list_lookup_insert_eq by (by eapply lookup_lt_Some).
      intros [= <-] Hdg. congruence.
    + rewrite list_lookup_insert_ne by done. apply Hinv.
Qed.

Lemma dispatch_keeps_onlySourceDragging (cfg : Config) (e : DragEvent) (p : Page.t) :
  internal e ->
  onlySourceDragging (grid p) ->
  onlySourceDragging (grid (dispatch cfg e p).2).
Proof.
  intros Hint Hinv. destruct e as [i | i | i files].
  - simpl.
    assert (H1 : onlySourceDragging
                   (if i <? wired p then cellDragover i (grid p) else grid p))
      by (destruct (i <? wired p); [by apply alter_dragover_keeps | done]).
    unfold gridDragover. destruct (bool_decide _); [done |].
    by apply alter_dragover_keeps.
  - simpl.
    assert (H1 : onlySourceDragging
                   (if i <? wired p then cellDragleave i (grid p) else grid p))
      by (destruct (i <? wired p); [by apply alter_dragover_keeps | done]).
    unfold gridDragleave. destruct (bool_decide _); [done |].
    by apply alter_dragover_keeps.
  - simpl in Hint. subst files. unfold dispatch, cellDrop.
    destruct (i <? wired p); cbn -[drop]; apply drop_keeps_onlySourceDragging;
      [by apply alter_dragover_keeps | done].
Qed.

Lemma dispatchAll_keeps_onlySourceDragging (cfg : Config) (events : list DragEvent) :
  Forall internal events ->
  forall p, onlySourceDragging (grid p) ->
            onlySourceDragging (grid (dispatchAll cfg events p)).
Proof.
  induction 1 as [|e rest He _ IH]; intros p Hinv; simpl; [done |].
  apply IH. by apply dispatch_keeps_onlySourceDragging.
Qed.

(** A drag of a cell leaves no highlight behind.  From a grid without the
    classes [dragging] and [dragover], after [dragstart] on any cell, any
    sequence of [dragover], [dragleave] and [drop] events on any cells, and
    the closing [dragend], no cell has either class and no cell is
    remembered as the source of a drag. *)
Theorem drag_leaves_no_highlight (cfg : Config) (p : Page.t) (start : option nat)
    (events : list DragEvent) :
  noDragClasses (grid p) ->
  dragSource (grid p) = None ->
  Forall internal events ->
  let dragged := {| grid := dragstart start (grid p); wired := wired p |} in
  let ended := dragend (grid (dispatchAll cfg events dragged)) in
  noDragClasses ended /\ dragSource ended = None.
Proof.
  intros Hclean Hnone Hint dragged ended.
  assert (Hstart : onlySourceDragging (grid dragged)).
  { unfold dragged, dragstart. simpl.
    destruct start as [i|]; [| intros k c Hc Hd; by destruct (Hclean k c Hc) as [? _]; congruence].
    destruct (cells (grid p) !! i) as [cell|] eqn:Hcell;
      [| intros k c Hc Hd; destruct (Hclean k c Hc) as [? _]; congruence].
    destruct (negb (truthy (vsrc (video cell))));
      [intros k c Hc Hd; destruct (Hclean k c Hc) as [? _]; congruence |].
    intros k c. simpl.
    destruct (decide (k = i)) as [-> | Hne]; [done |].
    rewrite list_lookup_insert_ne by done.
    intros Hc Hd. destruct (Hclean k c Hc) as [? _]. congruence. }
  pose proof (dispatchAll_keeps_onlySourceDragging cfg events Hint dragged Hstart)
    as Hinv.
  set (g2 := grid (dispatchAll cfg events dragged)) in *.
  split; [| reflexivity].
  intros k c. unfold ended, dragend. simpl. rewrite lookup_map.
  destruct (dragSource g2) as [si|] eqn:Hsrc.
  - destruct (decide (si = k)) as [-> | Hne].
    + rewrite list_lookup_alter_eq.
      destruct (cells g2 !! k) as [c0|]; [| discriminate].
      intros [= <-]. done.
    + rewrite list_lookup_alter_ne by done.
      destruct (cells g2 !! k) as [c0|] eqn:Hc0; [| discriminate].
      intros [= <-]. simpl. split; [| done].
      destruct (classDragging c0) eqn:Hd; [| done].
      pose proof (Hinv k c0 Hc0 Hd). congruence.
  - destruct (cells g2 !! k) as [c0|] eqn:Hc0; [| discriminate].
    intros [= <-]. simpl. split; [| done].
    destruct (classDragging c0) eqn:Hd; [| done].
    pose proof (Hinv k c0 Hc0 Hd). congruence.
Qed.

Lemma drag_leaves_no_highlight_witness :
  let p := setupDragAndDrop Sample.oneTagged in
  let dragged := {| grid := dragstart (Some 0) (grid p); wired := wired p |} in
  noDragClasses
    (dragend (grid (dispatchAll Sample.config
                      [Dragover 0; Dragover 1; Dragleave 1; Dragover 2; Drop 2 []]
                      dragged))).
Proof.
  intros p dragged.
  refine (proj1 (drag_leaves_no_highlight Sample.config p (Some 0)
                   [Dragover 0; Dragover 1; Dragleave 1; Dragover 2; Drop 2 []]
                   _ eq_refl _)).
  - intros i c Hc.
    destruct i as [|[|[|[|i]]]]; vm_compute in Hc; try discriminate Hc;
      injection Hc as <-; by split.
  - repeat constructor.
Defined.

End PageFacts.

(** ** [debounce] and [throttle] *)

Module TimersFacts.

Import Timers.

Section Wrapped.

Variable A : Type.
Variable wait : N.

Lemma spaced_cons (t : N) (args : A) (l : list (N * A)) :
  spaced A wait l ->
  (forall t' args', In (t', args') l -> (t' + wait <= t)%N) ->
  spaced A wait ((t, args) :: l).
Proof.
  intros Hl Hall. simpl. split; [| exact Hl].
  destruct l as [|[t' a'] l]; [done |]. apply (Hall t' a'). by left.
Qed.

Lemma debounceInv_initial : debounceInv A wait (initial A).
Proof. repeat split; simpl; intros; done. Qed.

Lemma debounceInv_step (w w' : Wrapper A) (e : Event A) :
  debounceInv A wait w -> debounceStep A wait w e = Some w' ->
  debounceInv A wait w'.
Proof.
  intros (Hpending & Hpast & Hspaced) Hstep.
  destruct e as [at_ args | at_]; simpl in Hstep.
  - destruct (now A w <=? at_)%N eqn:Hnow; [| discriminate Hstep].
    apply N.leb_le in Hnow. injection Hstep as <-.
    split; [| split]; simpl.
    + intros due args' [= <- <-]. exists at_.
      split; [done |]. split; [done |]. split; [lia |].
      intros t' a' Hin. specialize (Hpast t' a' Hin). lia.
    + intros t' a' Hin. specialize (Hpast t' a' Hin). lia.
    + exact Hspaced.
  - destruct (pending A w) as [[due args]|] eqn:Hp; [| discriminate Hstep].
    destruct ((now A w <=? at_)%N && (due <=? at_)%N) eqn:Hok;
      [| discriminate Hstep].
    apply andb_true_iff in Hok as [Hnow%N.leb_le Hdue%N.leb_le].
    injection Hstep as <-.
    destruct (Hpending due args eq_refl) as (t0 & Hlast & -> & Ht0 & Hbefore).
    split; [| split]; simpl.
    + intros due' args' Hnone. discriminate Hnone.
    + intros t' a' [[= <- <-] | Hin]; [lia |].
      specialize (Hpast t' a' Hin). lia.
    + apply (spaced_cons at_ args); [exact Hspaced |].
      intros t' a' Hin. specialize (Hbefore t' a' Hin). lia.
Qed.

Lemma debounceInv_run (events : list (Event A)) :
  forall w w', debounceInv A wait w ->
               runWith A (debounceStep A wait) w events = Some w' ->
               debounceInv A wait w'.
Proof.
  induction events as [|e rest IH]; intros w w' Hinv Hrun; simpl in Hrun.
  - by injection Hrun as <-.
  - destruct (debounceStep A wait w e) as [w1|] eqn:Hstep; [| discriminate Hrun].
    eapply IH; [| exact Hrun]. by eapply debounceInv_step.
Qed.

(** A debounced function runs late and once: when its timer fires, [func]
    is called with the arguments of the last call of the closure, at least
    [wait] after that call, and every two calls of [func] are at least
    [wait] apart. *)
Theorem debounce_runs_last_call (events : list (Event A)) (w w' : Wrapper A)
    (at_ : N) :
  runWith A (debounceStep A wait) (initial A) events = Some w ->
  debounceStep A wait w (Fire A at_) = Some w' ->
  exists t0 args,
    lastCall A w = Some (t0, args)
    /\ (t0 + wait <= at_)%N
    /\ invoked A w' = (at_, args) :: invoked A w
    /\ pending A w' = None
    /\ spaced A wait (invoked A w').
Proof.
  intros Hrun Hstep.
  pose proof (debounceInv_run events _ _ debounceInv_initial Hrun) as Hinv.
  pose proof (debounceInv_step w w' _ Hinv Hstep) as (_ & _ & Hspaced).
  destruct Hinv as (Hpending & _ & _).
  simpl in Hstep.
  destruct (pending A w) as [[due args]|] eqn:Hp; [| discriminate Hstep].
  destruct ((now A w <=? at_)%N && (due <=? at_)%N) eqn:Hok; [| discriminate Hstep].
  apply andb_true_iff in Hok as [_ Hdue%N.leb_le].
  destruct (Hpending due args eq_refl) as (t0 & Hlast & -> & _).
  injection Hstep as <-. exists t0, args. simpl in *. done.
Qed.

Lemma throttleInv_initial : throttleInv A wait (initial A).
Proof. repeat split; simpl; intros; done. Qed.

Lemma throttleInv_step (w w' : Wrapper A) (e : Event A) :
  throttleInv A wait w -> throttleStep A wait w e = Some w' ->
  throttleInv A wait w'.
Proof.
  intros (Hpending & Hpast & Hspaced) Hstep.
  destruct e as [at_ args | at_]; simpl in Hstep.
  - destruct (now A w <=? at_)%N eqn:Hnow; [| discriminate Hstep].
    apply N.leb_le in Hnow. injection Hstep as <-.
    split; [| split]; simpl.
    + destruct (pending A w) as [[due0 args0]|] eqn:Hp.
      * intros due args' [= <- <-]. by apply (Hpending due0 args0).
      * intros due args' [= <- <-] t' a' Hin. specialize (Hpast t' a' Hin). lia.
    + intros t' a' Hin. specialize (Hpast t' a' Hin). lia.
    + exact Hspaced.
  - destruct (pending A w) as [[due args]|] eqn:Hp; [| discriminate Hstep].
    destruct ((now A w <=? at_)%N && (due <=? at_)%N) eqn:Hok;
      [| discriminate Hstep].
    apply andb_true_iff in Hok as [Hnow%N.leb_le Hdue%N.leb_le].
    injection Hstep as <-.
    split; [| split]; simpl.
    + intros due' args' Hnone. discriminate Hnone.
    + intros t' a' [[= <- <-] | Hin]; [lia |].
      specialize (Hpast t' a' Hin). lia.
    + apply (spaced_cons at_ args); [exact Hspaced |].
      intros t' a' Hin. specialize (Hpending due args eq_refl t' a' Hin). lia.
Qed.

Lemma throttle_count (events : list (Event A)) :
  forall w w',
    runWith A (throttleStep A wait) w events = Some w' ->
    length (invoked A w') + pendingCount A w'
    <= length (invoked A w) + pendingCount A w
       + length (filter (fun e => isCall A e = true) events).
Proof.
  induction events as [|e rest IH]; intros w w' Hrun; simpl in Hrun.
  - injection Hrun as <-. simpl. lia.
  - destruct (throttleStep A wait w e) as [w1|] eqn:Hstep; [| discriminate Hrun].
    specialize (IH w1 w' Hrun).
    destruct e as [at_ args | at_]; simpl in Hstep.
    + rewrite filter_cons_True by done. simpl.
      destruct (now A w <=? at_)%N; [| discriminate Hstep].
      injection Hstep as <-. unfold pendingCount in *. simpl in *.
      destruct (pending A w); simpl in *; lia.
    + rewrite filter_cons_False by done.
      destruct (pending A w) as [[due args]|] eqn:Hp; [| discriminate Hstep].
      destruct ((now A w <=? at_)%N && (due <=? at_)%N); [| discriminate Hstep].
      injection Hstep as <-. unfold pendingCount in *. rewrite Hp.
      simpl in *. lia.
Qed.

(** A throttled function runs at most once per [wait]: in every run of the
    closure, two calls of [func] are at least [wait] apart, [func] is
    called at most as often as the closure, and a call of the closure made
    while its timer is pending changes neither the timer nor its
    arguments. *)
Theorem throttle_limits_rate (events : list (Event A)) (w : Wrapper A) :
  runWith A (throttleStep A wait) (initial A) events = Some w ->
  spaced A wait (invoked A w)
  /\ length (invoked A w) <= length (filter (fun e => isCall A e = true) events)
  /\ (forall at_ args w',
        throttleStep A wait w (Call A at_ args) = Some w' ->
        is_Some (pending A w) ->
        pending A w' = pending A w /\ invoked A w' = invoked A w).
Proof.
  intros Hrun. split; [| split].
  - assert (Hinv : forall evs w0 w1,
               throttleInv A wait w0 ->
               runWith A (throttleStep A wait) w0 evs = Some w1 ->
               throttleInv A wait w1).
    { induction evs as [|e rest IH]; intros w0 w1 Hinv0 Hr; simpl in Hr.
      - by injection Hr as <-.
      - destruct (throttleStep A wait w0 e) as [w2|] eqn:Hstep; [| discriminate Hr].
        eapply IH; [| exact Hr]. by eapply throttleInv_step. }
    by destruct (Hinv events _ _ throttleInv_initial Hrun) as (_ & _ & Hspaced).
  - pose proof (throttle_count events _ _ Hrun) as H. simpl in H.
    unfold pendingCount in H. simpl in H. lia.
  - intros at_ args w' Hstep [p Hp]. simpl in Hstep.
    destruct (now A w <=? at_)%N; [| discriminate Hstep].
    injection Hstep as <-. simpl. by rewrite Hp.
Qed.

End Wrapped.

Lemma debounce_runs_last_call_witness :
  exists t0 args,
    Some (150%N, "b") = Some (t0, args)
    /\ (t0 + 200 <= 400)%N
    /\ invoked string
         {| now := 400; pending := None; invoked := [(400%N, "b")];
            lastCall := Some (150%N, "b") |}
       = (400%N, args) :: []
    /\ pending string
         {| now := 400; pending := None; invoked := [(400%N, "b")];
            lastCall := Some (150%N, "b") |} = None
    /\ spaced string 200
         (invoked string
            {| now := 400; pending := None; invoked := [(400%N, "b")];
               lastCall := Some (150%N, "b") |}).
Proof.
  exact (debounce_runs_last_call string 200
           [Call string 100 "a"; Call string 150 "b"]
           {| now := 150; pending := Some (350%N, "b"); invoked := [];
              lastCall := Some (150%N, "b") |}
           {| now := 400; pending := None; invoked := [(400%N, "b")];
              lastCall := Some (150%N, "b") |}
           400 eq_refl eq_refl).
Defined.

Lemma throttle_limits_rate_witness :
  spaced string 200 [(410%N, "c"); (200%N, "a")].
Proof.
  exact (proj1 (throttle_limits_rate string 200
                  [Call string 0 "a"; Call string 50 "b"; Fire string 200;
                   Call string 210 "c"; Fire string 410]
                  {| now := 410; pending := None;
                     invoked := [(410%N, "c"); (200%N, "a")];
                     lastCall := Some (210%N, "c") |}
                  eq_refl)).
Defined.

End TimersFacts.

(** ** The navbar, once the page has settled *)

Module NavbarMore.

Import Navbar.

(** Once the timer set on load has fired, the navbar that a [mousemove]
    inside the zone has shown stays shown as long as every further
    [mousemove] is inside the zone: no timer can fire, and no such event
    hides it. *)
Theorem navbar_stays_visible_in_zone (events : list Event) :
  forall w w' : World,
    hidden (nav w) = false ->
    timeout (nav w) = None ->
    initialTimer (nav w) = None ->
    Forall (fun e => forall at_ y, e = MouseMove at_ y -> (y < threshold)%Z) events ->
    run w events = Some w' ->
    hidden (nav w') = false
    /\ timeout (nav w') = None
    /\ Forall (fun e => exists at_ y, e = MouseMove at_ y) events.
Proof.
  induction events as [|e rest IH]; intros w w' Hvis Htimeout Hinit Hzone Hrun;
    simpl in Hrun.
  - injection Hrun as <-. by repeat split.
  - destruct (step w e) as [w1|] eqn:Hstep; [| discriminate Hrun].
    apply Forall_cons in Hzone as [He Hrest].
    destruct e as [at_ y | at_ | at_]; simpl in Hstep.
    + destruct (now w <=? at_)%N; [| discriminate Hstep].
      injection Hstep as <-.
      specialize (He at_ y eq_refl). apply Z.ltb_lt in He.
      assert (Hmove : mousemove at_ y (nav w)
                      = {| hidden := false; timeout := None;
                           initialTimer := initialTimer (nav w) |})
        by (unfold mousemove; by rewrite He).
      rewrite Hmove in Hrun.
      destruct (IH {| now := at_;
                      nav := {| hidden := false; timeout := None;
                                initialTimer := initialTimer (nav w) |};
                      pointer := Some (at_, y) |}
                  w' eq_refl eq_refl Hinit Hrest Hrun) as (H1 & H2 & H3).
      split; [exact H1 |]. split; [exact H2 |].
      constructor; [by exists at_, y | exact H3].
    + rewrite Htimeout in Hstep. discriminate Hstep.
    + rewrite Hinit in Hstep. discriminate Hstep.
Qed.

Lemma navbar_stays_visible_in_zone_witness :
  hidden (mousemove 4000 10 (mousemove 3500 50
            (mousemove 3000 40 (initialCallback (setupAutoHide 0 false))))) = false.
Proof.
  refine (proj1 (navbar_stays_visible_in_zone
                   [MouseMove 3500 50; MouseMove 4000 10]
                   {| now := 3000;
                      nav := mousemove 3000 40
                               (initialCallback (setupAutoHide 0 false));
                      pointer := Some (3000%N, 40%Z) |}
                   {| now := 4000;
                      nav := mousemove 4000 10 (mousemove 3500 50
                               (mousemove 3000 40
                                  (initialCallback (setupAutoHide 0 false))));
                      pointer := Some (4000%N, 10%Z) |}
                   eq_refl eq_refl eq_refl _ eq_refl)).
  repeat constructor; intros at_ y [= <- <-]; reflexivity.
Defined.

End NavbarMore.
